(** * SkyTab POS integration: client, provider adapter, webhook processor
      and failed-request queue, embedded from the TypeScript sources

    Sources embedded here:
    - [apps/api/src/modules/pos/providers/skytab/skytab.client.ts]
    - [apps/api/src/modules/pos/providers/skytab/skytab.provider.ts]
      (which also carries [skytab.webhook.ts])
    - [apps/api/src/modules/pos/pos.routes.ts]
    - [apps/api/src/modules/pos/pos.service.ts]
    - [apps/api/src/modules/pos/providers/mock-pos.provider.ts]

    JavaScript numbers are modelled as [Z] (all the quantities involved are
    millisecond counts, HTTP statuses and counters), strings as [string],
    [T | null] and [T | undefined] as [option T].  Asynchronous code is
    modelled sequentially: one [await] after the other, in program order. *)

From Stdlib Require Import ZArith List String Ascii Bool Lia.
From Stdlib Require Import DecimalString.
Import ListNotations.

Open Scope string_scope.
Open Scope list_scope.
Open Scope Z_scope.

(* ================================================================== *)
(** * Part I: definitions *)
(* ================================================================== *)

(** ** JavaScript values used by the sources *)
Module Js.

(** The exceptions the sources throw, catch and test with [instanceof]. *)
Inductive JsError : Type :=
| Error (message : string)
| TypeError (message : string)
| SyntaxError (message : string)
| AbortError
| SkyTabApiError (message code : string) (statusCode : Z)
                 (details : option string).

(** Outcome of evaluating a statement block: a value or a thrown error. *)
Inductive Completion (A : Type) : Type :=
| Return (a : A)
| Throw (e : JsError).
Arguments Return {A} a.
Arguments Throw {A} e.

Definition errorMessage (e : JsError) : string :=
  match e with
  | Error m | TypeError m | SyntaxError m => m
  | AbortError => "This operation was aborted"
  | SkyTabApiError m _ _ _ => m
  end.

(** [error instanceof TypeError] *)
Definition isTypeError (e : JsError) : bool :=
  match e with TypeError _ => true | _ => false end.

(** [error.name === 'AbortError'] *)
Definition isAbortError (e : JsError) : bool :=
  match e with AbortError => true | _ => false end.

(** Truthiness of a string: the empty string is falsy. *)
Definition truthy (s : string) : bool :=
  match s with EmptyString => false | String _ _ => true end.

(** Truthiness of [string | undefined]. *)
Definition truthyOpt (o : option string) : bool :=
  match o with Some s => truthy s | None => false end.

(** [a || b] on [string | undefined]. *)
Definition orElse (a b : option string) : option string :=
  if truthyOpt a then a else b.

(** [s || d] where [d] is a string literal. *)
Definition orDefault (s : string) (d : string) : string :=
  if truthy s then s else d.

(** [haystack.includes(needle)] *)
Definition includes (needle haystack : string) : bool :=
  match String.index 0 needle haystack with
  | Some _ => true
  | None => false
  end.

(** [`${n}`] for an integer [n]. *)
Definition numberToString (n : Z) : string :=
  NilZero.string_of_int (Z.to_int n).

Definition isWhitespace (c : ascii) : bool :=
  let n := nat_of_ascii c in
  (Nat.eqb n 32 || Nat.eqb n 9 || Nat.eqb n 10 || Nat.eqb n 11
   || Nat.eqb n 12 || Nat.eqb n 13)%bool.

Definition digitValue (c : ascii) : option Z :=
  let n := nat_of_ascii c in
  if (Nat.leb 48 n && Nat.leb n 57)%bool
  then Some (Z.of_nat (n - 48)) else None.

Fixpoint skipWhitespace (s : string) : string :=
  match s with
  | String c rest => if isWhitespace c then skipWhitespace rest else s
  | EmptyString => s
  end.

(** Longest prefix of decimal digits, accumulated left to right;
    [None] when there is no digit at all. *)
Fixpoint parseDigits (acc : option Z) (s : string) : option Z :=
  match s with
  | String c rest =>
      match digitValue c with
      | Some d =>
          parseDigits (Some (10 * match acc with Some a => a | None => 0 end + d)) rest
      | None => acc
      end
  | EmptyString => acc
  end.

(** [parseInt(s, 10)]; [None] stands for [NaN]. *)
Definition parseInt (s : string) : option Z :=
  match skipWhitespace s with
  | String "-" rest => option_map Z.opp (parseDigits None rest)
  | String "+" rest => parseDigits None rest
  | t => parseDigits None t
  end.

End Js.

(** ** The HTTP client: [skytab.client.ts] *)
Module SkyTabClient.
Import Js.

(** Rate limiting configuration *)
Definition RATE_LIMIT_REQUESTS_PER_MINUTE : Z := 60.
Definition RATE_LIMIT_WINDOW_MS : Z := 60 * 1000.

(** Default request options *)
Definition DEFAULT_TIMEOUT_MS : Z := 30000.
Definition DEFAULT_RETRIES : Z := 3.
Definition DEFAULT_RETRY_DELAY_MS : Z := 1000.

(** The credentials read from [config]. *)
Record Config : Type := {
  SKYTAB_API_KEY : option string;
  SKYTAB_API_SECRET : option string;
  SHIFT4_API_KEY : option string;
  SHIFT4_API_SECRET : option string
}.

(** [SkyTabRequestOptions] *)
Record SkyTabRequestOptions : Type := {
  timeout : option Z;
  retries : option Z;
  retryDelay : option Z
}.

Definition noOptions : SkyTabRequestOptions :=
  {| timeout := None; retries := None; retryDelay := None |}.

(** [SkyTabErrorResponse['error']]; an absent string field is [""],
    which [||] treats like [undefined]. *)
Record SkyTabErrorBody : Type := {
  code : string;
  message : string;
  details : option string
}.

(** What [fetch] resolves to, after [response.json()] has parsed the body
    ([T] is the type the caller casts the parsed body to). *)
Record Response (T : Type) : Type := {
  status : Z;
  retryAfterHeader : option string;   (* response.headers.get('Retry-After') *)
  errorData : option SkyTabErrorBody; (* (responseData as SkyTabErrorResponse).error *)
  responseData : T
}.
Arguments status {T} _.
Arguments retryAfterHeader {T} _.
Arguments errorData {T} _.
Arguments responseData {T} _.

(** [response.ok] *)
Definition ok {T} (r : Response T) : bool :=
  (200 <=? status r) && (status r <=? 299).

(** What the credential-exchange call can produce. *)
Inductive AuthOutcome : Type :=
| AuthThrows (e : JsError)               (* fetch or response.json() rejects *)
| AuthRejected (statusText : string)     (* !response.ok *)
| AuthOk (accessToken : string) (expiresIn : Z).

(** What an API call can produce. *)
Inductive ApiOutcome (T : Type) : Type :=
| ApiThrows (e : JsError)                (* fetch or response.json() rejects *)
| ApiResponse (r : Response T).
Arguments ApiThrows {T} e.
Arguments ApiResponse {T} r.

(** The request handed to [fetch] by [request]. *)
Record HttpRequest : Type := {
  method : string;
  endpoint : string;
  accessTokenHeader : string;
  requestBody : option (list (string * string))  (* the object passed as body *)
}.

(** What one pass through the [try] block of [request] has in hand when it
    reaches the [if (!response.ok)] test, or the error that was thrown
    before that point. *)
Inductive AttemptOutcome (T : Type) : Type :=
| Responded (r : Response T)  (* a response whose body was parsed *)
| FetchFailed (e : JsError)   (* fetch or response.json() rejected *)
| NotSent (e : JsError).      (* getAccessToken threw: no API call was made *)
Arguments Responded {T} r.
Arguments FetchFailed {T} e.
Arguments NotSent {T} e.

(** The four call sites of [this.sleep]. *)
Inductive SleepSite : Type :=
| RateLimitWait          (* checkRateLimit *)
| HttpRetryBackoff       (* retryable status, "SkyTab request failed, retrying" *)
| RetryAfterWait         (* "Rate limited by SkyTab, waiting" *)
| NetworkRetryBackoff.   (* "Network error, retrying SkyTab request" *)

(** Observable events of a run, in chronological order. *)
Inductive Event (T : Type) : Type :=
| EvTokenExchange                      (* POST .../credentials/accesstoken *)
| EvAttempt (attempt : Z) (o : AttemptOutcome T) (* one pass of the retry loop *)
| EvSleep (site : SleepSite) (ms : Z).
Arguments EvTokenExchange {T}.
Arguments EvAttempt {T} attempt o.
Arguments EvSleep {T} site ms.

(** The fields of a [SkyTabClient] instance, the clock ([Date.now()]) and
    the log of events.  The clock moves when the client sleeps; a call to
    the vendor takes no time on it. *)
Record World (T : Type) : Type := {
  now : Z;
  accessToken : option string;
  tokenExpiry : option Z;
  requestQueue : list Z;        (* RequestQueueItem.timestamp *)
  trace : list (Event T)
}.
Arguments now {T} _.
Arguments accessToken {T} _.
Arguments tokenExpiry {T} _.
Arguments requestQueue {T} _.
Arguments trace {T} _.

Definition isTokenExchange {T} (e : Event T) : bool :=
  match e with EvTokenExchange => true | _ => false end.

Definition isAttempt {T} (e : Event T) : bool :=
  match e with EvAttempt _ _ => true | _ => false end.

Definition isApiCall {T} (e : Event T) : bool :=
  match e with
  | EvAttempt _ (Responded _) | EvAttempt _ (FetchFailed _) => true
  | _ => false
  end.

Definition isRetrySleep {T} (e : Event T) : bool :=
  match e with
  | EvSleep RateLimitWait _ => false
  | EvSleep _ _ => true
  | _ => false
  end.

Definition tokenExchanges {T} (evs : list (Event T)) : nat :=
  List.length (filter isTokenExchange evs).

Definition attempts {T} (evs : list (Event T)) : nat :=
  List.length (filter isAttempt evs).

Definition apiCalls {T} (evs : list (Event T)) : nat :=
  List.length (filter isApiCall evs).

Definition retrySleeps {T} (evs : list (Event T)) : nat :=
  List.length (filter isRetrySleep evs).

(** The events a run from [w] to [w'] added to the trace. *)
Definition eventsSince {T} (w w' : World T) : list (Event T) :=
  skipn (List.length (trace w)) (trace w').

Section Client.
Context {T : Type}.

(** The environment of a client: its configuration and the vendor, which
    answers the n-th credential exchange and the n-th API call. *)
Variable config : Config.
Variable authNet : nat -> AuthOutcome.
Variable apiNet : nat -> HttpRequest -> ApiOutcome T.

Definition log (e : Event T) (w : World T) : World T :=
  {| now := now w; accessToken := accessToken w;
     tokenExpiry := tokenExpiry w; requestQueue := requestQueue w;
     trace := trace w ++ [e] |}.

(** [sleep(ms)]: the timer fires after [ms] milliseconds (at once for a
    non-positive delay). *)
Definition sleep (site : SleepSite) (ms : Z) (w : World T) : World T :=
  {| now := now w + Z.max 0 ms; accessToken := accessToken w;
     tokenExpiry := tokenExpiry w; requestQueue := requestQueue w;
     trace := trace w ++ [EvSleep site ms] |}.

(** The test guarding the cached token in [getAccessToken]. *)
Definition cachedToken (w : World T) : option string :=
  match accessToken w, tokenExpiry w with
  | Some token, Some expiry =>
      let bufferMs := 5 * 60 * 1000 in
      if truthy token && (now w + bufferMs <? expiry)
      then Some token else None
  | _, _ => None
  end.

(** [getAccessToken] *)
Definition getAccessToken (w : World T) : Completion string * World T :=
  match cachedToken w with
  | Some token => (Return token, w)
  | None =>
      let apiKey := orElse (SKYTAB_API_KEY config) (SHIFT4_API_KEY config) in
      let apiSecret := orElse (SKYTAB_API_SECRET config) (SHIFT4_API_SECRET config) in
      if negb (truthyOpt apiKey) || negb (truthyOpt apiSecret)
      then (Throw (Error "SkyTab API credentials not configured"), w)
      else
        let w1 := log EvTokenExchange w in
        match authNet (tokenExchanges (trace w)) with
        | AuthThrows e => (Throw e, w1)
        | AuthRejected statusText =>
            (Throw (Error ("SkyTab authentication failed: " ++ statusText)), w1)
        | AuthOk token expiresIn =>
            (Return token,
             {| now := now w1;
                accessToken := Some token;
                tokenExpiry := Some (now w1 + expiresIn * 1000);
                requestQueue := requestQueue w1;
                trace := trace w1 |})
        end
  end.

(** [testConnection] *)
Definition testConnection (w : World T) : bool * World T :=
  match getAccessToken w with
  | (Return _, w') => (true, w')
  | (Throw _, w') => (false, w')
  end.

(** The world when the clock reads [t]. *)
Definition atTime (t : Z) (w : World T) : World T :=
  {| now := t; accessToken := accessToken w; tokenExpiry := tokenExpiry w;
     requestQueue := requestQueue w; trace := trace w |}.

(** A sequence of calls to [getAccessToken], one at each of the given
    times, on the same client. *)
Fixpoint getAccessTokenAt (times : list Z) (w : World T)
  : list (Completion string) * World T :=
  match times with
  | [] => ([], w)
  | t :: later =>
      let (c, w1) := getAccessToken (atTime t w) in
      let (cs, w2) := getAccessTokenAt later w1 in
      (c :: cs, w2)
  end.

(** [clearToken] *)
Definition clearToken (w : World T) : World T :=
  {| now := now w; accessToken := None; tokenExpiry := None;
     requestQueue := requestQueue w; trace := trace w |}.

Definition setRequestQueue (q : list Z) (w : World T) : World T :=
  {| now := now w; accessToken := accessToken w;
     tokenExpiry := tokenExpiry w; requestQueue := q; trace := trace w |}.

(** [checkRateLimit] *)
Definition checkRateLimit (w : World T) : World T :=
  let now0 := now w in
  let w1 :=
    setRequestQueue
      (filter (fun timestamp => now0 - timestamp <? RATE_LIMIT_WINDOW_MS)
              (requestQueue w)) w in
  let w2 :=
    if RATE_LIMIT_REQUESTS_PER_MINUTE <=? Z.of_nat (List.length (requestQueue w1))
    then
      match requestQueue w1 with
      | oldestRequest :: _ =>
          let waitTime := RATE_LIMIT_WINDOW_MS - (now0 - oldestRequest) in
          if 0 <? waitTime then sleep RateLimitWait waitTime w1 else w1
      | [] => w1
      end
    else w1 in
  setRequestQueue (requestQueue w2 ++ [now w2]) w2.

(** [getBackoffDelay] *)
Definition getBackoffDelay (attempt baseDelay : Z) : Z :=
  Z.min (baseDelay * 2 ^ attempt) 30000.

(** [isRetryableError] *)
Definition isRetryableError (status : Z) (error : option JsError) : bool :=
  if (500 <=? status) || (status =? 429) then true
  else
    match error with
    | Some (TypeError m) => includes "fetch" m
    | _ => false
    end.

(** The statements of the [try] block of [request] up to and including
    [await response.json()]: rate limiting, token, [fetch], parsing. *)
Definition sendAttempt (method endpoint : string) (body : option (list (string * string)))
           (attempt : Z) (w : World T) : AttemptOutcome T * World T :=
  let w1 := checkRateLimit w in
  match getAccessToken w1 with
  | (Throw e, w2) => (NotSent e, log (EvAttempt attempt (NotSent e)) w2)
  | (Return token, w2) =>
      let o :=
        match apiNet (apiCalls (trace w2))
                     {| method := method; endpoint := endpoint;
                        accessTokenHeader := token; requestBody := body |} with
        | ApiThrows e => FetchFailed e
        | ApiResponse r => Responded r
        end in
      (o, log (EvAttempt attempt o) w2)
  end.

(** [new SkyTabApiError(errorData.error?.message || `Request failed with
    status ${response.status}`, errorData.error?.code || 'UNKNOWN_ERROR',
    response.status, errorData.error?.details)] *)
Definition apiErrorOf (r : Response T) : JsError :=
  SkyTabApiError
    (orDefault (match errorData r with Some e => message e | None => "" end)
               ("Request failed with status " ++ numberToString (status r)))
    (orDefault (match errorData r with Some e => code e | None => "" end)
               "UNKNOWN_ERROR")
    (status r)
    (match errorData r with Some e => details e | None => None end).

(** How one pass of the [for] loop ends. *)
Inductive Next : Type :=
| Finish (c : Completion T)
    (* [return responseData] or [throw error]: leaves [request] *)
| NextAttempt (wait : option (SleepSite * Z)) (lastError : option JsError).
    (* [continue], or falling off the end of the [catch] block *)

Section Pass.
Variables (timeout maxRetries baseRetryDelay : Z).

(** The [catch (error)] block of [request]. *)
Definition onCatch (attempt : Z) (error : JsError) : Next :=
  let lastError :=
    if isAbortError error
    then SkyTabApiError
           ("Request timeout after " ++ numberToString timeout ++ "ms")
           "TIMEOUT" 408 None
    else error in
  let isNetworkError := isTypeError error in
  if isNetworkError && (attempt <? maxRetries)
  then NextAttempt
         (Some (NetworkRetryBackoff, getBackoffDelay attempt baseRetryDelay))
         (Some lastError)
  else
    match error with
    | SkyTabApiError _ _ statusCode _ =>
        if negb (isRetryableError statusCode None)
        then Finish (Throw error)
        else NextAttempt None (Some lastError)
    | _ => NextAttempt None (Some lastError)
    end.

(** The rest of the [try] block, from [if (!response.ok)] on, followed
    by the [catch] block when something was thrown. *)
Definition afterAttempt (attempt : Z) (lastError : option JsError)
           (o : AttemptOutcome T) : Next :=
  match o with
  | Responded response =>
      if negb (ok response) then
        if isRetryableError (status response) None && (attempt <? maxRetries)
        then NextAttempt
               (Some (HttpRetryBackoff, getBackoffDelay attempt baseRetryDelay))
               lastError
        else
          let retryAfter := retryAfterHeader response in
          if (status response =? 429) && truthyOpt retryAfter
             && (attempt <? maxRetries)
          then
            let delay :=
              match parseInt (match retryAfter with Some s => s | None => "" end) with
              | Some n => if n * 1000 =? 0
                          then getBackoffDelay attempt baseRetryDelay
                          else n * 1000
              | None => getBackoffDelay attempt baseRetryDelay
              end in
            NextAttempt (Some (RetryAfterWait, delay)) lastError
          else onCatch attempt (apiErrorOf response)
      else Finish (Return (responseData response))
  | FetchFailed e | NotSent e => onCatch attempt e
  end.

(** The [for (let attempt = 0; attempt <= maxRetries; attempt++)] loop
    and the statements after it; [remaining] is the number of passes
    left, [maxRetries - attempt + 1]. *)
Fixpoint requestLoop (method endpoint : string) (body : option (list (string * string)))
         (remaining : nat) (attempt : Z) (lastError : option JsError)
         (w : World T) : Completion T * World T :=
  match remaining with
  | O =>
      (Throw (match lastError with
              | Some e => e
              | None => Error "Request failed after all retries"
              end), w)
  | S remaining' =>
      let (o, w1) := sendAttempt method endpoint body attempt w in
      match afterAttempt attempt lastError o with
      | Finish c => (c, w1)
      | NextAttempt wait lastError' =>
          requestLoop method endpoint body remaining' (attempt + 1) lastError'
            (match wait with
             | Some (site, ms) => sleep site ms w1
             | None => w1
             end)
      end
  end.
End Pass.

(** [x || d] on an optional number: [undefined] and [0] are falsy. *)
Definition numberOr (x : option Z) (d : Z) : Z :=
  match x with
  | Some n => if n =? 0 then d else n
  | None => d
  end.

Definition timeoutOf (options : SkyTabRequestOptions) : Z :=
  numberOr (timeout options) DEFAULT_TIMEOUT_MS.

(** [options?.retries ?? DEFAULT_RETRIES] *)
Definition maxRetriesOf (options : SkyTabRequestOptions) : Z :=
  match retries options with Some n => n | None => DEFAULT_RETRIES end.

Definition baseRetryDelayOf (options : SkyTabRequestOptions) : Z :=
  numberOr (retryDelay options) DEFAULT_RETRY_DELAY_MS.

(** [request] *)
Definition request (method endpoint : string) (body : option (list (string * string)))
           (options : SkyTabRequestOptions) (w : World T)
  : Completion T * World T :=
  requestLoop (timeoutOf options) (maxRetriesOf options)
              (baseRetryDelayOf options)
              method endpoint body
              (Z.to_nat (maxRetriesOf options + 1)) 0 None w.

Definition get (endpoint : string) (options : SkyTabRequestOptions) :=
  request "GET" endpoint None options.

Definition post (endpoint : string) (body : option (list (string * string)))
           (options : SkyTabRequestOptions) :=
  request "POST" endpoint body options.

Definition put (endpoint : string) (body : option (list (string * string)))
           (options : SkyTabRequestOptions) :=
  request "PUT" endpoint body options.

Definition delete (endpoint : string) (options : SkyTabRequestOptions) :=
  request "DELETE" endpoint None options.

End Client.

(** A client that has just been constructed, at time [t]. *)
Definition newClient {T} (t : Z) : World T :=
  {| now := t; accessToken := None; tokenExpiry := None;
     requestQueue := []; trace := [] |}.

End SkyTabClient.

(** ** The provider adapter: [skytab.provider.ts] *)
Module SkyTabProvider.
Import Js SkyTabClient.

(** [POSOrderStatus['status']] of [pos.interface.ts] *)
Inductive POSOrderStatusValue : Type :=
| pending | confirmed | preparing | ready | completed | cancelled.

(** The values of the type [SkyTabTicketStatus] of the shared package. *)
Definition SkyTabTicketStatus : list string :=
  ["PENDING"; "CONFIRMED"; "PREPARING"; "READY"; "OUT_FOR_DELIVERY";
   "COMPLETED"; "CANCELLED"].

(** [mapSkyTabStatusToLocal]; the argument is whatever string the vendor
    sent, the [switch] has a [default] case. *)
Definition mapSkyTabStatusToLocal (status : string) : POSOrderStatusValue :=
  if (status =? "PENDING")%string then pending
  else if (status =? "CONFIRMED")%string then confirmed
  else if (status =? "PREPARING")%string then preparing
  else if (status =? "READY")%string then ready
  else if (status =? "OUT_FOR_DELIVERY")%string then ready
  else if (status =? "COMPLETED")%string then completed
  else if (status =? "CANCELLED")%string then cancelled
  else pending.

(** [mapOrderTypeToSkyTab] *)
Definition mapOrderTypeToSkyTab (orderType : string) : string :=
  if (orderType =? "delivery")%string then "DELIVERY"
  else if (orderType =? "pickup")%string then "PICKUP"
  else if (orderType =? "dine-in")%string then "DINE_IN"
  else "PICKUP".

(** [handleApiError]; every thrown value of the model is an [Error]. *)
Definition handleApiError (error : JsError) (defaultCode : string) : JsError :=
  match error with
  | SkyTabApiError _ _ _ _ => error
  | _ => SkyTabApiError (errorMessage error) defaultCode 500 None
  end.

(** [SkyTabCancelTicketResponse]: the field [result.success]. *)
Record SkyTabCancelTicketResponse : Type := {
  success : bool
}.

Section Provider.
Variable config : Config.
Variable authNet : nat -> AuthOutcome.
Variable apiNet : nat -> HttpRequest -> ApiOutcome SkyTabCancelTicketResponse.

(** [cancelOrder] *)
Definition cancelOrder (posOrderId : string)
           (w : World SkyTabCancelTicketResponse)
  : Completion bool * World SkyTabCancelTicketResponse :=
  match post config authNet apiNet
             ("/api/rest/v1/pos/tickets/" ++ posOrderId ++ "/cancel")
             (Some [("reason", "Customer requested cancellation")])
             noOptions w with
  | (Return response, w') => (Return (success response), w')
  | (Throw error, w') =>
      match error with
      | SkyTabApiError _ code _ _ =>
          if (code =? "TICKET_NOT_FOUND")%string || (code =? "INVALID_TICKET_STATUS")%string
          then (Return true, w')
          else (Throw (handleApiError error "ORDER_CANCEL_FAILED"), w')
      | _ => (Throw (handleApiError error "ORDER_CANCEL_FAILED"), w')
      end
  end.
End Provider.

End SkyTabProvider.

(** ** The persistence layer as the sources use it: [prisma] *)
Module Prisma.
Import Js.

(** The columns of [Order] the POS integration reads and writes. *)
Record Order : Type := {
  orderId : string;                       (* id *)
  orderLocationId : string;               (* locationId *)
  orderStatus : string;                   (* status *)
  posOrderId : option string;
  posSyncStatus : string;
  posSyncedAt : option Z;
  posErrorMessage : option string;
  estimatedReadyAt : option string;
  cancelledAt : option Z
}.

Record OrderStatusHistory : Type := {
  historyOrderId : string;
  historyStatus : string;
  historyNote : string;
  historyChangedBy : string
}.

Record Location : Type := {
  locationId : string;                    (* id *)
  posLocationId : option string;
  posSystemType : option string
}.

Record Menu : Type := {
  menuLocationId : string;
  lastSyncAt : option Z
}.

Record MenuItem : Type := {
  menuItemId : string;                    (* id *)
  posItemId : option string;
  isAvailable : bool;
  is86ed : bool;
  updatedAt : Z
}.

Record AuditLog : Type := {
  action : string;
  entityType : string;
  entityId : string;
  changes : list (string * string)
}.

Record POSWebhookEvent : Type := {
  eventId : string;
  eventType : string;
  eventLocationGuid : string;
  eventStatus : string;                   (* pending | processed | failed *)
  eventErrorMessage : option string;
  eventRetryCount : Z;
  processedAt : option Z
}.

Record POSFailedRequest : Type := {
  requestId : string;                     (* id *)
  requestLocationId : option string;
  requestType : string;
  requestPayloadOrderId : string;         (* requestPayload.orderId *)
  retryCount : Z;
  maxRetries : Z;
  nextRetryAt : option Z;
  requestStatus : string;                 (* pending | retrying | completed | abandoned *)
  requestErrorMessage : option string;
  completedAt : option Z
}.

Record Db : Type := {
  orders : list Order;
  orderStatusHistories : list OrderStatusHistory;
  locations : list Location;
  menus : list Menu;
  menuItems : list MenuItem;
  auditLogs : list AuditLog;
  posWebhookEvents : list POSWebhookEvent;
  posFailedRequests : list POSFailedRequest
}.

(** The database, the clock ([new Date()], [Date.now()]), the calls made
    to the POS provider so far, and the failures the database is going to
    have: the head of [faults] tells whether the next awaited [prisma]
    call rejects; an exhausted list means no further failure. *)
Record World : Type := {
  db : Db;
  clock : Z;
  posCalls : nat;
  faults : list bool
}.

(** Code that reads and writes the world and may throw. *)
Definition M (A : Type) : Type := World -> Completion A * World.

Definition ret {A} (a : A) : M A := fun w => (Return a, w).

Definition throw {A} (e : JsError) : M A := fun w => (Throw e, w).

Definition bind {A B} (m : M A) (k : A -> M B) : M B :=
  fun w =>
    match m w with
    | (Return a, w') => k a w'
    | (Throw e, w') => (Throw e, w')
    end.

(** [try { m } catch (error) { h error }] *)
Definition tryCatch {A} (m : M A) (h : JsError -> M A) : M A :=
  fun w =>
    match m w with
    | (Return a, w') => (Return a, w')
    | (Throw e, w') => h e w'
    end.

Definition getClock : M Z := fun w => (Return (clock w), w).

Definition setDb (d : Db) (w : World) : World :=
  {| db := d; clock := clock w; posCalls := posCalls w; faults := faults w |}.

Definition setFaults (f : list bool) (w : World) : World :=
  {| db := db w; clock := clock w; posCalls := posCalls w; faults := f |}.

(** One awaited [prisma] call: it rejects when the database fails, and
    otherwise runs against the tables. *)
Definition prisma {A} (call : Db -> Completion A * Db) : M A :=
  fun w =>
    match faults w with
    | true :: rest => (Throw (Error "Database error"), setFaults rest w)
    | false :: rest =>
        let (c, d) := call (db w) in (c, setFaults rest (setDb d w))
    | [] =>
        let (c, d) := call (db w) in (c, setDb d w)
    end.

(** [findFirst] *)
Definition findFirst {R} (where_ : R -> bool) (rows : list R) : option R :=
  find where_ rows.

(** [updateMany]: every matching row is rewritten. *)
Definition updateMany {R} (where_ : R -> bool) (data : R -> R) (rows : list R)
  : list R :=
  map (fun r => if where_ r then data r else r) rows.

(** [update]: as [updateMany] on a unique key, rejecting when no row has
    the key. *)
Definition update {R} (where_ : R -> bool) (data : R -> R) (rows : list R)
  : Completion unit * list R :=
  if existsb where_ rows
  then (Return tt, updateMany where_ data rows)
  else (Throw (Error "Record to update not found"), rows).

Definition setOrders (f : list Order -> list Order) (d : Db) : Db :=
  {| orders := f (orders d);
     orderStatusHistories := orderStatusHistories d;
     locations := locations d; menus := menus d; menuItems := menuItems d;
     auditLogs := auditLogs d; posWebhookEvents := posWebhookEvents d;
     posFailedRequests := posFailedRequests d |}.

Definition setOrderStatusHistories
           (f : list OrderStatusHistory -> list OrderStatusHistory) (d : Db) : Db :=
  {| orders := orders d;
     orderStatusHistories := f (orderStatusHistories d);
     locations := locations d; menus := menus d; menuItems := menuItems d;
     auditLogs := auditLogs d; posWebhookEvents := posWebhookEvents d;
     posFailedRequests := posFailedRequests d |}.

Definition setMenus (f : list Menu -> list Menu) (d : Db) : Db :=
  {| orders := orders d;
     orderStatusHistories := orderStatusHistories d;
     locations := locations d; menus := f (menus d); menuItems := menuItems d;
     auditLogs := auditLogs d; posWebhookEvents := posWebhookEvents d;
     posFailedRequests := posFailedRequests d |}.

Definition setMenuItems (f : list MenuItem -> list MenuItem) (d : Db) : Db :=
  {| orders := orders d;
     orderStatusHistories := orderStatusHistories d;
     locations := locations d; menus := menus d; menuItems := f (menuItems d);
     auditLogs := auditLogs d; posWebhookEvents := posWebhookEvents d;
     posFailedRequests := posFailedRequests d |}.

Definition setAuditLogs (f : list AuditLog -> list AuditLog) (d : Db) : Db :=
  {| orders := orders d;
     orderStatusHistories := orderStatusHistories d;
     locations := locations d; menus := menus d; menuItems := menuItems d;
     auditLogs := f (auditLogs d); posWebhookEvents := posWebhookEvents d;
     posFailedRequests := posFailedRequests d |}.

Definition setPosWebhookEvents
           (f : list POSWebhookEvent -> list POSWebhookEvent) (d : Db) : Db :=
  {| orders := orders d;
     orderStatusHistories := orderStatusHistories d;
     locations := locations d; menus := menus d; menuItems := menuItems d;
     auditLogs := auditLogs d; posWebhookEvents := f (posWebhookEvents d);
     posFailedRequests := posFailedRequests d |}.

Definition setPosFailedRequests
           (f : list POSFailedRequest -> list POSFailedRequest) (d : Db) : Db :=
  {| orders := orders d;
     orderStatusHistories := orderStatusHistories d;
     locations := locations d; menus := menus d; menuItems := menuItems d;
     auditLogs := auditLogs d; posWebhookEvents := posWebhookEvents d;
     posFailedRequests := f (posFailedRequests d) |}.

(** The state owned by the order and menu subsystems: what the spec calls
    domain state, as opposed to the audit and queue tables. *)
Definition domainState (d : Db)
  : list Order * list OrderStatusHistory * list Location * list Menu
    * list MenuItem :=
  (orders d, orderStatusHistories d, locations d, menus d, menuItems d).

Definition optEqb (o : option string) (s : string) : bool :=
  match o with Some x => (x =? s)%string | None => false end.

End Prisma.

Declare Scope prisma_scope.
Delimit Scope prisma_scope with prisma.
Notation "x <- m ;; k" := (Prisma.bind m (fun x => k))
  (at level 61, m at next level, right associativity) : prisma_scope.
Notation "m ;;; k" := (Prisma.bind m (fun _ => k))
  (at level 61, right associativity) : prisma_scope.

(** ** The webhook processor: [skytab.webhook.ts] *)
Module SkyTabWebhook.
Import Js Prisma.
Local Open Scope prisma_scope.

(** One entry of [SkyTabStockWebhookData.items]. *)
Record StockItem : Type := {
  itemGuid : string;
  stockIsAvailable : bool
}.

(** [payload.data]: the fields the handlers read from the object, whatever
    variant of [SkyTabWebhookData] it was sent as. *)
Record SkyTabWebhookData : Type := {
  ticketGuid : string;
  externalReference : string;
  status : string;
  estimatedReadyTime : option string;
  cancellationReason : option string;
  changedItems : option (list string);
  items : list StockItem
}.

(** [SkyTabWebhookPayload] *)
Record SkyTabWebhookPayload : Type := {
  eventType : string;
  eventId : string;
  timestamp : string;
  locationGuid : string;
  data : SkyTabWebhookData;
  signature : string
}.

(** What [processWebhook] resolves to. *)
Record ProcessResult : Type := {
  success : bool;
  message : string
}.

(** [config.SKYTAB_WEBHOOK_SECRET] and the two primitives of Node's
    [crypto] the handler calls. *)
Record Crypto : Type := {
  SKYTAB_WEBHOOK_SECRET : option string;
  (* createHmac('sha256', secret).update(payload).digest('hex') *)
  hmacSha256Hex : string -> string -> string;
  (* crypto.timingSafeEqual *)
  timingSafeEqual : list Byte.byte -> list Byte.byte -> Completion bool
}.

Definition hexDigit (c : ascii) : option N :=
  let n := N_of_ascii c in
  if ((48 <=? n) && (n <=? 57))%N then Some (n - 48)%N
  else if ((97 <=? n) && (n <=? 102))%N then Some (n - 87)%N
  else if ((65 <=? n) && (n <=? 70))%N then Some (n - 55)%N
  else None.

(** [Buffer.from(s, 'hex')]: two digits per byte, the data is cut at the
    first pair that is not hexadecimal, a trailing single character is
    dropped. *)
Fixpoint bufferFromHex (s : string) : list Byte.byte :=
  match s with
  | String a (String b rest) =>
      match hexDigit a, hexDigit b with
      | Some hi, Some lo =>
          match Byte.of_N (16 * hi + lo) with
          | Some byte => byte :: bufferFromHex rest
          | None => []
          end
      | _, _ => []
      end
  | _ => []
  end.

(** Node's [crypto.timingSafeEqual]: a [RangeError] on buffers of
    different lengths, the comparison of the bytes otherwise. *)
Fixpoint bytesEqb (a b : list Byte.byte) : bool :=
  match a, b with
  | [], [] => true
  | x :: a', y :: b' => Byte.eqb x y && bytesEqb a' b'
  | _, _ => false
  end.

Definition nodeTimingSafeEqual (a b : list Byte.byte) : Completion bool :=
  if Nat.eqb (List.length a) (List.length b)
  then Return (bytesEqb a b)
  else Throw (Error "Input buffers must have the same byte length").

(** [mapSkyTabStatusToOrderStatus] *)
Definition mapSkyTabStatusToOrderStatus (status : string) : string :=
  if (status =? "PENDING")%string then "pending"
  else if (status =? "CONFIRMED")%string then "confirmed"
  else if (status =? "PREPARING")%string then "preparing"
  else if (status =? "READY")%string then "ready"
  else if (status =? "OUT_FOR_DELIVERY")%string then "out-for-delivery"
  else if (status =? "COMPLETED")%string then "completed"
  else if (status =? "CANCELLED")%string then "cancelled"
  else "pending".

(** The order statuses of the local enum the webhook path writes. *)
Definition localOrderStatuses : list string :=
  ["pending"; "confirmed"; "preparing"; "ready"; "out-for-delivery";
   "completed"; "cancelled"].

(** [verifySignature] *)
Definition verifySignature (crypto : Crypto) (payload signature : string) : bool :=
  let webhookSecret := SKYTAB_WEBHOOK_SECRET crypto in
  if negb (truthyOpt webhookSecret) then true
  else
    let expectedSignature :=
      hmacSha256Hex crypto
        (match webhookSecret with Some s => s | None => "" end) payload in
    let signatureBuffer := bufferFromHex signature in
    let expectedBuffer := bufferFromHex expectedSignature in
    if negb (Nat.eqb (List.length signatureBuffer) (List.length expectedBuffer))
    then false
    else
      match timingSafeEqual crypto signatureBuffer expectedBuffer with
      | Return b => b
      | Throw _ => false
      end.

(** The [where] clause [{ OR: [{ posOrderId: ticketGuid }, { id:
    externalReference }] }]. *)
Definition orderOfTicket (d : SkyTabWebhookData) (o : Order) : bool :=
  optEqb (posOrderId o) (ticketGuid d)
  || (orderId o =? externalReference d)%string.

(** [handleTicketEvent] *)
Definition handleTicketEvent (eventType : string) (d : SkyTabWebhookData)
  : M unit :=
  order <- prisma (fun t => (Return (findFirst (orderOfTicket d) (orders t)), t)) ;;
  match order with
  | None => ret tt
  | Some order =>
      let newStatus := mapSkyTabStatusToOrderStatus (status d) in
      now <- getClock ;;
      prisma (fun t =>
        let (c, rows) :=
          update (fun o => (orderId o =? orderId order)%string)
                 (fun o =>
                    {| orderId := orderId o;
                       orderLocationId := orderLocationId o;
                       orderStatus := newStatus;
                       posOrderId := Some (ticketGuid d);
                       posSyncStatus := "synced";
                       posSyncedAt := Some now;
                       posErrorMessage := posErrorMessage o;
                       estimatedReadyAt :=
                         if truthyOpt (estimatedReadyTime d)
                         then estimatedReadyTime d else estimatedReadyAt o;
                       cancelledAt := cancelledAt o |})
                 (orders t) in
        (c, setOrders (fun _ => rows) t)) ;;;
      prisma (fun t =>
        (Return tt,
         setOrderStatusHistories
           (fun h => h ++ [{| historyOrderId := orderId order;
                              historyStatus := newStatus;
                              historyNote :=
                                "Status updated from SkyTab POS: " ++ status d;
                              historyChangedBy := "system" |}]) t))
  end.

(** [handleTicketCancelled] *)
Definition handleTicketCancelled (d : SkyTabWebhookData) : M unit :=
  order <- prisma (fun t => (Return (findFirst (orderOfTicket d) (orders t)), t)) ;;
  match order with
  | None => ret tt
  | Some order =>
      now <- getClock ;;
      prisma (fun t =>
        let (c, rows) :=
          update (fun o => (orderId o =? orderId order)%string)
                 (fun o =>
                    {| orderId := orderId o;
                       orderLocationId := orderLocationId o;
                       orderStatus := "cancelled";
                       posOrderId := posOrderId o;
                       posSyncStatus := "synced";
                       posSyncedAt := posSyncedAt o;
                       posErrorMessage := posErrorMessage o;
                       estimatedReadyAt := estimatedReadyAt o;
                       cancelledAt := Some now |})
                 (orders t) in
        (c, setOrders (fun _ => rows) t)) ;;;
      prisma (fun t =>
        (Return tt,
         setOrderStatusHistories
           (fun h => h ++ [{| historyOrderId := orderId order;
                              historyStatus := "cancelled";
                              historyNote :=
                                "Cancelled from SkyTab POS"
                                ++ (if truthyOpt (cancellationReason d)
                                    then ": " ++ match cancellationReason d with
                                                 | Some r => r | None => "" end
                                    else "");
                              historyChangedBy := "system" |}]) t))
  end.

(** [handleMenuEvent] *)
Definition handleMenuEvent (eventType : string) (d : SkyTabWebhookData)
           (locationGuid : string) : M unit :=
  location <- prisma (fun t =>
    (Return (findFirst (fun l => optEqb (posLocationId l) locationGuid)
                       (locations t)), t)) ;;
  match location with
  | None => ret tt
  | Some location =>
      prisma (fun t =>
        (Return tt,
         setMenus
           (updateMany (fun m => (menuLocationId m =? locationId location)%string)
                       (fun m => {| menuLocationId := menuLocationId m;
                                    lastSyncAt := None |})) t)) ;;;
      match changedItems d with
      | Some (first :: others) =>
          now <- getClock ;;
          prisma (fun t =>
            (Return tt,
             setMenuItems
               (updateMany
                  (fun i => existsb (optEqb (posItemId i)) (first :: others))
                  (fun i => {| menuItemId := menuItemId i;
                               posItemId := posItemId i;
                               isAvailable := isAvailable i;
                               is86ed := is86ed i;
                               updatedAt := now |})) t))
      | _ => ret tt
      end
  end.

(** The body of the [for (const item of data.items)] loop of
    [handleStockEvent], with its own [try]/[catch]. *)
Definition handleStockItem (item : StockItem) : M unit :=
  tryCatch
    (menuItem <- prisma (fun t =>
       (Return (findFirst (fun i => optEqb (posItemId i) (itemGuid item))
                          (menuItems t)), t)) ;;
     match menuItem with
     | None => ret tt
     | Some menuItem =>
         prisma (fun t =>
           let (c, rows) :=
             update (fun i => (menuItemId i =? menuItemId menuItem)%string)
                    (fun i => {| menuItemId := menuItemId i;
                                 posItemId := posItemId i;
                                 isAvailable := stockIsAvailable item;
                                 is86ed := negb (stockIsAvailable item);
                                 updatedAt := updatedAt i |})
                    (menuItems t) in
           (c, setMenuItems (fun _ => rows) t))
     end)
    (fun _ => ret tt).

(** [handleStockEvent] *)
Fixpoint handleStockItems (items : list StockItem) : M unit :=
  match items with
  | [] => ret tt
  | item :: rest => handleStockItem item ;;; handleStockItems rest
  end.

Definition handleStockEvent (d : SkyTabWebhookData) (locationGuid : string)
  : M unit :=
  handleStockItems (items d).

(** [handleLocationEvent] *)
Definition handleLocationEvent (locationGuid : string) : M unit :=
  location <- prisma (fun t =>
    (Return (findFirst (fun l => optEqb (posLocationId l) locationGuid)
                       (locations t)), t)) ;;
  match location with
  | None => ret tt
  | Some location =>
      now <- getClock ;;
      prisma (fun t =>
        (Return tt,
         setAuditLogs
           (fun a => a ++ [{| action := "SKYTAB_HOURS_CHANGED";
                              entityType := "location";
                              entityId := locationId location;
                              changes := [("locationGuid", locationGuid);
                                          ("timestamp", numberToString now)] |}])
           t))
  end.

(** The [where] clause of [checkDuplicateEvent]. *)
Definition isWebhookRecord (eventId : string) (a : AuditLog) : bool :=
  (action a =? "SKYTAB_WEBHOOK")%string && (entityId a =? eventId)%string.

(** The audit log holds a [SKYTAB_WEBHOOK] entry for the event. *)
Definition recorded (eventId : string) (d : Db) : bool :=
  existsb (isWebhookRecord eventId) (auditLogs d).

(** The audit log holds a [SKYTAB_WEBHOOK] entry for the event whose
    [changes.status] is [status]. *)
Definition recordedAs (status eventId : string) (d : Db) : bool :=
  existsb (fun a =>
             isWebhookRecord eventId a
             && existsb (fun kv => (fst kv =? "status")%string
                                   && (snd kv =? status)%string)
                        (changes a))
          (auditLogs d).

(** [checkDuplicateEvent] *)
Definition checkDuplicateEvent (eventId : string) : M bool :=
  existing <- prisma (fun t =>
    (Return (findFirst (isWebhookRecord eventId) (auditLogs t)), t)) ;;
  ret (match existing with Some _ => true | None => false end).

(** [recordWebhookEvent] *)
Definition recordWebhookEvent (eventId eventType locationGuid status : string)
           (errorMessage : option string) : M unit :=
  tryCatch
    (now <- getClock ;;
     prisma (fun t =>
       (Return tt,
        setAuditLogs
          (fun a => a ++ [{| action := "SKYTAB_WEBHOOK";
                             entityType := "webhook";
                             entityId := eventId;
                             changes :=
                               [("eventType", eventType);
                                ("locationGuid", locationGuid);
                                ("status", status)]
                               ++ match errorMessage with
                                  | Some m => [("errorMessage", m)]
                                  | None => []
                                  end
                               ++ [("processedAt", numberToString now)] |}])
          t)))
    (fun _ => ret tt).

(** The [switch (eventType)] of [processWebhook]. *)
Definition routeEvent (p : SkyTabWebhookPayload) : M unit :=
  let t := eventType p in
  if (t =? "ticket.created")%string || (t =? "ticket.updated")%string
     || (t =? "ticket.status_changed")%string
  then handleTicketEvent t (data p)
  else if (t =? "ticket.cancelled")%string
  then handleTicketCancelled (data p)
  else if (t =? "menu.updated")%string
          || (t =? "menu.item_availability_changed")%string
  then handleMenuEvent t (data p) (locationGuid p)
  else if (t =? "stock.updated")%string
  then handleStockEvent (data p) (locationGuid p)
  else if (t =? "location.hours_changed")%string
  then handleLocationEvent (locationGuid p)
  else ret tt.

Definition alreadyProcessed : ProcessResult :=
  {| success := true; message := "Event already processed" |}.

(** [processWebhook] *)
Definition processWebhook (p : SkyTabWebhookPayload) : M ProcessResult :=
  tryCatch
    (existingEvent <- checkDuplicateEvent (eventId p) ;;
     if (existingEvent : bool) then ret alreadyProcessed
     else
       routeEvent p ;;;
       recordWebhookEvent (eventId p) (eventType p) (locationGuid p)
                          "processed" None ;;;
       ret {| success := true;
              message := "Event " ++ eventType p ++ " processed successfully" |})
    (fun error =>
       recordWebhookEvent (eventId p) (eventType p) (locationGuid p)
                          "failed" (Some (errorMessage error)) ;;;
       throw error).

End SkyTabWebhook.

(** ** The orchestration service: [pos.service.ts] *)
Module PosService.
Import Js Prisma.
Local Open Scope prisma_scope.

(** What [provider.sendOrder] resolves to. *)
Record SendOrderResult : Type := {
  sentPosOrderId : string;
  sentSuccess : bool
}.

Section Service.
(** [provider.sendOrder(posOrder)] of the provider registered under a
    name: the answer to the n-th call, for the order with the given
    [externalOrderId]. *)
Variable providerSendOrder :
  string -> nat -> string -> Completion SendOrderResult.

(** [getProvider]: the constructor registers [mock] and [skytab]. *)
Definition getProvider (systemType : string) : M string :=
  if (systemType =? "mock")%string || (systemType =? "skytab")%string
  then ret systemType
  else throw (Error ("POS provider not found: " ++ systemType)).

Definition callSendOrder (provider externalOrderId : string)
  : M SendOrderResult :=
  fun w =>
    (providerSendOrder provider (posCalls w) externalOrderId,
     {| db := db w; clock := clock w; posCalls := S (posCalls w);
        faults := faults w |}).

Definition updateOrder (id : string) (data : Order -> Order) : M unit :=
  prisma (fun t =>
    let (c, rows) := update (fun o => (orderId o =? id)%string) data (orders t) in
    (c, setOrders (fun _ => rows) t)).

(** [sendOrderToPOS] *)
Definition sendOrderToPOS (id : string) : M SendOrderResult :=
  found <- prisma (fun t =>
    (Return
       match findFirst (fun o => (orderId o =? id)%string) (orders t) with
       | Some order =>
           Some (order,
                 findFirst (fun l => (locationId l =? orderLocationId order)%string)
                           (locations t))
       | None => None
       end, t)) ;;
  match found with
  | None => throw (Error "Order or POS system not found")
  | Some (order, None) =>
      throw (TypeError "Cannot read properties of null (reading 'posSystemType')")
  | Some (order, Some location) =>
      if negb (truthyOpt (posSystemType location))
      then throw (Error "Order or POS system not found")
      else
        provider <- getProvider (match posSystemType location with
                                 | Some s => s | None => "" end) ;;
        tryCatch
          (result <- callSendOrder provider (orderId order) ;;
           now <- getClock ;;
           updateOrder id
             (fun o =>
                {| orderId := orderId o;
                   orderLocationId := orderLocationId o;
                   orderStatus := orderStatus o;
                   posOrderId := Some (sentPosOrderId result);
                   posSyncStatus :=
                     if sentSuccess result then "synced" else "failed";
                   posSyncedAt := Some now;
                   posErrorMessage := posErrorMessage o;
                   estimatedReadyAt := estimatedReadyAt o;
                   cancelledAt := cancelledAt o |}) ;;;
           ret result)
          (fun error =>
             updateOrder id
               (fun o =>
                  {| orderId := orderId o;
                     orderLocationId := orderLocationId o;
                     orderStatus := orderStatus o;
                     posOrderId := posOrderId o;
                     posSyncStatus := "failed";
                     posSyncedAt := posSyncedAt o;
                     posErrorMessage := Some (errorMessage error);
                     estimatedReadyAt := estimatedReadyAt o;
                     cancelledAt := cancelledAt o |}) ;;;
             throw error)
  end.
End Service.

End PosService.

(** ** The HTTP routes: [pos.routes.ts] *)
Module PosRoutes.
Import Js Prisma SkyTabWebhook PosService.
Local Open Scope prisma_scope.

(** One entry of the [results] array of the retry sweep. *)
Record RetryResult : Type := {
  resultId : string;
  resultSuccess : bool;
  resultError : option string
}.

(** The bodies the two routes send. *)
Inductive ReplyBody : Type :=
| WebhookAck (received : bool) (error : option string)
    (* { received: true } and { received: true, error: '...' } *)
| ErrorBody (code message : string)
    (* errorResponse: { success: false, error: { code, message } } *)
| RetryReport (message : string) (results : list RetryResult).
    (* successResponse: { success: true, data: { message, results } } *)

Record HttpReply : Type := {
  statusCode : Z;
  replyBody : ReplyBody
}.

(** [errorResponse(reply, code, message, statusCode)] *)
Definition errorResponse (code message : string) (statusCode : Z) : HttpReply :=
  {| statusCode := statusCode; replyBody := ErrorBody code message |}.

(** An inbound [POST /skytab/webhook]. *)
Record WebhookRequest : Type := {
  requestBody : SkyTabWebhookPayload;
  signatureHeader : option string        (* request.headers['x-skytab-signature'] *)
}.

Section Webhook.
Variable crypto : Crypto.
(** [JSON.stringify(request.body)] *)
Variable JSON_stringify : SkyTabWebhookPayload -> string.

(** Modelled from the spec: the Prisma schema is not part of the sources;
    the spec's data model states that [eventId] is unique in
    [WebhookEvent] (and the route addresses the row by [eventId] alone),
    so creating a second row with the same [eventId] rejects. *)
Definition createWebhookEvent (p : SkyTabWebhookPayload) : M unit :=
  prisma (fun t =>
    if existsb (fun e => (Prisma.eventId e =? SkyTabWebhook.eventId p)%string)
               (posWebhookEvents t)
    then (Throw (Error "Unique constraint failed on the fields: (`eventId`)"), t)
    else
      (Return tt,
       setPosWebhookEvents
         (fun es => es ++ [{| Prisma.eventId := SkyTabWebhook.eventId p;
                              Prisma.eventType := SkyTabWebhook.eventType p;
                              eventLocationGuid := locationGuid p;
                              eventStatus := "pending";
                              eventErrorMessage := None;
                              eventRetryCount := 0;
                              processedAt := None |}]) t)).

(** The handler of [POST /skytab/webhook]: the reply it sends and, when
    it got that far, the payload handed to [setImmediate] for
    processing after the reply. *)
Definition webhookRoute (request : WebhookRequest)
  : M (HttpReply * option SkyTabWebhookPayload) :=
  tryCatch
    (let rawBody := JSON_stringify (requestBody request) in
     let signature :=
       match signatureHeader request with Some s => s | None => "" end in
     if negb (verifySignature crypto rawBody signature)
     then ret (errorResponse "INVALID_SIGNATURE" "Invalid webhook signature" 401,
               None)
     else
       let payload := requestBody request in
       createWebhookEvent payload ;;;
       ret ({| statusCode := 200; replyBody := WebhookAck true None |},
            Some payload))
    (fun error =>
       ret ({| statusCode := 200;
               replyBody := WebhookAck true (Some "Processing failed") |},
            None)).

Definition updateWebhookEvent (id : string)
           (data : POSWebhookEvent -> POSWebhookEvent) : M unit :=
  prisma (fun t =>
    let (c, rows) :=
      update (fun e => (Prisma.eventId e =? id)%string) data (posWebhookEvents t) in
    (c, setPosWebhookEvents (fun _ => rows) t)).

(** The callback given to [setImmediate]. *)
Definition webhookBackground (payload : SkyTabWebhookPayload) : M unit :=
  tryCatch
    (processWebhook payload ;;;
     now <- getClock ;;
     updateWebhookEvent (SkyTabWebhook.eventId payload)
       (fun e => {| Prisma.eventId := Prisma.eventId e;
                    Prisma.eventType := Prisma.eventType e;
                    eventLocationGuid := eventLocationGuid e;
                    eventStatus := "processed";
                    eventErrorMessage := eventErrorMessage e;
                    eventRetryCount := eventRetryCount e;
                    processedAt := Some now |}))
    (fun error =>
       updateWebhookEvent (SkyTabWebhook.eventId payload)
         (fun e => {| Prisma.eventId := Prisma.eventId e;
                      Prisma.eventType := Prisma.eventType e;
                      eventLocationGuid := eventLocationGuid e;
                      eventStatus := "failed";
                      eventErrorMessage := Some (errorMessage error);
                      eventRetryCount := eventRetryCount e + 1;
                      processedAt := processedAt e |})).
End Webhook.

Section RetryFailed.
Variable providerSendOrder :
  string -> nat -> string -> Completion SendOrderResult.

(** The [where] clause of the sweep's [findMany]. *)
Definition selectable (now : Z) (r : POSFailedRequest) : bool :=
  ((requestStatus r =? "pending")%string || (requestStatus r =? "retrying")%string)
  && (retryCount r <? maxRetries r)
  && match nextRetryAt r with
     | None => true
     | Some t => t <=? now
     end.

(** [prisma.pOSFailedRequest.findMany({ where: ..., take: 10 })] *)
Definition findFailedRequests (now : Z) (rows : list POSFailedRequest)
  : list POSFailedRequest :=
  firstn 10 (filter (selectable now) rows).

Definition updateFailedRequest (id : string)
           (data : POSFailedRequest -> POSFailedRequest) : M unit :=
  prisma (fun t =>
    let (c, rows) :=
      update (fun r => (requestId r =? id)%string) data (posFailedRequests t) in
    (c, setPosFailedRequests (fun _ => rows) t)).

Definition setStatus (s : string) (completed : option Z) (r : POSFailedRequest)
  : POSFailedRequest :=
  {| requestId := requestId r;
     requestLocationId := requestLocationId r;
     requestType := requestType r;
     requestPayloadOrderId := requestPayloadOrderId r;
     retryCount := retryCount r;
     maxRetries := maxRetries r;
     nextRetryAt := nextRetryAt r;
     requestStatus := s;
     requestErrorMessage := requestErrorMessage r;
     completedAt := match completed with Some t => Some t | None => completedAt r end |}.

(** The [data] of the update in the [catch (retryError)] block; [request]
    is the row as the sweep read it, [r] the row being rewritten. *)
Definition recordFailure (request : POSFailedRequest) (retryAt : Z)
           (msg : string) (r : POSFailedRequest) : POSFailedRequest :=
  {| requestId := requestId r;
     requestLocationId := requestLocationId r;
     requestType := requestType r;
     requestPayloadOrderId := requestPayloadOrderId r;
     retryCount := retryCount r + 1;
     maxRetries := maxRetries r;
     nextRetryAt := Some retryAt;
     requestStatus :=
       if maxRetries request <=? retryCount request + 1
       then "abandoned" else "pending";
     requestErrorMessage := Some msg;
     completedAt := completedAt r |}.

(** The body of the [for (const request of failedRequests)] loop. *)
Definition retryOne (request : POSFailedRequest) : M RetryResult :=
  tryCatch
    (updateFailedRequest (requestId request) (setStatus "retrying" None) ;;;
     (if (requestType request =? "order_submit")%string
      then sendOrderToPOS providerSendOrder (requestPayloadOrderId request) ;;; ret tt
      else ret tt) ;;;
     now <- getClock ;;
     updateFailedRequest (requestId request) (setStatus "completed" (Some now)) ;;;
     ret {| resultId := requestId request; resultSuccess := true;
            resultError := None |})
    (fun retryError =>
       let nextRetryDelay :=
         Z.min (1000 * 2 ^ (retryCount request + 1)) (30 * 60 * 1000) in
       now <- getClock ;;
       updateFailedRequest (requestId request)
         (recordFailure request (now + nextRetryDelay) (errorMessage retryError)) ;;;
       ret {| resultId := requestId request; resultSuccess := false;
              resultError := Some (errorMessage retryError) |}).

Fixpoint retryAll (failedRequests : list POSFailedRequest)
  : M (list RetryResult) :=
  match failedRequests with
  | [] => ret []
  | request :: rest =>
      result <- retryOne request ;;
      results <- retryAll rest ;;
      ret (result :: results)
  end.

(** The handler of [POST /skytab/retry-failed]. *)
Definition retryFailedRoute : M HttpReply :=
  tryCatch
    (now <- getClock ;;
     failedRequests <- prisma (fun t =>
       (Return (findFailedRequests now (posFailedRequests t)), t)) ;;
     results <- retryAll failedRequests ;;
     ret {| statusCode := 200;
            replyBody :=
              RetryReport
                ("Processed " ++ numberToString (Z.of_nat (List.length results))
                 ++ " failed requests")
                results |})
    (fun error =>
       ret (errorResponse "POS_RETRY_ERROR"
                          (orDefault (errorMessage error)
                                     "Failed to retry failed requests")
                          500)).
End RetryFailed.

(** What code may do to a row of the queue: [keepsCounters f] leaves the
    key and both counters of every row alone; [bumpsOnly id f] may in
    addition add one to [retryCount] in rows whose key is [id]. *)
Definition keepsCounters (f : POSFailedRequest -> POSFailedRequest) : Prop :=
  forall r,
    requestId (f r) = requestId r /\ maxRetries (f r) = maxRetries r
    /\ retryCount (f r) = retryCount r.

(** The queue is the same in both worlds. *)
Definition sameQueue (w w' : World) : Prop :=
  posFailedRequests (db w') = posFailedRequests (db w).

Definition bumpsOnly (id : string) (f : POSFailedRequest -> POSFailedRequest)
  : Prop :=
  forall r,
    requestId (f r) = requestId r /\ maxRetries (f r) = maxRetries r
    /\ (retryCount (f r) = retryCount r
        \/ (requestId r = id /\ retryCount (f r) = retryCount r + 1)).

(** From [w] to [w'] the rows of the queue were rewritten without touching
    their keys and counters. *)
Definition queueKept (w w' : World) : Prop :=
  exists f, keepsCounters f
            /\ posFailedRequests (db w') = map f (posFailedRequests (db w)).

(** From [w] to [w'] the rows of the queue were rewritten, adding at most
    one to [retryCount], and that in rows with the key [id] only. *)
Definition queueBumped (id : string) (w w' : World) : Prop :=
  exists f, bumpsOnly id f
            /\ posFailedRequests (db w') = map f (posFailedRequests (db w)).

(** No row of the queue has been retried more often than it may be. *)
Definition withinBudget (rows : list POSFailedRequest) : Prop :=
  forall r, In r rows -> retryCount r <= maxRetries r.

End PosRoutes.

(** ** Observations on a client *)
Module ClientObservations.
Import Js SkyTabClient.

(** The number of recorded requests that are less than a window old. *)
Definition inWindow {T} (w : World T) : nat :=
  List.length
    (filter (fun timestamp => now w - timestamp <? RATE_LIMIT_WINDOW_MS)
            (requestQueue w)).

(** The waits of a run that are retry waits, with their lengths. *)
Definition retryWaits {T} (evs : list (Event T)) : list Z :=
  flat_map (fun e => match e with
                     | EvSleep RateLimitWait _ => []
                     | EvSleep _ ms => [ms]
                     | _ => []
                     end) evs.

(** An exception that [request] neither waits for nor gives up on: not a
    [TypeError] and not a [SkyTabApiError]. *)
Definition passedOver (e : JsError) : bool :=
  match e with
  | TypeError _ | SkyTabApiError _ _ _ _ => false
  | _ => true
  end.

(** What [lastError] holds after the [catch] block caught [e]. *)
Definition reported (timeout : Z) (e : JsError) : JsError :=
  if isAbortError e
  then SkyTabApiError ("Request timeout after " ++ numberToString timeout ++ "ms")
                      "TIMEOUT" 408 None
  else e.

(** The event a pass leaves behind when it ends in a wait. *)
Definition waitEvents {T} (wait : option (SleepSite * Z)) : list (Event T) :=
  match wait with
  | Some (site, ms) => [EvSleep site ms]
  | None => []
  end.

(** The world in which the next pass starts. *)
Definition afterWait {T} (wait : option (SleepSite * Z)) (w : World T) : World T :=
  match wait with
  | Some (site, ms) => sleep site ms w
  | None => w
  end.


(** A failed pass after which the loop waits for the backoff delay when a
    pass is left: a 5xx or 429 response, or a [TypeError] from [fetch]. *)
Definition retryable {T} (o : AttemptOutcome T) : bool :=
  match o with
  | Responded r => negb (ok r) && isRetryableError (status r) None
  | FetchFailed e | NotSent e => isTypeError e
  end.

(** A pass that threw something the [catch] block neither waits for nor
    rethrows. *)
Definition skipped {T} (o : AttemptOutcome T) : bool :=
  match o with
  | Responded _ => false
  | FetchFailed e | NotSent e => passedOver e
  end.

(** The error a failed pass leaves in [lastError] when it is the last. *)
Definition thrownFor {T} (timeout : Z) (o : AttemptOutcome T) : JsError :=
  match o with
  | Responded r => apiErrorOf r
  | FetchFailed e | NotSent e => reported timeout e
  end.

(** The backoff delays of [count] passes in a row, from pass [attempt] on. *)
Fixpoint backoffFrom (baseDelay attempt : Z) (count : nat) : list Z :=
  match count with
  | O => []
  | S count' =>
      getBackoffDelay attempt baseDelay :: backoffFrom baseDelay (attempt + 1) count'
  end.


(** What [request] throws once [remaining] passes are used up: the error
    left by the pass numbered [maxRetries], or, when no pass was made, the
    error it started with. *)
Definition exhausted {T} (timeout maxRetries : Z) (remaining : nat)
           (lastError : option JsError) (evs : list (Event T))
           (c : Completion T) : Prop :=
  (remaining = 0%nat
   /\ c = Throw (match lastError with
                 | Some e => e
                 | None => Error "Request failed after all retries"
                 end))
  \/ exists o, In (EvAttempt maxRetries o) evs
               /\ c = Throw (thrownFor timeout o).

End ClientObservations.

(** ** Observations on the database *)
Module DbObservations.
Import Js Prisma SkyTabWebhook.

(** From [w] to [w'] neither the clock nor the count of provider calls
    moved, and the tables are related by [Rd]. *)
Definition stepW (Rd : Db -> Db -> Prop) (w w' : World) : Prop :=
  clock w' = clock w /\ posCalls w' = posCalls w /\ Rd (db w) (db w').

(** Rows were added at the end of a table, none removed or rewritten. *)
Definition extended {R} (old new : list R) : Prop :=
  exists added, new = old ++ added.

(** What the webhook processor leaves alone: the failed-request queue,
    the webhook event table and the locations; no order, menu or menu
    item is created or deleted; the audit log and the status history are
    only added to. *)
Definition webhookFrame (d d' : Db) : Prop :=
  posFailedRequests d' = posFailedRequests d
  /\ posWebhookEvents d' = posWebhookEvents d
  /\ locations d' = locations d
  /\ map orderId (orders d') = map orderId (orders d)
  /\ map menuLocationId (menus d') = map menuLocationId (menus d)
  /\ map (fun i => (menuItemId i, posItemId i)) (menuItems d')
     = map (fun i => (menuItemId i, posItemId i)) (menuItems d)
  /\ extended (auditLogs d) (auditLogs d')
  /\ extended (orderStatusHistories d) (orderStatusHistories d').

(** Every order carries a status of the local enum, and every menu item
    is 86ed exactly when it is not available. *)
Definition wellFormed (d : Db) : Prop :=
  Forall (fun o => In (orderStatus o) localOrderStatuses) (orders d)
  /\ Forall (fun i => is86ed i = negb (isAvailable i)) (menuItems d).

Definition keepsWellFormed (d d' : Db) : Prop := wellFormed d -> wellFormed d'.

(** Both at once: what one delivery of a webhook may do to the tables. *)
Definition delivered (d d' : Db) : Prop :=
  webhookFrame d d' /\ keepsWellFormed d d'.

End DbObservations.

(** ** Observations on the orchestration service *)
Module ServiceObservations.
Import Js Prisma.

(** From [d] to [d'] nothing but the POS columns of the orders with the
    id [id] was written: the other tables are the same, and the orders are
    the old ones, in the same order, those with another id unchanged. *)
Definition rewritesOrder (id : string) (d d' : Db) : Prop :=
  orderStatusHistories d' = orderStatusHistories d
  /\ locations d' = locations d
  /\ menus d' = menus d
  /\ menuItems d' = menuItems d
  /\ auditLogs d' = auditLogs d
  /\ posWebhookEvents d' = posWebhookEvents d
  /\ posFailedRequests d' = posFailedRequests d
  /\ exists f,
      orders d' = map f (orders d)
      /\ forall o,
          orderId (f o) = orderId o
          /\ orderLocationId (f o) = orderLocationId o
          /\ orderStatus (f o) = orderStatus o
          /\ estimatedReadyAt (f o) = estimatedReadyAt o
          /\ cancelledAt (f o) = cancelledAt o
          /\ ((orderId o =? id)%string = false -> f o = o).

(** From [w] to [w'] the clock did not move, no provider call was undone,
    and the tables are related by [Rd]. *)
Definition callsW (Rd : Db -> Db -> Prop) (w w' : World) : Prop :=
  clock w' = clock w /\ (posCalls w <= posCalls w')%nat /\ Rd (db w) (db w').

End ServiceObservations.

(** ** Observations on the retry queue *)
Module QueueObservations.
Import Js Prisma PosRoutes.

(** No constraint on the tables. *)
Definition anyTables (d d' : Db) : Prop := True.

(** The [nextRetryDelay] of the sweep's [catch] block, for a row read
    with the given [retryCount]. *)
Definition nextRetryDelay (retryCount : Z) : Z :=
  Z.min (1000 * 2 ^ (retryCount + 1)) (30 * 60 * 1000).

End QueueObservations.

(** ** The other operations of the provider adapter: [skytab.provider.ts] *)
Module SkyTabProviderOps.
Import Js SkyTabClient SkyTabProvider.

(** [getLocationGuid]: [locationId || this.locationGuid], with
    [configured] for [this.locationGuid]. *)
Definition getLocationGuid (configured locationId : option string)
  : Completion string :=
  match orElse locationId configured with
  | Some guid =>
      if truthy guid then Return guid
      else Throw (Error "SkyTab location GUID not configured")
  | None => Throw (Error "SkyTab location GUID not configured")
  end.

(** [SkyTabTicketStatusResponse]: the fields of [result.ticket] read by
    [getOrderStatus]. *)
Record SkyTabTicketStatusResponse : Type := {
  ticketGuid : string;                    (* guid *)
  ticketStatus : string;                  (* status *)
  ticketEstimatedReadyTime : option string
}.

(** [POSOrderStatus] of [pos.interface.ts] *)
Record POSOrderStatus : Type := {
  orderId : string;
  status : POSOrderStatusValue;
  estimatedReadyTime : option string
}.

(** [SkyTabStockStatusItem] *)
Record SkyTabStockStatusItem : Type := {
  itemGuid : string;
  isAvailable : bool
}.

(** [SkyTabStockStatusResponse]: the field [result.items]. *)
Record SkyTabStockStatusResponse : Type := {
  items : list SkyTabStockStatusItem
}.

(** [SkyTabUpdateStockResponse]: the field [result.success]. *)
Record SkyTabUpdateStockResponse : Type := {
  stockUpdated : bool
}.

Section Menu.
(** The type of prices, which the adapter only copies. *)
Variable Num : Type.

(** [SkyTabMenuItem]: the fields read by the adapter. *)
Record SkyTabMenuItem : Type := {
  menuItemGuid : string;                  (* guid *)
  menuItemName : string;                  (* name *)
  menuItemDescription : option string;    (* description *)
  menuItemPrice : Num;                    (* price *)
  menuItemSku : option string;            (* sku *)
  categoryGuid : string;
  isActive : bool;
  menuItemIsAvailable : bool              (* isAvailable *)
}.

(** [SkyTabModifier] *)
Record SkyTabModifier : Type := {
  modifierGuid : string;                  (* guid *)
  modifierName : string;                  (* name *)
  modifierPrice : Num;                    (* price *)
  modifierIsAvailable : bool;             (* isAvailable *)
  groupGuid : string
}.

(** [SkyTabModifierGroup]: the field [modifiers]. *)
Record SkyTabModifierGroup : Type := {
  modifiers : list SkyTabModifier
}.

(** [SkyTabMenuResponse]: the fields [items] and [modifierGroups] of
    [result.menu]. *)
Record SkyTabMenuResponse : Type := {
  menuItems : list SkyTabMenuItem;
  modifierGroups : list SkyTabModifierGroup
}.

(** [POSMenuItem] and [POSModifier] of [pos.interface.ts] *)
Record POSMenuItem : Type := {
  posItemId : string;                     (* id *)
  posItemName : string;                   (* name *)
  posItemDescription : option string;     (* description *)
  posItemPrice : Num;                     (* price *)
  categoryId : string;
  sku : option string;
  posItemIsAvailable : bool               (* isAvailable *)
}.

Record POSModifier : Type := {
  posModifierId : string;                 (* id *)
  posModifierName : string;               (* name *)
  posModifierPrice : Num;                 (* price *)
  groupId : string;
  posModifierIsAvailable : bool           (* isAvailable *)
}.

(** [mapSkyTabItemToPOSMenuItem] *)
Definition mapSkyTabItemToPOSMenuItem (item : SkyTabMenuItem) : POSMenuItem :=
  {| posItemId := menuItemGuid item;
     posItemName := menuItemName item;
     posItemDescription := menuItemDescription item;
     posItemPrice := menuItemPrice item;
     categoryId := categoryGuid item;
     sku := menuItemSku item;
     posItemIsAvailable := isActive item && menuItemIsAvailable item |}.

(** [mapSkyTabModifierToPOSModifier] *)
Definition mapSkyTabModifierToPOSModifier (modifier : SkyTabModifier)
  : POSModifier :=
  {| posModifierId := modifierGuid modifier;
     posModifierName := modifierName modifier;
     posModifierPrice := modifierPrice modifier;
     groupId := groupGuid modifier;
     posModifierIsAvailable := modifierIsAvailable modifier |}.

End Menu.
Arguments menuItemGuid {Num}.
Arguments menuItems {Num}.
Arguments modifierGroups {Num}.
Arguments modifiers {Num}.
Arguments mapSkyTabItemToPOSMenuItem {Num}.
Arguments mapSkyTabModifierToPOSModifier {Num}.

(** [logMenuSync]: the audit entry, inside its own [try]. *)
Definition logMenuSync (locationGuid syncType : string)
           (itemCount modifierCount : nat) : Prisma.M unit :=
  Prisma.tryCatch
    (Prisma.bind Prisma.getClock (fun now =>
       Prisma.prisma (fun t =>
         (Return tt,
          Prisma.setAuditLogs
            (fun a => a ++ [{| Prisma.action := "SKYTAB_MENU_SYNC";
                               Prisma.entityType := "menu";
                               Prisma.entityId := locationGuid;
                               Prisma.changes :=
                                 [("syncType", syncType);
                                  ("itemCount",
                                   numberToString (Z.of_nat itemCount));
                                  ("modifierCount",
                                   numberToString (Z.of_nat modifierCount));
                                  ("timestamp", numberToString now)] |}])
            t))))
    (fun _ => Prisma.ret tt).

Section Ops.
Variable config : Config.
Variable authNet : nat -> AuthOutcome.
(** [this.locationGuid], set from [config.SKYTAB_LOCATION_ID || null]. *)
Variable locationGuid : option string.

(** [authenticate]; [testConnection] does not throw. *)
Definition authenticate {T} (w : World T) : bool * World T :=
  testConnection config authNet w.

(** [getOrderStatus] *)
Definition getOrderStatus
           (apiNet : nat -> HttpRequest -> ApiOutcome SkyTabTicketStatusResponse)
           (posOrderId : string) (w : World SkyTabTicketStatusResponse)
  : Completion POSOrderStatus * World SkyTabTicketStatusResponse :=
  match get config authNet apiNet
            ("/api/rest/v1/pos/tickets/" ++ posOrderId ++ "/status")
            noOptions w with
  | (Return ticket, w') =>
      (Return {| orderId := ticketGuid ticket;
                 status := mapSkyTabStatusToLocal (ticketStatus ticket);
                 estimatedReadyTime :=
                   if truthyOpt (ticketEstimatedReadyTime ticket)
                   then ticketEstimatedReadyTime ticket else None |}, w')
  | (Throw error, w') => (Throw (handleApiError error "ORDER_STATUS_FAILED"), w')
  end.

(** [updateItemAvailability] *)
Definition updateItemAvailability
           (apiNet : nat -> HttpRequest -> ApiOutcome SkyTabUpdateStockResponse)
           (itemId : string) (available : bool)
           (w : World SkyTabUpdateStockResponse)
  : Completion bool * World SkyTabUpdateStockResponse :=
  match getLocationGuid locationGuid None with
  | Throw e => (Throw e, w)
  | Return guid =>
      match put config authNet apiNet
                ("/api/rest/v1/pos/locations/" ++ guid ++ "/stock")
                (Some [("itemGuid", itemId);
                       ("isAvailable", if available then "true" else "false")])
                noOptions w with
      | (Return response, w') => (Return (stockUpdated response), w')
      | (Throw error, w') =>
          (Throw (handleApiError error "STOCK_UPDATE_FAILED"), w')
      end
  end.

(** [getUnavailableItems] *)
Definition getUnavailableItems
           (apiNet : nat -> HttpRequest -> ApiOutcome SkyTabStockStatusResponse)
           (locationId : string) (w : World SkyTabStockStatusResponse)
  : Completion (list string) * World SkyTabStockStatusResponse :=
  match getLocationGuid locationGuid (Some locationId) with
  | Throw e => (Throw e, w)
  | Return guid =>
      match get config authNet apiNet
                ("/api/rest/v1/pos/locations/" ++ guid ++ "/stock")
                noOptions w with
      | (Return response, w') =>
          (Return (map itemGuid
                       (filter (fun item => negb (isAvailable item))
                               (items response))), w')
      | (Throw error, w') =>
          (Throw (handleApiError error "STOCK_STATUS_FAILED"), w')
      end
  end.

(** [syncFullMenu]: the client and the database it writes its audit entry
    to are separate parts of the state. *)
Definition syncFullMenu {Num}
           (apiNet : nat -> HttpRequest -> ApiOutcome (SkyTabMenuResponse Num))
           (locationId : string) (w : World (SkyTabMenuResponse Num))
           (pw : Prisma.World)
  : Completion (list (POSMenuItem Num) * list (POSModifier Num))
    * World (SkyTabMenuResponse Num) * Prisma.World :=
  match getLocationGuid locationGuid (Some locationId) with
  | Throw e => (Throw e, w, pw)
  | Return guid =>
      match get config authNet apiNet
                ("/api/rest/v1/pos/locations/" ++ guid ++ "/menu")
                noOptions w with
      | (Return menu, w') =>
          let posItems := map mapSkyTabItemToPOSMenuItem (menuItems menu) in
          let posModifiers :=
            flat_map (fun group => map mapSkyTabModifierToPOSModifier
                                       (modifiers group))
                     (modifierGroups menu) in
          match logMenuSync guid "full" (List.length posItems)
                            (List.length posModifiers) pw with
          | (Return _, pw') => (Return (posItems, posModifiers), w', pw')
          | (Throw error, pw') =>
              (Throw (handleApiError error "MENU_SYNC_FAILED"), w', pw')
          end
      | (Throw error, w') =>
          (Throw (handleApiError error "MENU_SYNC_FAILED"), w', pw)
      end
  end.

End Ops.

(** The error is a [SkyTabApiError]. *)
Definition isApiError (e : JsError) : bool :=
  match e with SkyTabApiError _ _ _ _ => true | _ => false end.

End SkyTabProviderOps.

(** ** The send-order endpoint: [pos.routes.ts] *)
Module SendOrderRoute.
Import Js Prisma PosService PosRoutes.
Local Open Scope prisma_scope.

(** The bodies [POST /skytab/send-order] sends. *)
Inductive SendOrderBody : Type :=
| OrderSent (message posOrderId : string) (success : bool)
    (* successResponse: { success: true, data: { message, posOrderId, success } } *)
| OrderError (code message : string).
    (* errorResponse: { success: false, error: { code, message } } *)

Record SendOrderReply : Type := {
  sendStatusCode : Z;
  sendBody : SendOrderBody
}.

(** [error.code === 'SERVICE_UNAVAILABLE' || error.statusCode >= 500]: of
    the errors of the model only [SkyTabApiError] has the two fields, and
    [undefined >= 500] is false. *)
Definition shouldQueue (error : JsError) : bool :=
  match error with
  | SkyTabApiError _ code statusCode _ =>
      (code =? "SERVICE_UNAVAILABLE")%string || (500 <=? statusCode)
  | _ => false
  end.

Section SendOrder.
Variable providerSendOrder :
  string -> nat -> string -> Completion SendOrderResult.
(** The message of the [ZodError] that [sendOrderSchema.parse] throws for
    a body without a non-empty [orderId]. *)
Variable zodMessage : string.
(** The columns of a new [POSFailedRequest] that the code leaves to the
    schema, which is not part of the sources: the generated id and the
    defaults of [status], [retryCount] and [maxRetries]. *)
Variable newRequestId : list POSFailedRequest -> string.
Variable defaultStatus : string.
Variables defaultRetryCount defaultMaxRetries : Z.

(** The row [queueFailedRequest] creates. *)
Definition queuedRequest (queue : list POSFailedRequest) (requestType : string)
           (locationId : option string) (payloadOrderId errorMessage : string)
           (now : Z) : POSFailedRequest :=
  {| requestId := newRequestId queue;
     requestLocationId := locationId;
     requestType := requestType;
     requestPayloadOrderId := payloadOrderId;
     retryCount := defaultRetryCount;
     maxRetries := defaultMaxRetries;
     nextRetryAt := Some (now + 60000);
     requestStatus := defaultStatus;
     requestErrorMessage := Some errorMessage;
     completedAt := None |}.

(** [queueFailedRequest] *)
Definition queueFailedRequest (requestType : string) (locationId : option string)
           (payloadOrderId errorMessage : string) : M unit :=
  tryCatch
    (now <- getClock ;;
     prisma (fun t =>
       (Return tt,
        setPosFailedRequests
          (fun queue => queue ++ [queuedRequest queue requestType locationId
                                                payloadOrderId errorMessage now])
          t)))
    (fun _ => ret tt).

(** The handler of [POST /skytab/send-order]; [orderId] is
    [request.body.orderId]. *)
Definition sendOrderRoute (orderId : option string) : M SendOrderReply :=
  tryCatch
    (match orderId with
     | Some id =>
         if truthy id
         then
           result <- sendOrderToPOS providerSendOrder id ;;
           ret {| sendStatusCode := 200;
                  sendBody := OrderSent "Order sent to POS successfully"
                                        (sentPosOrderId result)
                                        (sentSuccess result) |}
         else throw (Error zodMessage)
     | None => throw (Error zodMessage)
     end)
    (fun error =>
       (if shouldQueue error
        then queueFailedRequest "order_submit" orderId
                                (match orderId with Some id => id | None => "" end)
                                (errorMessage error)
        else ret tt) ;;;
       ret {| sendStatusCode := 500;
              sendBody := OrderError "POS_ORDER_ERROR"
                                     (orDefault (errorMessage error)
                                                "Failed to send order to POS") |}).

End SendOrder.

End SendOrderRoute.

(** ** Menu synchronisation in the orchestration service: [pos.service.ts] *)
Module PosServiceMenu.
Import Js Prisma PosService.
Local Open Scope prisma_scope.

(** What [syncMenu] resolves to. *)
Record SyncMenuResult : Type := {
  syncSuccess : bool;                     (* success *)
  itemCount : nat;
  modifierCount : nat
}.

Section Service.
(** [POSMenuItem] and [POSModifier], of which the service only counts. *)
Variables Item Modifier : Type.
(** [provider.syncFullMenu(locationId)] of the provider registered under a
    name: the answer to the n-th provider call. *)
Variable providerSyncFullMenu :
  string -> nat -> string -> Completion (list Item * list Modifier).

Definition callSyncFullMenu (provider locationId : string)
  : M (list Item * list Modifier) :=
  fun w =>
    (providerSyncFullMenu provider (posCalls w) locationId,
     {| db := db w; clock := clock w; posCalls := S (posCalls w);
        faults := faults w |}).

(** [syncMenu] *)
Definition syncMenu (id : string) : M SyncMenuResult :=
  location <- prisma (fun t =>
    (Return (findFirst (fun l => (locationId l =? id)%string) (locations t)), t)) ;;
  match location with
  | None => throw (Error "Location or POS system not configured")
  | Some location =>
      if negb (truthyOpt (posSystemType location))
      then throw (Error "Location or POS system not configured")
      else
        provider <- getProvider (match posSystemType location with
                                 | Some s => s | None => "" end) ;;
        tryCatch
          (synced <- callSyncFullMenu provider id ;;
           now <- getClock ;;
           prisma (fun t =>
             (Return tt,
              setMenus
                (updateMany (fun m => (menuLocationId m =? id)%string)
                            (fun m => {| menuLocationId := menuLocationId m;
                                         lastSyncAt := Some now |})) t)) ;;;
           ret {| syncSuccess := true;
                  itemCount := List.length (fst synced);
                  modifierCount := List.length (snd synced) |})
          (fun error => throw error)
  end.

End Service.
Arguments syncMenu {Item Modifier}.

End PosServiceMenu.

(** ** The mock provider: [mock-pos.provider.ts] *)
Module MockPOSProvider.
Import Js.

(** [POSOrderStatus], with the [Date] of [estimatedReadyTime] in ms. *)
Record POSOrderStatus : Type := {
  orderId : string;
  status : string;
  estimatedReadyTime : option Z
}.

(** A callback waiting in the timer queue: the time it is due and the
    entry it will [set] in [this.orders]. *)
Record Timer : Type := {
  due : Z;
  entry : POSOrderStatus
}.

(** The provider object and the part of the runtime it depends on: the
    clock ([Date.now()]) and the callbacks given to [setTimeout], kept in
    the order in which they will run. *)
Record Mock : Type := {
  now : Z;
  unavailableItems : list string;            (* a Set: in insertion order *)
  orders : list (string * POSOrderStatus);   (* a Map: in insertion order *)
  timers : list Timer
}.

(** [new MockPOSProvider()] at time [t]. *)
Definition newMock (t : Z) : Mock :=
  {| now := t; unavailableItems := []; orders := []; timers := [] |}.

(** [Set.prototype.add] and [Set.prototype.delete] *)
Definition setAdd (x : string) (s : list string) : list string :=
  if existsb (String.eqb x) s then s else s ++ [x].

Definition setDelete (x : string) (s : list string) : list string :=
  filter (fun y => negb (y =? x)%string) s.

(** [Map.prototype.set]: an existing key keeps its place. *)
Fixpoint mapSet (k : string) (v : POSOrderStatus)
         (m : list (string * POSOrderStatus)) : list (string * POSOrderStatus) :=
  match m with
  | [] => [(k, v)]
  | (k', v') :: rest =>
      if (k' =? k)%string then (k, v) :: rest else (k', v') :: mapSet k v rest
  end.

(** [Map.prototype.get] *)
Fixpoint mapGet (k : string) (m : list (string * POSOrderStatus))
  : option POSOrderStatus :=
  match m with
  | [] => None
  | (k', v') :: rest => if (k' =? k)%string then Some v' else mapGet k rest
  end.

(** [setTimeout(callback, delay)]: the callback runs after those that are
    due earlier or at the same time and were scheduled before it. *)
Fixpoint schedule (t : Timer) (queue : list Timer) : list Timer :=
  match queue with
  | [] => [t]
  | t' :: rest =>
      if due t' <=? due t then t' :: schedule t rest else t :: t' :: rest
  end.

(** Running callbacks, one after the other:
    [this.orders.set(posOrderId, { ... })]. *)
Definition run (callbacks : list Timer) (os : list (string * POSOrderStatus))
  : list (string * POSOrderStatus) :=
  fold_left (fun os timer => mapSet (orderId (entry timer)) (entry timer) os)
            callbacks os.

(** Time passes: the callbacks that have become due run, in their order. *)
Definition elapse (ms : Z) (m : Mock) : Mock :=
  let t := now m + ms in
  {| now := t;
     unavailableItems := unavailableItems m;
     orders := run (filter (fun timer => due timer <=? t) (timers m)) (orders m);
     timers := filter (fun timer => negb (due timer <=? t)) (timers m) |}.

(** [authenticate] *)
Definition authenticate (m : Mock) : bool * Mock := (true, m).

(** [sendOrder]; the order itself is only logged. *)
Definition sendOrder {POSOrder} (order : POSOrder) (m : Mock)
  : (string * bool) * Mock :=
  let posOrderId := ("POS-" ++ numberToString (now m))%string in
  ((posOrderId, true),
   {| now := now m;
      unavailableItems := unavailableItems m;
      orders :=
        mapSet posOrderId
               {| orderId := posOrderId; status := "confirmed";
                  estimatedReadyTime := Some (now m + 20 * 60 * 1000) |}
               (orders m);
      timers :=
        schedule {| due := now m + 10000;
                    entry := {| orderId := posOrderId; status := "ready";
                                estimatedReadyTime := None |} |}
          (schedule {| due := now m + 2000;
                       entry := {| orderId := posOrderId; status := "preparing";
                                   estimatedReadyTime := None |} |}
                    (timers m)) |}).

(** [getOrderStatus] *)
Definition getOrderStatus (posOrderId : string) (m : Mock) : POSOrderStatus :=
  match mapGet posOrderId (orders m) with
  | Some status => status
  | None => {| orderId := posOrderId; status := "pending";
               estimatedReadyTime := None |}
  end.

(** [cancelOrder] *)
Definition cancelOrder (posOrderId : string) (m : Mock) : bool * Mock :=
  (true,
   {| now := now m;
      unavailableItems := unavailableItems m;
      orders := mapSet posOrderId
                       {| orderId := posOrderId; status := "cancelled";
                          estimatedReadyTime := None |}
                       (orders m);
      timers := timers m |}).

(** [updateItemAvailability] *)
Definition updateItemAvailability (itemId : string) (isAvailable : bool)
           (m : Mock) : bool * Mock :=
  (true,
   {| now := now m;
      unavailableItems :=
        if isAvailable then setDelete itemId (unavailableItems m)
        else setAdd itemId (unavailableItems m);
      orders := orders m;
      timers := timers m |}).

(** [getUnavailableItems] *)
Definition getUnavailableItems (locationId : string) (m : Mock) : list string :=
  unavailableItems m.

(** No callback waiting in the queue concerns the order. *)
Definition noTimerFor (posOrderId : string) (m : Mock) : Prop :=
  Forall (fun timer => orderId (entry timer) <> posOrderId) (timers m).

End MockPOSProvider.

(** ** Sample environments

    Concrete configurations, vendors and databases on which the properties
    below are exercised. *)
Module Samples.
Import Js SkyTabClient.

Definition sampleConfig : Config :=
  {| SKYTAB_API_KEY := Some "test-api-key";
     SKYTAB_API_SECRET := Some "test-api-secret";
     SHIFT4_API_KEY := Some "test-shift4-key";
     SHIFT4_API_SECRET := Some "test-shift4-secret" |}.

Definition noCredentials : Config :=
  {| SKYTAB_API_KEY := None; SKYTAB_API_SECRET := None;
     SHIFT4_API_KEY := None; SHIFT4_API_SECRET := None |}.

(** A vendor whose credential exchange always succeeds. *)
Definition authAlwaysOk (n : nat) : AuthOutcome := AuthOk "test-token-123" 3600.

Definition errorResponseOf {T} (st : Z) (retryAfter : option string)
           (c m : string) (d : T) : Response T :=
  {| status := st; retryAfterHeader := retryAfter;
     errorData := Some {| code := c; message := m; details := None |};
     responseData := d |}.

Definition okResponse {T} (d : T) : Response T :=
  {| status := 200; retryAfterHeader := None; errorData := None;
     responseData := d |}.

(** A vendor that answers every API call with the same response. *)
Definition apiAlways {T} (r : Response T) (n : nat) (q : HttpRequest)
  : ApiOutcome T := ApiResponse r.

(** A vendor that answers the first API call with [r] and every later
    one with [200]. *)
Definition apiOnceThenOk {T} (r : Response T) (d : T) (n : nat) (q : HttpRequest)
  : ApiOutcome T :=
  match n with
  | O => ApiResponse r
  | S _ => ApiResponse (okResponse d)
  end.

Definition internalError : Response string :=
  errorResponseOf 500 None "INTERNAL_ERROR" "Server error" "".

Definition badRequest : Response string :=
  errorResponseOf 400 None "INVALID_REQUEST" "Bad request" "".

Definition rateLimited : Response string :=
  errorResponseOf 429 (Some "1") "RATE_LIMIT_EXCEEDED" "Too many requests" "".

Definition ticketNotFound : Response SkyTabProvider.SkyTabCancelTicketResponse :=
  errorResponseOf 404 None "TICKET_NOT_FOUND" "Ticket not found"
                  {| SkyTabProvider.success := false |}.

(** The database of the webhook tests: one pending order, one location
    with its menu and one menu item; nothing recorded yet. *)
Definition sampleDb : Prisma.Db :=
  {| Prisma.orders :=
       [{| Prisma.orderId := "order-123";
           Prisma.orderLocationId := "location-id-123";
           Prisma.orderStatus := "pending";
           Prisma.posOrderId := None;
           Prisma.posSyncStatus := "pending";
           Prisma.posSyncedAt := None;
           Prisma.posErrorMessage := None;
           Prisma.estimatedReadyAt := None;
           Prisma.cancelledAt := None |}];
     Prisma.orderStatusHistories := [];
     Prisma.locations :=
       [{| Prisma.locationId := "location-id-123";
           Prisma.posLocationId := Some "location-123";
           Prisma.posSystemType := Some "skytab" |}];
     Prisma.menus :=
       [{| Prisma.menuLocationId := "location-id-123";
           Prisma.lastSyncAt := Some 1000 |}];
     Prisma.menuItems :=
       [{| Prisma.menuItemId := "menu-item-id-1";
           Prisma.posItemId := Some "item-1";
           Prisma.isAvailable := true;
           Prisma.is86ed := false;
           Prisma.updatedAt := 1000 |}];
     Prisma.auditLogs := [];
     Prisma.posWebhookEvents := [];
     Prisma.posFailedRequests := [] |}.

(** That database at time [5000], failing as [faults] says. *)
Definition sampleWorld (faults : list bool) : Prisma.World :=
  {| Prisma.db := sampleDb; Prisma.clock := 5000; Prisma.posCalls := 0;
     Prisma.faults := faults |}.

(** A [ticket.status_changed] event moving the order to [PREPARING]. *)
Definition statusChanged : SkyTabWebhook.SkyTabWebhookPayload :=
  {| SkyTabWebhook.eventType := "ticket.status_changed";
     SkyTabWebhook.eventId := "event-123";
     SkyTabWebhook.timestamp := "2024-01-15T17:00:00Z";
     SkyTabWebhook.locationGuid := "location-123";
     SkyTabWebhook.data :=
       {| SkyTabWebhook.ticketGuid := "ticket-123";
          SkyTabWebhook.externalReference := "order-123";
          SkyTabWebhook.status := "PREPARING";
          SkyTabWebhook.estimatedReadyTime := None;
          SkyTabWebhook.cancellationReason := None;
          SkyTabWebhook.changedItems := None;
          SkyTabWebhook.items := [] |};
     SkyTabWebhook.signature := "" |}.

(** A stand-in for the HMAC: the same 32-byte digest for every input.  It
    fixes the length of the expected signature, which is all the requests
    below depend on. *)
Definition fixedDigest : string :=
  "00112233445566778899aabbccddeeff00112233445566778899aabbccddeeff".

Definition sampleCrypto : SkyTabWebhook.Crypto :=
  {| SkyTabWebhook.SKYTAB_WEBHOOK_SECRET := Some "test-webhook-secret";
     SkyTabWebhook.hmacSha256Hex := fun _ _ => fixedDigest;
     SkyTabWebhook.timingSafeEqual := SkyTabWebhook.nodeTimingSafeEqual |}.

(** A serializer standing for [JSON.stringify]: the requests below do not
    depend on the text it produces. *)
Definition sampleStringify (p : SkyTabWebhook.SkyTabWebhookPayload) : string :=
  SkyTabWebhook.eventId p.

(** The status update, signed with a signature of the wrong length. *)
Definition shortSignatureRequest : PosRoutes.WebhookRequest :=
  {| PosRoutes.requestBody := statusChanged;
     PosRoutes.signatureHeader := Some "abc123" |}.

(** A queue holding one order submission that has failed twice out of
    three, due for its next retry, and a provider that is still down. *)
Definition sampleQueueWorld : Prisma.World :=
  {| Prisma.db :=
       Prisma.setPosFailedRequests
         (fun _ =>
            [{| Prisma.requestId := "failed-request-1";
                Prisma.requestLocationId := Some "order-123";
                Prisma.requestType := "order_submit";
                Prisma.requestPayloadOrderId := "order-123";
                Prisma.retryCount := 2;
                Prisma.maxRetries := 3;
                Prisma.nextRetryAt := Some 1000;
                Prisma.requestStatus := "pending";
                Prisma.requestErrorMessage := Some "Server error";
                Prisma.completedAt := None |}])
         sampleDb;
     Prisma.clock := 5000; Prisma.posCalls := 0; Prisma.faults := [] |}.

Definition providerDown (provider : string) (n : nat) (externalOrderId : string)
  : Js.Completion PosService.SendOrderResult :=
  Js.Throw (Js.SkyTabApiError "Server error" "INTERNAL_ERROR" 500 None).

(** A client whose last 60 requests were sent at 1 ms, 2 ms, ..., 60 ms,
    seen at 100 ms. *)
Definition busyClient : World string :=
  {| now := 100; accessToken := None; tokenExpiry := None;
     requestQueue := map Z.of_nat (seq 1 60); trace := [] |}.

(** A vendor that never answers before the timeout fires. *)
Definition apiTimesOut {T} (n : nat) (q : HttpRequest) : ApiOutcome T :=
  ApiThrows AbortError.

(** A [stock.updated] event that 86es the item [item-1]. *)
Definition stockUpdated : SkyTabWebhook.SkyTabWebhookPayload :=
  {| SkyTabWebhook.eventType := "stock.updated";
     SkyTabWebhook.eventId := "event-456";
     SkyTabWebhook.timestamp := "2024-01-15T17:05:00Z";
     SkyTabWebhook.locationGuid := "location-123";
     SkyTabWebhook.data :=
       {| SkyTabWebhook.ticketGuid := "";
          SkyTabWebhook.externalReference := "";
          SkyTabWebhook.status := "";
          SkyTabWebhook.estimatedReadyTime := None;
          SkyTabWebhook.cancellationReason := None;
          SkyTabWebhook.changedItems := None;
          SkyTabWebhook.items :=
            [{| SkyTabWebhook.itemGuid := "item-1";
                SkyTabWebhook.stockIsAvailable := false |}] |};
     SkyTabWebhook.signature := "" |}.

(** The sample database after the webhook route has stored the status
    update as a pending event. *)
Definition storedEventWorld (faults : list bool) : Prisma.World :=
  {| Prisma.db :=
       Prisma.setPosWebhookEvents
         (fun _ =>
            [{| Prisma.eventId := "event-123";
                Prisma.eventType := "ticket.status_changed";
                Prisma.eventLocationGuid := "location-123";
                Prisma.eventStatus := "pending";
                Prisma.eventErrorMessage := None;
                Prisma.eventRetryCount := 0;
                Prisma.processedAt := None |}])
         sampleDb;
     Prisma.clock := 5000; Prisma.posCalls := 0; Prisma.faults := faults |}.

(** The row of [sampleQueueWorld]. *)
Definition dueRequest : Prisma.POSFailedRequest :=
  {| Prisma.requestId := "failed-request-1";
     Prisma.requestLocationId := Some "order-123";
     Prisma.requestType := "order_submit";
     Prisma.requestPayloadOrderId := "order-123";
     Prisma.retryCount := 2;
     Prisma.maxRetries := 3;
     Prisma.nextRetryAt := Some 1000;
     Prisma.requestStatus := "pending";
     Prisma.requestErrorMessage := Some "Server error";
     Prisma.completedAt := None |}.

(** A provider that accepts every order as ticket [ticket-123]. *)
Definition providerUp (provider : string) (n : nat) (externalOrderId : string)
  : Js.Completion PosService.SendOrderResult :=
  Js.Return {| PosService.sentPosOrderId := "ticket-123";
               PosService.sentSuccess := true |}.

(** A vendor reporting two stock items, the first one 86ed. *)
Definition stockReport : Response SkyTabProviderOps.SkyTabStockStatusResponse :=
  okResponse
    {| SkyTabProviderOps.items :=
         [{| SkyTabProviderOps.itemGuid := "item-1";
             SkyTabProviderOps.isAvailable := false |};
          {| SkyTabProviderOps.itemGuid := "item-2";
             SkyTabProviderOps.isAvailable := true |}] |}.

(** A menu of two items, one of them inactive, and one modifier group. *)
Definition menuReport : Response (SkyTabProviderOps.SkyTabMenuResponse Z) :=
  okResponse
    {| SkyTabProviderOps.menuItems :=
         [{| SkyTabProviderOps.menuItemGuid := "item-1";
             SkyTabProviderOps.menuItemName := "Margherita Pizza";
             SkyTabProviderOps.menuItemDescription := None;
             SkyTabProviderOps.menuItemPrice := 1299;
             SkyTabProviderOps.menuItemSku := Some "PIZZA-MARG";
             SkyTabProviderOps.categoryGuid := "cat-1";
             SkyTabProviderOps.isActive := true;
             SkyTabProviderOps.menuItemIsAvailable := true |};
          {| SkyTabProviderOps.menuItemGuid := "item-2";
             SkyTabProviderOps.menuItemName := "Pepperoni Pizza";
             SkyTabProviderOps.menuItemDescription := None;
             SkyTabProviderOps.menuItemPrice := 1499;
             SkyTabProviderOps.menuItemSku := None;
             SkyTabProviderOps.categoryGuid := "cat-1";
             SkyTabProviderOps.isActive := false;
             SkyTabProviderOps.menuItemIsAvailable := true |}];
       SkyTabProviderOps.modifierGroups :=
         [{| SkyTabProviderOps.modifiers :=
               [{| SkyTabProviderOps.modifierGuid := "mod-1";
                   SkyTabProviderOps.modifierName := "Extra Cheese";
                   SkyTabProviderOps.modifierPrice := 200;
                   SkyTabProviderOps.modifierIsAvailable := true;
                   SkyTabProviderOps.groupGuid := "group-1" |}] |}] |}.

(** Stand-ins for what the schema generates for a new queue row. *)
Definition sampleRequestId (queue : list Prisma.POSFailedRequest) : string :=
  "failed-request-" ++ Js.numberToString (Z.of_nat (S (List.length queue))).

(** A provider whose menu has two items and one modifier. *)
Definition menuProvider (provider : string) (n : nat) (locationId : string)
  : Js.Completion (list string * list string) :=
  Js.Return (["pos-item-1"; "pos-item-2"], ["pos-mod-1"]).

(** A [ticket.cancelled] event for the sample order, with a reason. *)
Definition ticketCancelled : SkyTabWebhook.SkyTabWebhookPayload :=
  {| SkyTabWebhook.eventType := "ticket.cancelled";
     SkyTabWebhook.eventId := "event-789";
     SkyTabWebhook.timestamp := "2024-01-15T17:10:00Z";
     SkyTabWebhook.locationGuid := "location-123";
     SkyTabWebhook.data :=
       {| SkyTabWebhook.ticketGuid := "ticket-123";
          SkyTabWebhook.externalReference := "order-123";
          SkyTabWebhook.status := "CANCELLED";
          SkyTabWebhook.estimatedReadyTime := None;
          SkyTabWebhook.cancellationReason := Some "Customer request";
          SkyTabWebhook.changedItems := None;
          SkyTabWebhook.items := [] |};
     SkyTabWebhook.signature := "" |}.

(** A [menu.updated] event naming [item-1] as changed. *)
Definition menuUpdated : SkyTabWebhook.SkyTabWebhookPayload :=
  {| SkyTabWebhook.eventType := "menu.updated";
     SkyTabWebhook.eventId := "event-790";
     SkyTabWebhook.timestamp := "2024-01-15T17:15:00Z";
     SkyTabWebhook.locationGuid := "location-123";
     SkyTabWebhook.data :=
       {| SkyTabWebhook.ticketGuid := "";
          SkyTabWebhook.externalReference := "";
          SkyTabWebhook.status := "";
          SkyTabWebhook.estimatedReadyTime := None;
          SkyTabWebhook.cancellationReason := None;
          SkyTabWebhook.changedItems := Some ["item-1"];
          SkyTabWebhook.items := [] |};
     SkyTabWebhook.signature := "" |}.

End Samples.

(* ================================================================== *)
(** * Part II: properties *)
(* ================================================================== *)

(** ** Status mapping *)
Module StatusMappingSpec.
Import Js SkyTabProvider SkyTabWebhook.

Lemma not_in_ticket_statuses (s : string) :
  ~ In s SkyTabTicketStatus ->
  (s =? "PENDING")%string = false /\ (s =? "CONFIRMED")%string = false
  /\ (s =? "PREPARING")%string = false /\ (s =? "READY")%string = false
  /\ (s =? "OUT_FOR_DELIVERY")%string = false
  /\ (s =? "COMPLETED")%string = false /\ (s =? "CANCELLED")%string = false.
Proof.
  intros H. unfold SkyTabTicketStatus in H. simpl in H.
  repeat split; apply String.eqb_neq; intros ->; apply H; tauto.
Qed.

(** C9: both vendor-to-neutral status mappings are total; each of the seven
    vendor ticket statuses maps to the neutral status of the table, every
    other string maps to [pending], and the result of the webhook mapping is
    always one of the local order statuses (the adapter's result is a value
    of the six-constructor enum by its type). *)
Theorem status_mappings_total :
  map mapSkyTabStatusToLocal SkyTabTicketStatus
  = [pending; confirmed; preparing; ready; ready; completed; cancelled]
  /\ map mapSkyTabStatusToOrderStatus SkyTabTicketStatus
     = ["pending"; "confirmed"; "preparing"; "ready"; "out-for-delivery";
        "completed"; "cancelled"]
  /\ (forall s, ~ In s SkyTabTicketStatus ->
                mapSkyTabStatusToLocal s = pending
                /\ mapSkyTabStatusToOrderStatus s = "pending")
  /\ (forall s, In (mapSkyTabStatusToOrderStatus s) localOrderStatuses).
Proof.
  split; [reflexivity|]. split; [reflexivity|]. split.
  - intros s H.
    destruct (not_in_ticket_statuses s H) as (E1 & E2 & E3 & E4 & E5 & E6 & E7).
    unfold mapSkyTabStatusToLocal, mapSkyTabStatusToOrderStatus.
    rewrite E1, E2, E3, E4, E5, E6, E7. split; reflexivity.
  - intros s. unfold mapSkyTabStatusToOrderStatus, localOrderStatuses.
    repeat match goal with
           | |- context [if ?b then _ else _] => destruct b
           end; simpl; tauto.
Qed.

(** An unrecognized vendor status, on both paths. *)
Lemma status_mappings_total_witness :
  mapSkyTabStatusToLocal "REFUNDED" = pending
  /\ mapSkyTabStatusToOrderStatus "REFUNDED" = "pending".
Proof.
  apply (proj1 (proj2 (proj2 status_mappings_total)) "REFUNDED").
  unfold SkyTabTicketStatus. simpl.
  intros H; repeat (destruct H as [H | H]; [discriminate H|]); exact H.
Defined.

End StatusMappingSpec.

(** ** The HTTP client *)
Module ClientSpec.
Import Js SkyTabClient.

Section Traces.
Context {T : Type}.
Implicit Types (w : World T) (evs : list (Event T)).

Lemma attempts_app evs1 evs2 :
  attempts (evs1 ++ evs2) = (attempts evs1 + attempts evs2)%nat.
Proof. unfold attempts. now rewrite filter_app, length_app. Qed.

Lemma apiCalls_app evs1 evs2 :
  apiCalls (evs1 ++ evs2) = (apiCalls evs1 + apiCalls evs2)%nat.
Proof. unfold apiCalls. now rewrite filter_app, length_app. Qed.

Lemma retrySleeps_app evs1 evs2 :
  retrySleeps (evs1 ++ evs2) = (retrySleeps evs1 + retrySleeps evs2)%nat.
Proof. unfold retrySleeps. now rewrite filter_app, length_app. Qed.

Lemma tokenExchanges_app evs1 evs2 :
  tokenExchanges (evs1 ++ evs2) = (tokenExchanges evs1 + tokenExchanges evs2)%nat.
Proof. unfold tokenExchanges. now rewrite filter_app, length_app. Qed.

Lemma eventsSince_app w w' evs :
  trace w' = trace w ++ evs -> eventsSince w w' = evs.
Proof.
  intros E. unfold eventsSince. rewrite E, skipn_app, skipn_all, Nat.sub_diag.
  reflexivity.
Qed.

(** Events that are neither a pass of the retry loop nor a retry wait:
    rate-limit waits and credential exchanges. *)
Lemma checkRateLimit_trace w :
  exists evs,
    trace (checkRateLimit w) = trace w ++ evs
    /\ attempts evs = 0%nat /\ apiCalls evs = 0%nat /\ retrySleeps evs = 0%nat
    /\ tokenExchanges evs = 0%nat.
Proof.
  unfold checkRateLimit. simpl.
  destruct (RATE_LIMIT_REQUESTS_PER_MINUTE <=? _).
  - destruct (filter _ (requestQueue w)) as [|oldest q].
    + exists []. simpl. rewrite app_nil_r. auto.
    + destruct (0 <? _).
      * eexists [_]. simpl. repeat split; reflexivity.
      * exists []. simpl. rewrite app_nil_r. auto.
  - exists []. simpl. rewrite app_nil_r. auto.
Qed.

Lemma getAccessToken_trace config authNet w c w' :
  getAccessToken config authNet w = (c, w') ->
  exists evs,
    trace w' = trace w ++ evs
    /\ attempts evs = 0%nat /\ apiCalls evs = 0%nat /\ retrySleeps evs = 0%nat
    /\ (tokenExchanges evs <= 1)%nat.
Proof.
  unfold getAccessToken. intros H.
  destruct (cachedToken w).
  - inversion H; subst. exists []. rewrite app_nil_r.
    cbn. repeat split; auto.
  - destruct (negb _ || negb _)%bool.
    + inversion H; subst. exists []. rewrite app_nil_r.
      cbn. repeat split; auto.
    + destruct (authNet _); inversion H; subst; simpl;
        exists [EvTokenExchange]; cbn; repeat split; auto.
Qed.

Lemma sendAttempt_trace config authNet apiNet method endpoint body attempt w o w1 :
  sendAttempt config authNet apiNet method endpoint body attempt w = (o, w1) ->
  exists evs,
    trace w1 = trace w ++ evs ++ [EvAttempt attempt o]
    /\ attempts evs = 0%nat /\ apiCalls evs = 0%nat /\ retrySleeps evs = 0%nat.
Proof.
  unfold sendAttempt. intros H.
  destruct (checkRateLimit_trace w) as (e1 & E1 & A1 & C1 & S1 & _).
  destruct (getAccessToken config authNet (checkRateLimit w)) as [c w2] eqn:G.
  destruct (getAccessToken_trace _ _ _ _ _ G) as (e2 & E2 & A2 & C2 & S2 & _).
  exists (e1 ++ e2).
  rewrite attempts_app, apiCalls_app, retrySleeps_app, A1, A2, C1, C2, S1, S2.
  repeat split; try reflexivity.
  destruct c; inversion H; subst; simpl; rewrite E2, E1, <- !app_assoc; reflexivity.
Qed.

End Traces.
Section Request.
Context {T : Type}.
Variable config : Config.
Variable authNet : nat -> AuthOutcome.
Variable apiNet : nat -> HttpRequest -> ApiOutcome T.
Variables (timeout maxRetries baseRetryDelay : Z).
Variables (method endpoint : string) (body : option (list (string * string))).

Ltac zbool :=
  repeat match goal with
         | |- context [?a <=? ?b] => destruct (Z.leb_spec a b); try lia
         | |- context [?a <? ?b] => destruct (Z.ltb_spec a b); try lia
         | |- context [?a =? ?b] => destruct (Z.eqb_spec a b); try lia
         end.

(** A [500] with passes left: wait for the backoff delay and go on. *)
Lemma afterAttempt_500_retry attempt lastError (r : Response T) :
  status r = 500 -> attempt < maxRetries ->
  afterAttempt timeout maxRetries baseRetryDelay attempt lastError (Responded r)
  = NextAttempt (Some (HttpRetryBackoff, getBackoffDelay attempt baseRetryDelay))
                lastError.
Proof.
  intros Hs Hlt. unfold afterAttempt, ok, isRetryableError. rewrite Hs.
  zbool; reflexivity.
Qed.

(** A [500] on the last pass: the error is kept as [lastError]. *)
Lemma afterAttempt_500_last attempt lastError (r : Response T) :
  status r = 500 -> ~ attempt < maxRetries ->
  afterAttempt timeout maxRetries baseRetryDelay attempt lastError (Responded r)
  = NextAttempt None (Some (apiErrorOf r)).
Proof.
  intros Hs Hlt. unfold afterAttempt, ok, isRetryableError. rewrite Hs.
  zbool; cbn [negb andb orb];
    unfold onCatch, apiErrorOf; cbn [isAbortError isTypeError andb];
    unfold isRetryableError; rewrite Hs; reflexivity.
Qed.

(** A [4xx] other than [429]: the error leaves [request] at once. *)
Lemma afterAttempt_4xx attempt lastError (r : Response T) :
  400 <= status r <= 499 -> status r <> 429 ->
  afterAttempt timeout maxRetries baseRetryDelay attempt lastError (Responded r)
  = Finish (Throw (apiErrorOf r)).
Proof.
  intros Hs Hn. unfold afterAttempt, ok, isRetryableError.
  zbool; cbn [negb andb orb];
    unfold onCatch, apiErrorOf; cbn [isAbortError isTypeError andb];
    unfold isRetryableError; zbool; reflexivity.
Qed.

Lemma onCatch_no_retry_after attempt (e : JsError) ms le :
  @onCatch T timeout maxRetries baseRetryDelay attempt e
  <> NextAttempt (Some (RetryAfterWait, ms)) le.
Proof.
  unfold onCatch.
  destruct (isTypeError e && _)%bool; [discriminate|].
  destruct e; try discriminate. destruct (negb _); discriminate.
Qed.

(** The wait after a failed response never comes from the [Retry-After]
    header: the branch that reads it needs [attempt < maxRetries] on a
    [429], and in that case the test before it has already taken the
    backoff branch. *)
Lemma retry_after_branch_unreachable attempt lastError (o : AttemptOutcome T) ms le :
  afterAttempt timeout maxRetries baseRetryDelay attempt lastError o
  <> NextAttempt (Some (RetryAfterWait, ms)) le.
Proof.
  intros H. unfold afterAttempt in H.
  destruct o as [r | e | e]; try (revert H; apply onCatch_no_retry_after).
  destruct (ok r); cbn [negb] in H; [discriminate|].
  destruct (isRetryableError (status r) None && (attempt <? maxRetries))%bool
    eqn:E1; [discriminate|].
  destruct ((status r =? 429) && truthyOpt (retryAfterHeader r)
            && (attempt <? maxRetries))%bool eqn:E2.
  - apply andb_prop in E2 as [E2 E3]. apply andb_prop in E2 as [E2 _].
    apply Z.eqb_eq in E2. unfold isRetryableError in E1.
    rewrite E2, E3 in E1. discriminate.
  - revert H. apply onCatch_no_retry_after.
Qed.

Lemma requestLoop_trace n :
  forall attempt lastError (w : World T) c w',
    requestLoop config authNet apiNet timeout maxRetries baseRetryDelay
                method endpoint body n attempt lastError w = (c, w') ->
    exists evs, trace w' = trace w ++ evs.
Proof.
  induction n as [|n IH]; intros attempt lastError w c w' H; simpl in H.
  - inversion H; subst. exists []. now rewrite app_nil_r.
  - destruct (sendAttempt _ _ _ _ _ _ _ w) as [o w1] eqn:SA.
    destruct (sendAttempt_trace _ _ _ _ _ _ _ _ _ _ SA) as (e0 & E0 & _).
    destruct (afterAttempt _ _ _ _ _ o) as [c0 | wait le].
    + inversion H; subst. eexists. exact E0.
    + apply IH in H. destruct H as (evs & E).
      destruct wait as [[site ms]|]; simpl in E; rewrite E0 in E;
        rewrite <- !app_assoc in E; eexists; exact E.
Qed.

(** The retry loop on a vendor that answers [500] to every pass. *)
Lemma requestLoop_all_500 n :
  forall attempt lastError (w : World T) c w' evs,
    requestLoop config authNet apiNet timeout maxRetries baseRetryDelay
                method endpoint body n attempt lastError w = (c, w') ->
    trace w' = trace w ++ evs ->
    (forall a o, In (EvAttempt a o) evs ->
                 exists r, o = Responded r /\ status r = 500) ->
    (0 < n)%nat -> attempt + Z.of_nat n = maxRetries + 1 ->
    attempts evs = n /\ apiCalls evs = n
    /\ exists r, In (EvAttempt maxRetries (Responded r)) evs
                 /\ status r = 500 /\ c = Throw (apiErrorOf r).
Proof.
  induction n as [|n IH]; intros attempt lastError w c w' evs H E All Hn Hsum;
    [lia|].
  simpl in H.
  destruct (sendAttempt _ _ _ _ _ _ _ w) as [o w1] eqn:SA.
  destruct (sendAttempt_trace _ _ _ _ _ _ _ _ _ _ SA) as (e0 & E0 & A0 & C0 & _).
  assert (Pre : exists rest, evs = e0 ++ [EvAttempt attempt o] ++ rest).
  { destruct (afterAttempt _ _ _ _ _ o) as [c0 | wait le].
    - inversion H; subst. exists []. rewrite E0 in E.
      apply app_inv_head in E. subst evs. now rewrite app_nil_r.
    - apply requestLoop_trace in H. destruct H as (e1 & E1).
      destruct wait as [[site ms]|]; simpl in E1; rewrite E0 in E1;
        rewrite E, <- !app_assoc in E1; apply app_inv_head in E1;
        eexists; rewrite E1; simpl; reflexivity. }
  destruct Pre as (rest & ->).
  destruct (All attempt o) as (r & -> & Hs).
  { apply in_or_app. right. simpl. auto. }
  destruct (Z.lt_ge_cases attempt maxRetries) as [Hlt | Hge].
  - rewrite (afterAttempt_500_retry _ _ _ Hs Hlt) in H.
    assert (E' : trace w' = trace (sleep HttpRetryBackoff
                                     (getBackoffDelay attempt baseRetryDelay) w1)
                            ++ skipn 1 rest
                 /\ rest = EvSleep HttpRetryBackoff
                                   (getBackoffDelay attempt baseRetryDelay)
                           :: skipn 1 rest).
    { destruct (requestLoop_trace _ _ _ _ _ _ H) as (e1 & E1).
      simpl in E1. rewrite E0, <- !app_assoc in E1.
      rewrite E in E1. do 3 apply app_inv_head in E1. subst rest.
      simpl. split; [|reflexivity].
      rewrite E, E0, <- !app_assoc. reflexivity. }
    destruct E' as (E' & Hrest).
    destruct (IH _ _ _ _ _ _ H E') as (A1 & C1 & r1 & In1 & Hs1 & Hc).
    + intros a o Hin. apply (All a o). apply in_or_app. right.
      simpl. right. rewrite Hrest. simpl. right. exact Hin.
    + lia.
    + lia.
    + rewrite Hrest.
      rewrite !attempts_app, !apiCalls_app, A0, C0.
      change (attempts (EvSleep HttpRetryBackoff
                          (getBackoffDelay attempt baseRetryDelay) :: skipn 1 rest))
        with (attempts (skipn 1 rest)).
      change (apiCalls (EvSleep HttpRetryBackoff
                          (getBackoffDelay attempt baseRetryDelay) :: skipn 1 rest))
        with (apiCalls (skipn 1 rest)).
      rewrite A1, C1. cbn. repeat split; try reflexivity.
      exists r1. repeat split; auto.
      apply in_or_app. right. simpl. right. right. exact In1.
  - assert (n = 0%nat /\ attempt = maxRetries) as (-> & ->) by lia.
    rewrite afterAttempt_500_last in H by (auto; lia).
    simpl in H. inversion H; subst c w'.
    rewrite E0 in E. do 2 apply app_inv_head in E. simpl in E.
    injection E as <-.
    rewrite !attempts_app, !apiCalls_app, A0, C0. cbn.
    repeat split; try reflexivity.
    exists r. repeat split; auto. apply in_or_app. right. simpl. auto.
Qed.

End Request.

(** A 4xx other than 429 on the first pass ends [request] with the error
    built from the response. *)
Lemma request_terminal_4xx {T} config authNet
      (apiNet : nat -> HttpRequest -> ApiOutcome T)
      method endpoint body options (w w1 : World T) r :
  0 <= maxRetriesOf options ->
  sendAttempt config authNet apiNet method endpoint body 0 w = (Responded r, w1) ->
  400 <= status r <= 499 -> status r <> 429 ->
  request config authNet apiNet method endpoint body options w
  = (Throw (apiErrorOf r), w1).
Proof.
  intros Hm SA Hs Hn. unfold request.
  destruct (Z.to_nat (maxRetriesOf options + 1)) as [|n] eqn:En; [lia|].
  simpl. rewrite SA. rewrite afterAttempt_4xx by assumption. reflexivity.
Qed.





(** C1: the client's own test case for rate limiting (a 429 carrying
    [Retry-After: 1], then a 200, with [retryDelay: 10]).  The client waits
    the 10 ms of the exponential backoff before the second attempt, not the
    1000 ms the header asks for. *)
Theorem retry_after_header_is_not_honoured :
  let options := {| timeout := None; retries := None; retryDelay := Some 10 |} in
  let w := newClient 0 in
  let run := request Samples.sampleConfig Samples.authAlwaysOk
                     (Samples.apiOnceThenOk Samples.rateLimited "test")
                     "GET" "/api/test" None options w in
  fst run = Return "test"
  /\ eventsSince w (snd run)
     = [EvTokenExchange;
        EvAttempt 0 (Responded Samples.rateLimited);
        EvSleep HttpRetryBackoff 10;
        EvAttempt 1 (Responded (Samples.okResponse "test"))]
  /\ now (snd run) - now w = 10.
Proof. vm_compute. repeat split. Qed.

Section TokenCache.
Context {T : Type}.
Variable config : Config.
Variable authNet : nat -> AuthOutcome.
Implicit Types (w : World T).

Lemma cachedToken_hit w token expiry :
  accessToken w = Some token -> token <> "" ->
  tokenExpiry w = Some expiry -> now w + 5 * 60 * 1000 < expiry ->
  cachedToken w = Some token.
Proof.
  intros Ha Hne He Hlt. unfold cachedToken. rewrite Ha, He.
  destruct token as [|ch token]; [congruence|]. cbn [truthy andb].
  destruct (Z.ltb_spec (now w + 5 * 60 * 1000) expiry); [reflexivity | lia].
Qed.

Lemma getAccessToken_hit w token :
  cachedToken w = Some token ->
  getAccessToken config authNet w = (Return token, w).
Proof. intros H. unfold getAccessToken. now rewrite H. Qed.

Lemma atTime_now w : atTime (now w) w = w.
Proof. destruct w; reflexivity. Qed.

(** Calls made while the cached token is fresh all hit the cache. *)
Lemma getAccessTokenAt_hits times :
  forall w token expiry,
    accessToken w = Some token -> token <> "" ->
    tokenExpiry w = Some expiry ->
    (forall t, In t times -> t + 5 * 60 * 1000 < expiry) ->
    fst (getAccessTokenAt config authNet times w)
    = repeat (Return token) (List.length times)
    /\ trace (snd (getAccessTokenAt config authNet times w)) = trace w.
Proof.
  induction times as [|t later IH]; intros w token expiry Ha Hne He Hall.
  - simpl. auto.
  - simpl.
    rewrite (getAccessToken_hit (atTime t w) token).
    + destruct (IH (atTime t w) token expiry Ha Hne He) as (R & Tr).
      { intros t' Hin. apply Hall. now right. }
      destruct (getAccessTokenAt config authNet later (atTime t w)) as [cs w2].
      simpl in *. rewrite R, Tr. auto.
    + apply cachedToken_hit with expiry; auto. simpl. apply Hall. now left.
Qed.

End TokenCache.




End ClientSpec.

(** ** The provider adapter *)
Module ProviderSpec.
Import Js SkyTabClient SkyTabProvider.

(** C7: [cancelOrder] returns [true] when the client's call fails with a
    [SkyTabApiError] whose code is [TICKET_NOT_FOUND] or
    [INVALID_TICKET_STATUS], and throws for every other error: a
    [SkyTabApiError] with another code is rethrown as it is, any other error
    is thrown wrapped with the code [ORDER_CANCEL_FAILED].  In particular a
    vendor answering the cancellation with a 4xx carrying one of the two
    codes makes [cancelOrder] return [true]. *)
Theorem cancelOrder_idempotent_success config authNet apiNet posOrderId
        (w : World SkyTabCancelTicketResponse) :
  (forall m code st d w',
      post config authNet apiNet
           ("/api/rest/v1/pos/tickets/" ++ posOrderId ++ "/cancel")
           (Some [("reason", "Customer requested cancellation")]) noOptions w
      = (Throw (SkyTabApiError m code st d), w') ->
      (code = "TICKET_NOT_FOUND" \/ code = "INVALID_TICKET_STATUS" ->
       cancelOrder config authNet apiNet posOrderId w = (Return true, w'))
      /\ (code <> "TICKET_NOT_FOUND" -> code <> "INVALID_TICKET_STATUS" ->
          cancelOrder config authNet apiNet posOrderId w
          = (Throw (SkyTabApiError m code st d), w')))
  /\ (forall e w',
        post config authNet apiNet
             ("/api/rest/v1/pos/tickets/" ++ posOrderId ++ "/cancel")
             (Some [("reason", "Customer requested cancellation")]) noOptions w
        = (Throw e, w') ->
        (forall m code st d, e <> SkyTabApiError m code st d) ->
        cancelOrder config authNet apiNet posOrderId w
        = (Throw (SkyTabApiError (errorMessage e) "ORDER_CANCEL_FAILED" 500 None),
           w'))
  /\ (forall r e w1,
        sendAttempt config authNet apiNet "POST"
                    ("/api/rest/v1/pos/tickets/" ++ posOrderId ++ "/cancel")
                    (Some [("reason", "Customer requested cancellation")]) 0 w
        = (Responded r, w1) ->
        400 <= status r <= 499 -> status r <> 429 ->
        errorData r = Some e ->
        code e = "TICKET_NOT_FOUND" \/ code e = "INVALID_TICKET_STATUS" ->
        cancelOrder config authNet apiNet posOrderId w = (Return true, w1)).
Proof.
  assert (A : forall m code st d w',
             post config authNet apiNet
                  ("/api/rest/v1/pos/tickets/" ++ posOrderId ++ "/cancel")
                  (Some [("reason", "Customer requested cancellation")])
                  noOptions w
             = (Throw (SkyTabApiError m code st d), w') ->
             code = "TICKET_NOT_FOUND" \/ code = "INVALID_TICKET_STATUS" ->
             cancelOrder config authNet apiNet posOrderId w = (Return true, w')).
  { intros m code st d w' H Hcode. unfold cancelOrder. rewrite H.
    destruct Hcode as [-> | ->]; reflexivity. }
  split; [|split].
  - intros m code st d w' H. split; [now apply (A m code st d)|].
    intros N1 N2. unfold cancelOrder. rewrite H.
    apply String.eqb_neq in N1, N2. rewrite N1, N2. reflexivity.
  - intros e w' H Hne. unfold cancelOrder. rewrite H.
    destruct e; try reflexivity. exfalso. eapply Hne. reflexivity.
  - intros r e w1 SA Hs Hn He Hcode.
    apply (A (orDefault (message e)
                        ("Request failed with status " ++ numberToString (status r)))
             (code e) (status r) (details e)); [|exact Hcode].
    unfold post.
    rewrite (ClientSpec.request_terminal_4xx config authNet apiNet "POST" _ _ noOptions
               w w1 r); auto.
    + unfold apiErrorOf. rewrite He.
      destruct Hcode as [Hc | Hc]; rewrite Hc; reflexivity.
    + vm_compute. discriminate.
Qed.

(** The vendor of the provider's test suite, which answers a cancellation
    with a 404 [TICKET_NOT_FOUND]. *)
Lemma cancelOrder_idempotent_success_witness :
  fst (cancelOrder Samples.sampleConfig Samples.authAlwaysOk
                   (Samples.apiAlways Samples.ticketNotFound)
                   "ticket-123" (newClient 0))
  = Return true.
Proof.
  destruct (cancelOrder_idempotent_success
              Samples.sampleConfig Samples.authAlwaysOk
              (Samples.apiAlways Samples.ticketNotFound)
              "ticket-123" (newClient 0)) as (_ & _ & V).
  erewrite V with (r := Samples.ticketNotFound).
  - reflexivity.
  - vm_compute. reflexivity.
  - vm_compute. split; discriminate.
  - vm_compute. discriminate.
  - reflexivity.
  - left. reflexivity.
Defined.

End ProviderSpec.

(** ** The webhook processor *)
Module WebhookSpec.
Import Js Prisma SkyTabWebhook.
Local Open Scope prisma_scope.

(** *** The failure schedule is only ever consumed *)

(** Code that leaves a database without pending failures in that state. *)
Lemma prisma_no_faults {A} (call : Db -> Completion A * Db) w :
  faults w = [] ->
  prisma call w = (fst (call (db w)), setDb (snd (call (db w))) w).
Proof.
  intros H. unfold prisma. rewrite H. destruct (call (db w)). reflexivity.
Qed.

Lemma prisma_next_ok {A} (call : Db -> Completion A * Db) w :
  hd false (faults w) = false ->
  exists w', prisma call w = (fst (call (db w)), w')
             /\ db w' = snd (call (db w)) /\ clock w' = clock w
             /\ faults w' = tl (faults w).
Proof.
  intros H. unfold prisma. destruct (faults w) as [|[|] rest] eqn:F;
    try discriminate; destruct (call (db w)); eexists; simpl; eauto.
Qed.

Lemma prisma_keeps_no_faults {A} (call : Db -> Completion A * Db) w c w' :
  prisma call w = (c, w') -> faults w = [] -> faults w' = [].
Proof.
  intros H F. rewrite (prisma_no_faults _ _ F) in H. inversion H. exact F.
Qed.

Lemma bind_keeps_no_faults {A B} (m : M A) (k : A -> M B) :
  (forall w c w', m w = (c, w') -> faults w = [] -> faults w' = []) ->
  (forall a w c w', k a w = (c, w') -> faults w = [] -> faults w' = []) ->
  forall w c w', bind m k w = (c, w') -> faults w = [] -> faults w' = [].
Proof.
  intros Hm Hk w c w' H F. unfold bind in H.
  destruct (m w) as [[a | e] w1] eqn:E.
  - eapply Hk; eauto.
  - inversion H; subst. eauto.
Qed.

Lemma tryCatch_keeps_no_faults {A} (m : M A) (h : JsError -> M A) :
  (forall w c w', m w = (c, w') -> faults w = [] -> faults w' = []) ->
  (forall e w c w', h e w = (c, w') -> faults w = [] -> faults w' = []) ->
  forall w c w', tryCatch m h w = (c, w') -> faults w = [] -> faults w' = [].
Proof.
  intros Hm Hh w c w' H F. unfold tryCatch in H.
  destruct (m w) as [[a | e] w1] eqn:E.
  - inversion H; subst. eauto.
  - eapply Hh; eauto.
Qed.

Lemma ret_keeps_no_faults {A} (a : A) w c w' :
  ret a w = (c, w') -> faults w = [] -> faults w' = [].
Proof. intros H F. inversion H; subst. exact F. Qed.

Lemma throw_keeps_no_faults {A} (e : JsError) w (c : Completion A) w' :
  throw e w = (c, w') -> faults w = [] -> faults w' = [].
Proof. intros H F. inversion H; subst. exact F. Qed.

Lemma getClock_keeps_no_faults w c w' :
  getClock w = (c, w') -> faults w = [] -> faults w' = [].
Proof. intros H F. inversion H; subst. exact F. Qed.

Ltac keeps_no_faults :=
  repeat first
    [ apply bind_keeps_no_faults
    | apply tryCatch_keeps_no_faults
    | apply prisma_keeps_no_faults
    | apply ret_keeps_no_faults
    | apply throw_keeps_no_faults
    | apply getClock_keeps_no_faults
    | match goal with
      | |- forall (a : _) (w : World), _ => intro a
      | |- _ -> forall (w : World), _ => intro
      | |- forall (w : World) c w', (match ?x with _ => _ end) w = _ -> _ =>
          destruct x
      end ].

Lemma handleStockItems_keeps_no_faults items :
  forall w c w',
    handleStockItems items w = (c, w') -> faults w = [] -> faults w' = [].
Proof.
  induction items as [|item rest IH]; simpl.
  - apply ret_keeps_no_faults.
  - apply bind_keeps_no_faults; [|intros _; exact IH].
    unfold handleStockItem. keeps_no_faults.
Qed.

Lemma routeEvent_keeps_no_faults p w c w' :
  routeEvent p w = (c, w') -> faults w = [] -> faults w' = [].
Proof.
  revert w c w'. unfold routeEvent.
  repeat match goal with
         | |- context [if ?b then _ else _] => destruct b
         end;
    try apply ret_keeps_no_faults.
  - unfold handleTicketEvent. keeps_no_faults.
  - unfold handleTicketCancelled. keeps_no_faults.
  - unfold handleMenuEvent. keeps_no_faults.
  - unfold handleStockEvent. apply handleStockItems_keeps_no_faults.
  - unfold handleLocationEvent. keeps_no_faults.
Qed.

Lemma recordWebhookEvent_keeps_no_faults id ty loc st msg w c w' :
  recordWebhookEvent id ty loc st msg w = (c, w') ->
  faults w = [] -> faults w' = [].
Proof. revert w c w'. unfold recordWebhookEvent. keeps_no_faults. Qed.

Lemma processWebhook_keeps_no_faults p w c w' :
  processWebhook p w = (c, w') -> faults w = [] -> faults w' = [].
Proof.
  revert w c w'. unfold processWebhook, checkDuplicateEvent.
  apply tryCatch_keeps_no_faults.
  - apply bind_keeps_no_faults; [keeps_no_faults|].
    intros [|]; [apply ret_keeps_no_faults|].
    apply bind_keeps_no_faults; [apply routeEvent_keeps_no_faults|].
    intros _. apply bind_keeps_no_faults;
      [apply recordWebhookEvent_keeps_no_faults|].
    intros _. apply ret_keeps_no_faults.
  - intros e. apply bind_keeps_no_faults;
      [apply recordWebhookEvent_keeps_no_faults|].
    intros _. apply throw_keeps_no_faults.
Qed.

(** *** Deduplication *)

Lemma find_of_existsb {R} (f : R -> bool) (rows : list R) :
  existsb f rows = true -> exists x, find f rows = Some x.
Proof.
  induction rows as [|r rows IH]; simpl; [discriminate|].
  destruct (f r); eauto.
Qed.

Lemma existsb_of_find {R} (f : R -> bool) (rows : list R) :
  existsb f rows = false -> find f rows = None.
Proof.
  induction rows as [|r rows IH]; simpl; [reflexivity|].
  destruct (f r); [discriminate | exact IH].
Qed.

(** The lookup of [checkDuplicateEvent], when the database answers. *)
Lemma checkDuplicateEvent_answers id w :
  hd false (faults w) = false ->
  exists w', checkDuplicateEvent id w = (Return (recorded id (db w)), w')
             /\ db w' = db w /\ clock w' = clock w
             /\ faults w' = tl (faults w).
Proof.
  intros F. unfold checkDuplicateEvent, bind.
  destruct (prisma_next_ok
              (fun t => (Return (findFirst (isWebhookRecord id) (auditLogs t)), t))
              w F) as (w' & E & D & C & F').
  rewrite E. cbn [fst]. exists w'. unfold ret, recorded, findFirst.
  repeat split; auto.
  destruct (existsb (isWebhookRecord id) (auditLogs (db w))) eqn:X.
  - destruct (find_of_existsb _ _ X) as (a & ->). reflexivity.
  - now rewrite (existsb_of_find _ _ X).
Qed.

(** A recorded event is skipped: nothing is read or written after the
    lookup. *)
Lemma processWebhook_duplicate p w :
  recorded (eventId p) (db w) = true ->
  hd false (faults w) = false ->
  exists w', processWebhook p w = (Return alreadyProcessed, w')
             /\ db w' = db w /\ faults w' = tl (faults w).
Proof.
  intros R F.
  destruct (checkDuplicateEvent_answers (eventId p) w F) as (w' & E & D & _ & F').
  exists w'. unfold processWebhook, tryCatch, bind. rewrite E, R.
  unfold ret. auto.
Qed.

(** Writing the audit entry, when the database answers. *)
Lemma recordWebhookEvent_answers id ty loc st msg w :
  hd false (faults w) = false ->
  exists w', recordWebhookEvent id ty loc st msg w = (Return tt, w')
             /\ recorded id (db w') = true
             /\ recordedAs st id (db w') = true
             /\ domainState (db w') = domainState (db w)
             /\ faults w' = tl (faults w).
Proof.
  intros F. unfold recordWebhookEvent, tryCatch, bind, getClock.
  match goal with
  | |- context [prisma ?call w] =>
      destruct (prisma_next_ok call w F) as (w' & E & D & _ & F'); rewrite E
  end.
  cbn [fst snd] in *. exists w'. rewrite D.
  unfold recorded, recordedAs, setAuditLogs, domainState. cbn [auditLogs orders
    orderStatusHistories locations menus menuItems].
  rewrite !existsb_app. unfold isWebhookRecord.
  cbn [existsb action entityId changes app fst snd].
  rewrite !String.eqb_refl.
  change ("SKYTAB_WEBHOOK" =? "SKYTAB_WEBHOOK")%string with true.
  change ("eventType" =? "status")%string with false.
  change ("locationGuid" =? "status")%string with false.
  change ("status" =? "status")%string with true.
  cbn [andb orb]. rewrite !orb_true_r. auto.
Qed.

(** Whatever happens to an event that was not recorded yet, it is
    recorded once [processWebhook] is over, if the database did not fail. *)
Lemma processWebhook_records p w c w1 :
  faults w = [] ->
  processWebhook p w = (c, w1) ->
  recorded (eventId p) (db w1) = true /\ faults w1 = [].
Proof.
  intros F H. split; [|eapply processWebhook_keeps_no_faults; eauto].
  assert (F0 : hd false (faults w) = false) by now rewrite F.
  destruct (checkDuplicateEvent_answers (eventId p) w F0)
    as (w0 & E & D & _ & F').
  rewrite F in F'. cbn [tl] in F'.
  unfold processWebhook, tryCatch in H. unfold bind at 1 in H.
  rewrite E in H.
  destruct (recorded (eventId p) (db w)) eqn:R.
  - unfold ret in H. inversion H; subst. now rewrite D.
  - unfold bind at 1 in H.
    destruct (routeEvent p w0) as [[u | e] w2] eqn:RE;
      pose proof (routeEvent_keeps_no_faults _ _ _ _ RE F') as F2;
      assert (F2' : hd false (faults w2) = false) by now rewrite F2.
    + unfold bind in H.
      destruct (recordWebhookEvent_answers (eventId p) (eventType p)
                  (locationGuid p) "processed" None w2 F2')
        as (w3 & E3 & R3 & _).
      rewrite E3 in H. unfold ret in H. inversion H; subst. exact R3.
    + unfold bind in H.
      destruct (recordWebhookEvent_answers (eventId p) (eventType p)
                  (locationGuid p) "failed" (Some (errorMessage e)) w2 F2')
        as (w3 & E3 & R3 & _).
      rewrite E3 in H. unfold throw in H. inversion H; subst. exact R3.
Qed.

(** *** Handlers on a database that does not fail *)

Lemma prisma_no_faults_read {A} (read : Db -> A) w :
  faults w = [] ->
  prisma (fun t => (Return (read t), t)) w = (Return (read (db w)), setDb (db w) w).
Proof. intros F. now rewrite (prisma_no_faults _ _ F). Qed.

Lemma update_found {R} (where_ key : R -> bool) (data : R -> R) rows x :
  find where_ rows = Some x -> key x = true ->
  update key data rows = (Return tt, updateMany key data rows).
Proof.
  intros F K. unfold update.
  replace (existsb key rows) with true; [reflexivity|].
  symmetry. apply existsb_exists. exists x. split; [|exact K].
  now apply find_some in F.
Qed.

Lemma handleTicketEvent_returns ty d w :
  faults w = [] -> exists w', handleTicketEvent ty d w = (Return tt, w').
Proof.
  intros F. unfold handleTicketEvent. unfold bind at 1.
  rewrite (prisma_no_faults_read _ _ F).
  destruct (findFirst (orderOfTicket d) (orders (db w))) as [order|] eqn:Fi;
    [|unfold ret; eauto].
  unfold bind, getClock. rewrite prisma_no_faults by exact F.
  rewrite (update_found _ _ _ _ order Fi) by apply String.eqb_refl.
  cbn [fst snd]. rewrite prisma_no_faults by exact F. cbn [fst]. eauto.
Qed.

Lemma handleTicketCancelled_returns d w :
  faults w = [] -> exists w', handleTicketCancelled d w = (Return tt, w').
Proof.
  intros F. unfold handleTicketCancelled. unfold bind at 1.
  rewrite (prisma_no_faults_read _ _ F).
  destruct (findFirst (orderOfTicket d) (orders (db w))) as [order|] eqn:Fi;
    [|unfold ret; eauto].
  unfold bind, getClock. rewrite prisma_no_faults by exact F.
  rewrite (update_found _ _ _ _ order Fi) by apply String.eqb_refl.
  cbn [fst snd]. rewrite prisma_no_faults by exact F. cbn [fst]. eauto.
Qed.

Lemma handleMenuEvent_returns ty d loc w :
  faults w = [] -> exists w', handleMenuEvent ty d loc w = (Return tt, w').
Proof.
  intros F. unfold handleMenuEvent. unfold bind at 1.
  rewrite (prisma_no_faults_read _ _ F).
  destruct (findFirst _ (locations (db w))) as [location|];
    [|unfold ret; eauto].
  unfold bind. rewrite prisma_no_faults by exact F. cbn [fst snd].
  destruct (changedItems d) as [[|first others]|]; unfold ret; eauto.
  unfold getClock. rewrite prisma_no_faults by exact F. cbn [fst]. eauto.
Qed.

Lemma handleStockItem_returns item w :
  exists w', handleStockItem item w = (Return tt, w').
Proof.
  unfold handleStockItem, tryCatch.
  match goal with
  | |- context [match ?body w with _ => _ end] =>
      destruct (body w) as [[[] | e] w1]
  end; unfold ret; eauto.
Qed.

Lemma handleStockItems_returns items :
  forall w, exists w', handleStockItems items w = (Return tt, w').
Proof.
  induction items as [|item rest IH]; intros w; simpl.
  - unfold ret. eauto.
  - unfold bind. destruct (handleStockItem_returns item w) as (w1 & ->).
    apply IH.
Qed.

Lemma handleLocationEvent_returns loc w :
  faults w = [] -> exists w', handleLocationEvent loc w = (Return tt, w').
Proof.
  intros F. unfold handleLocationEvent. unfold bind at 1.
  rewrite (prisma_no_faults_read _ _ F).
  destruct (findFirst _ (locations (db w))) as [location|];
    [|unfold ret; eauto].
  unfold bind, getClock. rewrite prisma_no_faults by exact F. cbn [fst]. eauto.
Qed.

(** On a database that does not fail, no handler throws. *)
Lemma routeEvent_returns p w :
  faults w = [] -> exists w', routeEvent p w = (Return tt, w').
Proof.
  intros F. unfold routeEvent.
  repeat match goal with
         | |- context [if ?b then _ else _] => destruct b
         end.
  - now apply handleTicketEvent_returns.
  - now apply handleTicketCancelled_returns.
  - now apply handleMenuEvent_returns.
  - apply handleStockItems_returns.
  - now apply handleLocationEvent_returns.
  - unfold ret. eauto.
Qed.

(** On a database that does not fail, [processWebhook] reports success. *)
Lemma processWebhook_returns p w :
  faults w = [] ->
  exists r w', processWebhook p w = (Return r, w') /\ success r = true.
Proof.
  intros F.
  assert (F0 : hd false (faults w) = false) by now rewrite F.
  destruct (checkDuplicateEvent_answers (eventId p) w F0)
    as (w0 & E & _ & _ & F').
  rewrite F in F'. cbn [tl] in F'.
  unfold processWebhook, tryCatch. unfold bind at 1. rewrite E.
  destruct (recorded (eventId p) (db w)).
  - unfold ret. eauto.
  - unfold bind at 1. destruct (routeEvent_returns p w0 F') as (w1 & RE).
    rewrite RE.
    pose proof (routeEvent_keeps_no_faults _ _ _ _ RE F') as F1.
    destruct (recordWebhookEvent_answers (eventId p) (eventType p)
                (locationGuid p) "processed" None w1) as (w2 & E2 & _).
    { now rewrite F1. }
    unfold bind. rewrite E2. unfold ret. eauto.
Qed.



(** *** Events whose processing failed *)

(** The handlers whose first statement is a database query outside any
    [try] block throw when that query fails. *)
Lemma routeEvent_first_query_fails p w rest :
  In (eventType p)
     ["ticket.created"; "ticket.updated"; "ticket.status_changed";
      "ticket.cancelled"; "menu.updated"; "menu.item_availability_changed";
      "location.hours_changed"] ->
  faults w = true :: rest ->
  routeEvent p w = (Throw (Error "Database error"), setFaults rest w).
Proof.
  intros Hin F. unfold routeEvent.
  cbn [In] in Hin.
  repeat (destruct Hin as [Hin | Hin];
          [ rewrite <- Hin; cbn [String.eqb Ascii.eqb Bool.eqb orb andb];
            unfold handleTicketEvent, handleTicketCancelled, handleMenuEvent,
              handleLocationEvent, bind, prisma;
            rewrite F; reflexivity | ]).
  destruct Hin.
Qed.

(** C10: deduplication looks only at the presence of a [SKYTAB_WEBHOOK]
    audit entry for the [eventId], not at the status it carries; so an event
    whose processing threw (here: the handler's database query failed) is
    recorded with status [failed], the domain state is left without the
    event's update, and its redelivery is skipped and reported as success. *)
Theorem failed_event_is_not_reprocessed (p : SkyTabWebhookPayload) (w : World) :
  (forall a,
      In a (auditLogs (db w)) ->
      action a = "SKYTAB_WEBHOOK" -> entityId a = eventId p ->
      hd false (faults w) = false ->
      exists w', processWebhook p w = (Return alreadyProcessed, w')
                 /\ success alreadyProcessed = true
                 /\ db w' = db w)
  /\ (In (eventType p)
         ["ticket.created"; "ticket.updated"; "ticket.status_changed";
          "ticket.cancelled"; "menu.updated"; "menu.item_availability_changed";
          "location.hours_changed"] ->
      recorded (eventId p) (db w) = false ->
      faults w = [false; true] ->
      exists w1,
        processWebhook p w = (Throw (Error "Database error"), w1)
        /\ recordedAs "failed" (eventId p) (db w1) = true
        /\ domainState (db w1) = domainState (db w)
        /\ exists w2,
             processWebhook p w1 = (Return alreadyProcessed, w2)
             /\ db w2 = db w1).
Proof.
  split.
  - intros a Hin Ha He F.
    destruct (processWebhook_duplicate p w) as (w' & E & D & _); auto.
    + unfold recorded. apply existsb_exists. exists a. split; [exact Hin|].
      unfold isWebhookRecord. rewrite Ha, He, !String.eqb_refl. reflexivity.
    + exists w'. auto.
  - intros Hty R F.
    assert (F0 : hd false (faults w) = false) by now rewrite F.
    destruct (checkDuplicateEvent_answers (eventId p) w F0)
      as (w0 & E0 & D0 & _ & F0').
    rewrite F in F0'. cbn [tl] in F0'. rewrite R in E0.
    pose proof (routeEvent_first_query_fails p w0 [] Hty F0') as RE.
    destruct (recordWebhookEvent_answers (eventId p) (eventType p)
                (locationGuid p) "failed" (Some "Database error")
                (setFaults [] w0) eq_refl)
      as (w1 & E1 & R1 & RA1 & Dom1 & F1).
    exists w1.
    assert (H : processWebhook p w = (Throw (Error "Database error"), w1)).
    { unfold processWebhook, tryCatch. unfold bind at 1. rewrite E0.
      unfold bind at 1. rewrite RE. unfold bind. cbn [errorMessage].
      rewrite E1. reflexivity. }
    split; [exact H|]. split; [exact RA1|]. split.
    + rewrite Dom1. cbn [setFaults db]. now rewrite D0.
    + destruct (processWebhook_duplicate p w1 R1) as (w2 & E2 & D2 & _).
      * rewrite F1. reflexivity.
      * exists w2. auto.
Qed.

(** The failure of the test suite ("should record failed webhook
    processing"): [order.findFirst] rejects; the redelivery is skipped and
    the order stays [pending]. *)
Lemma failed_event_is_not_reprocessed_witness :
  exists w1 w2,
    processWebhook Samples.statusChanged (Samples.sampleWorld [false; true])
    = (Throw (Error "Database error"), w1)
    /\ processWebhook Samples.statusChanged w1 = (Return alreadyProcessed, w2)
    /\ map orderStatus (orders (db w2)) = ["pending"].
Proof.
  destruct (proj2 (failed_event_is_not_reprocessed Samples.statusChanged
                     (Samples.sampleWorld [false; true])))
    as (w1 & E1 & _ & Dom & w2 & E2 & D2).
  - cbn. tauto.
  - reflexivity.
  - reflexivity.
  - exists w1, w2. split; [exact E1|]. split; [exact E2|].
    rewrite D2. unfold domainState in Dom.
    injection Dom as -> _ _ _ _. reflexivity.
Defined.

End WebhookSpec.

(** ** The webhook endpoint *)
Module WebhookRouteSpec.
Import Js Prisma SkyTabWebhook PosRoutes.
Local Open Scope prisma_scope.

Lemma bytesEqb_eq (a b : list Byte.byte) : bytesEqb a b = true <-> a = b.
Proof.
  revert b. induction a as [|x a IH]; intros [|y b]; simpl;
    try (split; [discriminate | congruence]); [tauto|].
  rewrite andb_true_iff, IH. split.
  - intros [E ->]. apply Byte.byte_dec_bl in E. now subst.
  - intros E. injection E as -> ->. split; [now apply Byte.byte_dec_lb | reflexivity].
Qed.

(** A signature whose decoded length differs from that of the expected
    digest is rejected whatever the comparison primitive would answer. *)
Lemma verifySignature_length_mismatch crypto payload signature secret :
  SKYTAB_WEBHOOK_SECRET crypto = Some secret -> secret <> "" ->
  List.length (bufferFromHex signature)
  <> List.length (bufferFromHex (hmacSha256Hex crypto secret payload)) ->
  verifySignature crypto payload signature = false.
Proof.
  intros Hs Hne Hlen. unfold verifySignature. rewrite Hs.
  destruct secret as [|ch secret]; [congruence|]. cbn [truthyOpt truthy negb].
  apply Nat.eqb_neq in Hlen. rewrite Hlen. reflexivity.
Qed.

(** With Node's comparison, a signature that does not decode to the bytes
    of the expected digest is rejected. *)
Lemma verifySignature_mismatch hmac payload signature secret :
  secret <> "" ->
  bufferFromHex signature <> bufferFromHex (hmac secret payload) ->
  verifySignature {| SKYTAB_WEBHOOK_SECRET := Some secret;
                     hmacSha256Hex := hmac;
                     timingSafeEqual := nodeTimingSafeEqual |}
                  payload signature = false.
Proof.
  intros Hne Hd. unfold verifySignature. cbn [SKYTAB_WEBHOOK_SECRET
    hmacSha256Hex timingSafeEqual].
  destruct secret as [|ch secret]; [congruence|]. cbn [truthyOpt truthy negb].
  destruct (Nat.eqb _ _) eqn:L; cbn [negb]; [|reflexivity].
  unfold nodeTimingSafeEqual. rewrite L.
  destruct (bytesEqb _ _) eqn:B; [|reflexivity].
  apply bytesEqb_eq in B. contradiction.
Qed.

(** C4: the webhook endpoint answers 401 when [verifySignature] rejects the
    request, and the world is then exactly as before (nothing was read or
    written, nothing is handed over for processing); otherwise it answers
    200 with [received: true], either plain, with the payload handed over
    for processing after the reply, or with the [error] field when storing
    the event failed.  A signature whose decoded length differs from that of
    the expected digest is rejected whatever the byte comparison would
    answer, and with Node's comparison so is every signature that does not
    decode to the digest. *)
Theorem webhook_endpoint_replies crypto JSON_stringify
        (request : WebhookRequest) (w : World) :
  let rawBody := JSON_stringify (requestBody request) in
  let signature :=
    match signatureHeader request with Some s => s | None => "" end in
  (verifySignature crypto rawBody signature = false ->
   webhookRoute crypto JSON_stringify request w
   = (Return ({| statusCode := 401;
                 replyBody := ErrorBody "INVALID_SIGNATURE"
                                        "Invalid webhook signature" |},
              None), w))
  /\ (verifySignature crypto rawBody signature = true ->
      exists error task w',
        webhookRoute crypto JSON_stringify request w
        = (Return ({| statusCode := 200; replyBody := WebhookAck true error |},
                   task), w')
        /\ ((error = None /\ task = Some (requestBody request))
            \/ (error = Some "Processing failed" /\ task = None
                /\ db w' = db w)))
  /\ (forall secret compare,
        SKYTAB_WEBHOOK_SECRET crypto = Some secret -> secret <> "" ->
        List.length (bufferFromHex signature)
        <> List.length (bufferFromHex (hmacSha256Hex crypto secret rawBody)) ->
        verifySignature {| SKYTAB_WEBHOOK_SECRET := Some secret;
                           hmacSha256Hex := hmacSha256Hex crypto;
                           timingSafeEqual := compare |} rawBody signature
        = false)
  /\ (forall secret,
        SKYTAB_WEBHOOK_SECRET crypto = Some secret -> secret <> "" ->
        timingSafeEqual crypto = nodeTimingSafeEqual ->
        bufferFromHex signature
        <> bufferFromHex (hmacSha256Hex crypto secret rawBody) ->
        verifySignature crypto rawBody signature = false).
Proof.
  intros rawBody signature. split; [|split; [|split]].
  - intros V. unfold webhookRoute, tryCatch.
    fold rawBody. fold signature. rewrite V. reflexivity.
  - intros V. unfold webhookRoute, tryCatch.
    fold rawBody. fold signature. rewrite V. cbn [negb].
    unfold bind. unfold createWebhookEvent, prisma.
    destruct (faults w) as [|[|] rest];
      try (destruct (existsb _ (posWebhookEvents (db w)))); cbn;
      do 3 eexists; split; try reflexivity; auto.
  - intros secret compare Hs Hne Hlen.
    apply verifySignature_length_mismatch with secret; auto.
  - intros secret Hs Hne Hcmp Hd.
    destruct crypto as [sec hmac cmp]. cbn in *. subst.
    now apply verifySignature_mismatch.
Qed.

(** The request of the test suite with the signature [abc123] (three
    bytes against a digest of 32) is answered 401 and changes nothing. *)
Lemma webhook_endpoint_replies_witness :
  webhookRoute Samples.sampleCrypto Samples.sampleStringify
               Samples.shortSignatureRequest (Samples.sampleWorld [])
  = (Return ({| statusCode := 401;
                replyBody := ErrorBody "INVALID_SIGNATURE"
                                       "Invalid webhook signature" |},
             None), Samples.sampleWorld []).
Proof.
  apply (proj1 (webhook_endpoint_replies Samples.sampleCrypto
                  Samples.sampleStringify Samples.shortSignatureRequest
                  (Samples.sampleWorld []))).
  apply (proj1 (proj2 (proj2 (webhook_endpoint_replies Samples.sampleCrypto
                  Samples.sampleStringify Samples.shortSignatureRequest
                  (Samples.sampleWorld []))))
           "test-webhook-secret" nodeTimingSafeEqual).
  - reflexivity.
  - discriminate.
  - vm_compute. discriminate.
Defined.

End WebhookRouteSpec.

(** ** The failed-request queue *)
Module RetryQueueSpec.
Import Js Prisma PosService PosRoutes.
Local Open Scope prisma_scope.

(** *** Relations between the world before and after a piece of code *)
Section Respects.
Variable R : World -> World -> Prop.
Hypothesis R_refl : forall w, R w w.
Hypothesis R_trans : forall w1 w2 w3, R w1 w2 -> R w2 w3 -> R w1 w3.

Lemma ret_respects {A} (a : A) w c w' : ret a w = (c, w') -> R w w'.
Proof using R_refl R_trans. intros H. inversion H; subst. apply R_refl. Qed.

Lemma throw_respects {A} e w (c : Completion A) w' :
  throw e w = (c, w') -> R w w'.
Proof using R_refl R_trans. intros H. inversion H; subst. apply R_refl. Qed.

Lemma getClock_respects w c w' : getClock w = (c, w') -> R w w'.
Proof using R_refl R_trans. intros H. inversion H; subst. apply R_refl. Qed.

Lemma bind_respects {A B} (m : M A) (k : A -> M B) :
  (forall w c w', m w = (c, w') -> R w w') ->
  (forall a w c w', k a w = (c, w') -> R w w') ->
  forall w c w', bind m k w = (c, w') -> R w w'.
Proof using R_refl R_trans.
  intros Hm Hk w c w' H. unfold bind in H.
  destruct (m w) as [[a | e] w1] eqn:E.
  - eapply R_trans; eauto.
  - inversion H; subst. eauto.
Qed.

Lemma tryCatch_respects {A} (m : M A) (h : JsError -> M A) :
  (forall w c w', m w = (c, w') -> R w w') ->
  (forall e w c w', h e w = (c, w') -> R w w') ->
  forall w c w', tryCatch m h w = (c, w') -> R w w'.
Proof using R_refl R_trans.
  intros Hm Hh w c w' H. unfold tryCatch in H.
  destruct (m w) as [[a | e] w1] eqn:E.
  - inversion H; subst. eauto.
  - eapply R_trans; eauto.
Qed.

End Respects.

(** An awaited [prisma] call either fails and leaves the tables alone, or
    runs against them. *)
Lemma prisma_cases {A} (call : Db -> Completion A * Db) w c w' :
  prisma call w = (c, w') ->
  clock w' = clock w
  /\ ((c = Throw (Error "Database error") /\ db w' = db w)
      \/ call (db w) = (c, db w')).
Proof.
  unfold prisma. intros H.
  destruct (faults w) as [|[|] rest]; try destruct (call (db w)) eqn:E;
    inversion H; subst; cbn; auto.
Qed.

(** *** The queue is written by the sweep alone *)

Lemma updateOrder_sameQueue id data w c w' :
  updateOrder id data w = (c, w') -> sameQueue w w'.
Proof.
  unfold updateOrder, sameQueue. intros H.
  destruct (prisma_cases _ _ _ _ H) as (_ & [[_ D] | E]).
  - now rewrite D.
  - destruct (update _ data (orders (db w))) as [c0 rows].
    injection E as _ Ed. rewrite <- Ed. reflexivity.
Qed.

Lemma sendOrderToPOS_sameQueue providerSendOrder id w c w' :
  sendOrderToPOS providerSendOrder id w = (c, w') -> sameQueue w w'.
Proof.
  revert w c w'. unfold sendOrderToPOS.
  assert (Rr : forall w, sameQueue w w) by reflexivity.
  assert (Rt : forall w1 w2 w3,
             sameQueue w1 w2 -> sameQueue w2 w3 -> sameQueue w1 w3).
  { unfold sameQueue. intros w1 w2 w3 H1 H2. now rewrite H2. }
  apply (bind_respects _ Rr Rt).
  - intros w c w' H. destruct (prisma_cases _ _ _ _ H) as (_ & [[_ D] | E]).
    + unfold sameQueue. now rewrite D.
    + injection E as _ Ed. unfold sameQueue. now rewrite <- Ed.
  - intros [[order [location|]]|]; try apply (throw_respects _ Rr Rt).
    destruct (negb _); [apply (throw_respects _ Rr Rt)|].
    apply (bind_respects _ Rr Rt).
    + unfold getProvider. destruct (_ || _)%bool;
        [apply (ret_respects _ Rr Rt) | apply (throw_respects _ Rr Rt)].
    + intros provider. apply (tryCatch_respects _ Rr Rt).
      * apply (bind_respects _ Rr Rt).
        { intros w c w' H. unfold callSendOrder in H. inversion H; subst.
          reflexivity. }
        intros result. apply (bind_respects _ Rr Rt);
          [apply (getClock_respects _ Rr Rt)|].
        intros now. apply (bind_respects _ Rr Rt);
          [apply updateOrder_sameQueue|].
        intros _. apply (ret_respects _ Rr Rt).
      * intros e. apply (bind_respects _ Rr Rt); [apply updateOrder_sameQueue|].
        intros _. apply (throw_respects _ Rr Rt).
Qed.

(** *** What one pass of the sweep does to the queue *)

Lemma queueKept_refl w : queueKept w w.
Proof.
  exists (fun r => r). split; [intros r; auto | now rewrite map_id].
Qed.

Lemma queueKept_trans w1 w2 w3 :
  queueKept w1 w2 -> queueKept w2 w3 -> queueKept w1 w3.
Proof.
  intros (f & Hf & E1) (g & Hg & E2). exists (fun r => g (f r)). split.
  - intros r. destruct (Hf r) as (A & B & C), (Hg (f r)) as (A' & B' & C').
    repeat split; congruence.
  - now rewrite E2, E1, map_map.
Qed.

Lemma sameQueue_queueKept w w' : sameQueue w w' -> queueKept w w'.
Proof.
  intros H. exists (fun r => r). split; [intros r; auto|].
  now rewrite map_id.
Qed.

(** The two outcomes of an update of the queue. *)
Lemma updateFailedRequest_cases id data w c w' :
  updateFailedRequest id data w = (c, w') ->
  clock w' = clock w
  /\ (sameQueue w w' /\ c <> Return tt
      \/ c = Return tt
         /\ posFailedRequests (db w')
            = updateMany (fun r => (requestId r =? id)%string) data
                         (posFailedRequests (db w))).
Proof.
  unfold updateFailedRequest. intros H.
  destruct (prisma_cases _ _ _ _ H) as (C & [[Ec D] | E]); split; auto.
  - left. unfold sameQueue. rewrite D. split; [reflexivity | now subst].
  - unfold update in E. unfold sameQueue.
    destruct (existsb _ (posFailedRequests (db w))); cbv beta iota in E;
      injection E as Ec Ed; rewrite <- Ed; subst c; cbn.
    + right. split; reflexivity.
    + left. split; [reflexivity | discriminate].
Qed.

Lemma updateMany_as_map {R} (where_ : R -> bool) (data : R -> R) rows :
  updateMany where_ data rows
  = map (fun r => if where_ r then data r else r) rows.
Proof. reflexivity. Qed.

Lemma setStatus_queueKept id s t w c w' :
  updateFailedRequest id (setStatus s t) w = (c, w') -> queueKept w w'.
Proof.
  intros H. destruct (updateFailedRequest_cases _ _ _ _ _ H)
    as (_ & [[S _] | [_ E]]).
  - now apply sameQueue_queueKept.
  - eexists. split; [|exact E].
    intros r. destruct (requestId r =? id)%string; cbn; auto.
Qed.

Lemma bind_return_inv {A B} (m : M A) (k : A -> M B) w b w' :
  bind m k w = (Return b, w') ->
  exists a w1, m w = (Return a, w1) /\ k a w1 = (Return b, w').
Proof.
  unfold bind. intros H. destruct (m w) as [[a | e] w1]; [eauto | discriminate].
Qed.

(** The [try] block of a pass rewrites statuses only, and what it returns
    is a success entry. *)
Lemma retryOne_try providerSendOrder request w c w' :
  (updateFailedRequest (requestId request) (setStatus "retrying" None) ;;;
   (if (requestType request =? "order_submit")%string
    then sendOrderToPOS providerSendOrder (requestPayloadOrderId request) ;;; ret tt
    else ret tt) ;;;
   now <- getClock ;;
   updateFailedRequest (requestId request) (setStatus "completed" (Some now)) ;;;
   ret {| resultId := requestId request; resultSuccess := true;
          resultError := None |}) w = (c, w') ->
  queueKept w w'
  /\ forall res, c = Return res -> resultSuccess res = true.
Proof.
  intros H. split.
  - revert w c w' H.
    apply (bind_respects _ queueKept_refl queueKept_trans);
      [apply setStatus_queueKept|].
    intros _. apply (bind_respects _ queueKept_refl queueKept_trans).
    + destruct (_ =? _)%string;
        [|apply (ret_respects _ queueKept_refl queueKept_trans)].
      apply (bind_respects _ queueKept_refl queueKept_trans).
      * intros w c w' H. apply sameQueue_queueKept.
        eapply sendOrderToPOS_sameQueue; eauto.
      * intros _. apply (ret_respects _ queueKept_refl queueKept_trans).
    + intros _. apply (bind_respects _ queueKept_refl queueKept_trans);
        [apply (getClock_respects _ queueKept_refl queueKept_trans)|].
      intros now. apply (bind_respects _ queueKept_refl queueKept_trans);
        [apply setStatus_queueKept|].
      intros _. apply (ret_respects _ queueKept_refl queueKept_trans).
  - intros res ->.
    apply bind_return_inv in H as (_ & w1 & _ & H).
    apply bind_return_inv in H as (_ & w2 & _ & H).
    apply bind_return_inv in H as (now & w3 & _ & H).
    apply bind_return_inv in H as (_ & w4 & _ & H).
    unfold ret in H. injection H as <- _. reflexivity.
Qed.

(** The [catch] block of a pass adds one to the [retryCount] of the rows of
    the request, and sets their status from the counters the sweep read. *)
Lemma retryOne_catch request e w c w' :
  (let nextRetryDelay :=
     Z.min (1000 * 2 ^ (retryCount request + 1)) (30 * 60 * 1000) in
   now <- getClock ;;
   updateFailedRequest (requestId request)
     (recordFailure request (now + nextRetryDelay) (errorMessage e)) ;;;
   ret {| resultId := requestId request; resultSuccess := false;
          resultError := Some (errorMessage e) |}) w = (c, w') ->
  (sameQueue w w' /\ (forall res, c <> Return res))
  \/ exists t,
       posFailedRequests (db w')
       = updateMany (fun r => (requestId r =? requestId request)%string)
                    (recordFailure request t (errorMessage e))
                    (posFailedRequests (db w)).
Proof.
  cbv zeta. unfold bind at 1. unfold getClock at 1. unfold bind.
  destruct (updateFailedRequest _ _ w) as [[[] | e1] w1] eqn:U; intros H;
    destruct (updateFailedRequest_cases _ _ _ _ _ U) as (_ & [[S N] | [N E]]).
  - congruence.
  - unfold ret in H. injection H as _ <-. right. eexists. exact E.
  - injection H as <- <-. left. split; [exact S | discriminate].
  - discriminate N.
Qed.

Lemma recordFailure_bumpsOnly request t m :
  bumpsOnly (requestId request)
            (fun r => if (requestId r =? requestId request)%string
                      then recordFailure request t m r else r).
Proof.
  intros r. destruct (String.eqb_spec (requestId r) (requestId request));
    cbn; auto.
Qed.

Lemma queueKept_then_bumped id w1 w2 f :
  queueKept w1 w2 -> bumpsOnly id f ->
  forall rows, rows = map f (posFailedRequests (db w2)) ->
  exists g, bumpsOnly id g /\ rows = map g (posFailedRequests (db w1)).
Proof.
  intros (k & Hk & E) Hf rows ->. exists (fun r => f (k r)). split.
  - intros r. destruct (Hk r) as (A & B & C), (Hf (k r)) as (A' & B' & C').
    split; [congruence|]. split; [congruence|].
    destruct C' as [C' | [I C']]; [left | right; split]; congruence.
  - now rewrite E, map_map.
Qed.

(** One pass of the sweep. *)
Lemma retryOne_queueBumped providerSendOrder request w c w' :
  retryOne providerSendOrder request w = (c, w') ->
  queueBumped (requestId request) w w'.
Proof.
  unfold retryOne, tryCatch. intros H.
  match type of H with
  | (match ?body w with _ => _ end) = _ =>
      destruct (body w) as [[res | e] w1] eqn:B;
      destruct (retryOne_try _ _ _ _ _ B) as (K & _)
  end.
  - injection H as <- <-. destruct K as (f & Hf & E).
    exists f. split; [|exact E].
    intros r. destruct (Hf r) as (A1 & A2 & A3). auto.
  - destruct (retryOne_catch _ _ _ _ _ H) as [[S _] | (t & E)].
    + destruct K as (f & Hf & E). exists f. split.
      * intros r. destruct (Hf r) as (A1 & A2 & A3). auto.
      * unfold sameQueue in S. now rewrite S.
    + apply (queueKept_then_bumped _ w w1 _ K
               (recordFailure_bumpsOnly request t (errorMessage e))).
      exact E.
Qed.

(** *** The sweep *)

Lemma taken_row_in_table {Row} n (rows : list Row) r :
  In r (firstn n rows) -> In r rows.
Proof.
  revert rows. induction n as [|n IH]; intros [|y rows]; simpl; try tauto.
  intros [-> | H]; auto.
Qed.

Section Keys.
Context {Row Key : Type}.
Variable key : Row -> Key.

(** In a table with unique keys, rows with the same key are the same row. *)
Lemma unique_key_same_row (rows : list Row) r1 r2 :
  NoDup (map key rows) -> In r1 rows -> In r2 rows -> key r1 = key r2 ->
  r1 = r2.
Proof.
  induction rows as [|x rows IH]; simpl; [tauto|].
  intros N H1 H2 E. apply NoDup_cons_iff in N as [Nx N].
  destruct H1 as [<- | H1], H2 as [<- | H2]; auto.
  - exfalso. apply Nx. rewrite E. now apply in_map.
  - exfalso. apply Nx. rewrite <- E. now apply in_map.
Qed.

Lemma unique_keys_filter (keep : Row -> bool) (rows : list Row) :
  NoDup (map key rows) -> NoDup (map key (filter keep rows)).
Proof.
  induction rows as [|x rows IH]; simpl; [auto|].
  intros N. apply NoDup_cons_iff in N as [Nx N].
  destruct (keep x); simpl; auto.
  apply NoDup_cons; auto.
  intros Hin. apply Nx. apply in_map_iff in Hin as (y & E & Hy).
  apply filter_In in Hy as [Hy _]. rewrite <- E. now apply in_map.
Qed.

Lemma unique_keys_firstn n (rows : list Row) :
  NoDup (map key rows) -> NoDup (map key (firstn n rows)).
Proof.
  revert rows. induction n as [|n IH]; intros [|x rows]; simpl;
    auto using NoDup_nil.
  intros N. apply NoDup_cons_iff in N as [Nx N].
  apply NoDup_cons; auto.
  intros Hin. apply Nx. apply in_map_iff in Hin as (y & E & Hy).
  apply taken_row_in_table in Hy. rewrite <- E. now apply in_map.
Qed.

End Keys.

(** What the sweep's query selects. *)
Lemma findFailedRequests_selects now rows r :
  In r (findFailedRequests now rows) ->
  In r rows
  /\ (requestStatus r = "pending" \/ requestStatus r = "retrying")
  /\ retryCount r < maxRetries r.
Proof.
  unfold findFailedRequests. intros H. apply taken_row_in_table in H.
  apply filter_In in H as [Hin S]. unfold selectable in S.
  apply andb_true_iff in S as [S _]. apply andb_true_iff in S as [St Rc].
  split; [exact Hin|]. split.
  - apply orb_true_iff in St as [St | St]; apply String.eqb_eq in St; auto.
  - now apply Z.ltb_lt.
Qed.

(** The passes of the sweep keep every row within its budget, provided the
    rows of the requests still to be retried are strictly below it. *)
Lemma retryAll_withinBudget providerSendOrder failedRequests :
  forall w c w',
    retryAll providerSendOrder failedRequests w = (c, w') ->
    NoDup (map requestId failedRequests) ->
    withinBudget (posFailedRequests (db w)) ->
    (forall s r, In s failedRequests -> In r (posFailedRequests (db w)) ->
                 requestId r = requestId s -> retryCount r < maxRetries r) ->
    withinBudget (posFailedRequests (db w')).
Proof.
  induction failedRequests as [|request rest IH]; intros w c w' H N WB Below.
  - inversion H; subst. exact WB.
  - simpl in H. unfold bind at 1 in H.
    destruct (retryOne providerSendOrder request w) as [cr w1] eqn:RO.
    destruct (retryOne_queueBumped _ _ _ _ _ RO) as (f & Hf & E).
    apply NoDup_cons_iff in N as [Nr N].
    assert (WB1 : withinBudget (posFailedRequests (db w1))).
    { intros r' Hin. rewrite E in Hin.
      apply in_map_iff in Hin as (r & <- & Hin).
      destruct (Hf r) as (_ & M & [C | [I C]]); rewrite M, C.
      - now apply WB.
      - assert (retryCount r < maxRetries r)
          by (apply (Below request r); simpl; auto).
        lia. }
    assert (Below1 : forall s r, In s rest ->
                                 In r (posFailedRequests (db w1)) ->
                                 requestId r = requestId s ->
                                 retryCount r < maxRetries r).
    { intros s r' Hs Hin Hid. rewrite E in Hin.
      apply in_map_iff in Hin as (r & <- & Hin).
      destruct (Hf r) as (I & M & [C | [I' C]]); rewrite M.
      - rewrite C. apply (Below s r); simpl; auto. congruence.
      - exfalso. apply Nr. apply in_map_iff. exists s. split; [congruence | exact Hs]. }
    destruct cr as [result | e].
    + unfold bind in H.
      destruct (retryAll providerSendOrder rest w1) as [[results | e] w2] eqn:RA;
        inversion H; subst; eapply IH; eauto.
    + inversion H; subst. exact WB1.
Qed.

(** C5: the sweep selects only rows whose status is [pending] or
    [retrying] and whose [retryCount] is below [maxRetries], so never a
    [completed] or [abandoned] row; a sweep over a queue whose rows are all
    within their budget ([retryCount <= maxRetries]) leaves them within it,
    whatever the provider and the database do; and when a retry fails, the
    row's [retryCount] goes up by one and its status becomes [abandoned] as
    soon as that count reaches [maxRetries] ([pending] otherwise). *)
Theorem retry_sweep_bounds providerSendOrder (w : World) :
  (forall now rows r,
      In r (findFailedRequests now rows) ->
      In r rows
      /\ (requestStatus r = "pending" \/ requestStatus r = "retrying")
      /\ retryCount r < maxRetries r
      /\ requestStatus r <> "completed" /\ requestStatus r <> "abandoned")
  /\ (NoDup (map requestId (posFailedRequests (db w))) ->
      withinBudget (posFailedRequests (db w)) ->
      forall c w',
        retryFailedRoute providerSendOrder w = (c, w') ->
        withinBudget (posFailedRequests (db w')))
  /\ (forall request res w',
        NoDup (map requestId (posFailedRequests (db w))) ->
        In request (posFailedRequests (db w)) ->
        retryOne providerSendOrder request w = (Return res, w') ->
        resultSuccess res = false ->
        forall r',
          In r' (posFailedRequests (db w')) ->
          requestId r' = requestId request ->
          retryCount r' = retryCount request + 1
          /\ requestStatus r'
             = (if maxRetries request <=? retryCount request + 1
                then "abandoned" else "pending")
          /\ (maxRetries request <= retryCount request + 1 ->
              requestStatus r' = "abandoned")).
Proof.
  split; [|split].
  - intros now rows r H.
    destruct (findFailedRequests_selects _ _ _ H) as (Hin & St & Rc).
    repeat split; auto; intros E; rewrite E in St;
      destruct St as [St | St]; discriminate St.
  - intros N WB c w' H.
    unfold retryFailedRoute, tryCatch in H.
    match type of H with
    | (match ?body w with _ => _ end) = _ =>
        assert (B : forall c0 w0, body w = (c0, w0) ->
                                  withinBudget (posFailedRequests (db w0)));
        [| destruct (body w) as [[reply | e] w0] eqn:Eb;
           [ injection H as _ <- | unfold ret in H; injection H as _ <- ];
           eapply B; eauto ]
    end.
    intros c0 w0 H0. unfold bind at 1 in H0. unfold getClock at 1 in H0.
    unfold bind at 1 in H0.
    match type of H0 with
    | (match prisma ?call w with _ => _ end) = _ =>
        destruct (prisma call w) as [[selected | e] w1] eqn:P;
        destruct (prisma_cases _ _ _ _ P) as (_ & [[Ec D] | E])
    end; try discriminate Ec.
    + injection E as Es Ed.
      assert (Q : posFailedRequests (db w1) = posFailedRequests (db w))
        by now rewrite <- Ed.
      unfold bind in H0.
      destruct (retryAll providerSendOrder selected w1) as [cr w2] eqn:RA.
      assert (WB2 : withinBudget (posFailedRequests (db w2))).
      { eapply retryAll_withinBudget; eauto.
        - subst selected. unfold findFailedRequests.
          now apply unique_keys_firstn, unique_keys_filter.
        - now rewrite Q.
        - intros s r Hs Hr Hid. rewrite Q in Hr. subst selected.
          destruct (findFailedRequests_selects _ _ _ Hs) as (Hin & _ & Rc).
          now rewrite (unique_key_same_row requestId _ r s N Hr Hin Hid). }
      destruct cr; inversion H0; subst; exact WB2.
    + injection H0 as _ <-. now rewrite D.
    + injection H0 as _ <-. injection E as _ Ed. now rewrite <- Ed.
  - intros request res w' N Hreq H Hfail r' Hin Hid.
    unfold retryOne, tryCatch in H.
    match type of H with
    | (match ?body w with _ => _ end) = _ =>
        destruct (body w) as [[res0 | e] w1] eqn:B;
        destruct (retryOne_try _ _ _ _ _ B) as ((f & Hf & E) & S)
    end.
    + injection H as <- _. rewrite (S res0 eq_refl) in Hfail. discriminate.
    + destruct (retryOne_catch _ _ _ _ _ H) as [[_ Nr] | (t & E')].
      { exfalso. now apply (Nr res). }
      rewrite E', E in Hin. unfold updateMany in Hin. rewrite map_map in Hin.
      apply in_map_iff in Hin as (r & Er & Hr).
      destruct (Hf r) as (I & M & C).
      destruct (String.eqb_spec (requestId (f r)) (requestId request)) as [Ek | Ek].
      * assert (r = request)
          by (apply (unique_key_same_row requestId _ r request N Hr Hreq);
              congruence).
        subst r r'. cbn. rewrite C. split; [reflexivity|]. split; [reflexivity|].
        intros Hmax. destruct (Z.leb_spec (maxRetries request)
                                          (retryCount request + 1));
          [reflexivity | lia].
      * exfalso. apply Ek. congruence.
Qed.

(** A row at two failures out of three, the provider down: the sweep
    abandons it at three. *)
Lemma retry_sweep_bounds_witness :
  let w' := snd (retryFailedRoute Samples.providerDown Samples.sampleQueueWorld) in
  withinBudget (posFailedRequests (db w'))
  /\ map (fun r => (retryCount r, requestStatus r)) (posFailedRequests (db w'))
     = [(3, "abandoned")].
Proof.
  intros w'. split; [|vm_compute; reflexivity].
  apply (proj1 (proj2 (retry_sweep_bounds Samples.providerDown
                         Samples.sampleQueueWorld)))
    with (c := fst (retryFailedRoute Samples.providerDown Samples.sampleQueueWorld)).
  - cbn. apply NoDup_cons; [intros [] | apply NoDup_nil].
  - intros r [<- | []]. cbn. lia.
  - vm_compute. reflexivity.
Defined.

End RetryQueueSpec.

(** ** The HTTP client: rate limiting, backoff and the shape of a run *)
Module ClientExtras.
Import Js SkyTabClient ClientObservations ClientSpec.

Section RateLimit.
Context {T : Type}.
Implicit Types (w : World T).

Lemma recent_filter_le (t t' : Z) (q : list Z) :
  t <= t' ->
  (List.length (filter (fun ts => (t' - ts <? RATE_LIMIT_WINDOW_MS)%Z) q)
   <= List.length (filter (fun ts => (t - ts <? RATE_LIMIT_WINDOW_MS)%Z) q))%nat.
Proof.
  intros Ht. induction q as [|x q IH]; simpl; [lia|].
  destruct (Z.ltb_spec (t' - x) RATE_LIMIT_WINDOW_MS),
           (Z.ltb_spec (t - x) RATE_LIMIT_WINDOW_MS); simpl; lia.
Qed.

Lemma filter_length_le {A} (f : A -> bool) (l : list A) :
  (List.length (filter f l) <= List.length l)%nat.
Proof. induction l as [|x l IH]; simpl; [lia|]. destruct (f x); simpl; lia. Qed.

Lemma filter_all_true {A} (f : A -> bool) (l : list A) :
  (forall x, In x l -> f x = true) -> filter f l = l.
Proof.
  induction l as [|x l IH]; simpl; intros H; [reflexivity|].
  rewrite (H x) by auto. f_equal. apply IH. auto.
Qed.

(** The queue of [checkRateLimit] after its clean-up. *)
Lemma recent_in_window (t : Z) (q : list Z) ts :
  In ts (filter (fun ts => t - ts <? RATE_LIMIT_WINDOW_MS) q) ->
  t - ts < RATE_LIMIT_WINDOW_MS.
Proof. intros H. apply filter_In in H as [_ H]. now apply Z.ltb_lt. Qed.

(** While fewer than 60 requests are less than a window old,
    [checkRateLimit] records the new request at once. *)
Lemma checkRateLimit_free w :
  let recent :=
    filter (fun ts => now w - ts <? RATE_LIMIT_WINDOW_MS) (requestQueue w) in
  (List.length recent < 60)%nat ->
  now (checkRateLimit w) = now w
  /\ trace (checkRateLimit w) = trace w
  /\ requestQueue (checkRateLimit w) = recent ++ [now w].
Proof.
  intros recent Hlt. unfold checkRateLimit.
  cbn [requestQueue setRequestQueue now]. fold recent.
  destruct (Z.leb_spec RATE_LIMIT_REQUESTS_PER_MINUTE
                       (Z.of_nat (List.length recent))) as [H | H].
  - unfold RATE_LIMIT_REQUESTS_PER_MINUTE in H. lia.
  - unfold setRequestQueue. cbn [now trace requestQueue]. auto.
Qed.

(** When 60 or more are, it first waits until the oldest of them is a
    window old. *)
Lemma checkRateLimit_full w oldest rest :
  let recent :=
    filter (fun ts => now w - ts <? RATE_LIMIT_WINDOW_MS) (requestQueue w) in
  recent = oldest :: rest -> (60 <= List.length recent)%nat ->
  0 < RATE_LIMIT_WINDOW_MS - (now w - oldest)
  /\ now (checkRateLimit w) = oldest + RATE_LIMIT_WINDOW_MS
  /\ trace (checkRateLimit w)
     = trace w ++ [EvSleep RateLimitWait
                           (RATE_LIMIT_WINDOW_MS - (now w - oldest))]
  /\ requestQueue (checkRateLimit w)
     = recent ++ [oldest + RATE_LIMIT_WINDOW_MS].
Proof.
  intros recent E Hge. unfold checkRateLimit.
  cbn [requestQueue setRequestQueue now]. fold recent.
  assert (W : now w - oldest < RATE_LIMIT_WINDOW_MS).
  { apply (recent_in_window (now w) (requestQueue w)). fold recent.
    rewrite E. now left. }
  split; [lia|].
  destruct (Z.leb_spec RATE_LIMIT_REQUESTS_PER_MINUTE
                       (Z.of_nat (List.length recent))) as [H | H].
  - rewrite E.
    destruct (Z.ltb_spec 0 (RATE_LIMIT_WINDOW_MS - (now w - oldest))); [|lia].
    unfold sleep, setRequestQueue. cbn [now trace requestQueue].
    rewrite Z.max_r by lia.
    replace (now w + (RATE_LIMIT_WINDOW_MS - (now w - oldest)))
      with (oldest + RATE_LIMIT_WINDOW_MS) by lia.
    auto.
  - unfold RATE_LIMIT_REQUESTS_PER_MINUTE in H. lia.
Qed.

(** X2: [checkRateLimit] does not wait while fewer than 60 requests are
    less than a window old; when 60 or more are, it waits until the first
    of them is exactly 60 s old (the wait is always positive), and only
    then records the new request. *)
Theorem checkRateLimit_waits_for_the_oldest w :
  let recent :=
    filter (fun ts => now w - ts <? RATE_LIMIT_WINDOW_MS) (requestQueue w) in
  ((List.length recent < 60)%nat ->
   now (checkRateLimit w) = now w
   /\ trace (checkRateLimit w) = trace w
   /\ requestQueue (checkRateLimit w) = recent ++ [now w])
  /\ (forall oldest rest,
        recent = oldest :: rest -> (60 <= List.length recent)%nat ->
        0 < RATE_LIMIT_WINDOW_MS - (now w - oldest)
        /\ now (checkRateLimit w) = oldest + RATE_LIMIT_WINDOW_MS
        /\ trace (checkRateLimit w)
           = trace w ++ [EvSleep RateLimitWait
                                 (RATE_LIMIT_WINDOW_MS - (now w - oldest))]
        /\ requestQueue (checkRateLimit w)
           = recent ++ [oldest + RATE_LIMIT_WINDOW_MS]).
Proof.
  intros recent. split.
  - apply checkRateLimit_free.
  - intros oldest rest. apply checkRateLimit_full.
Qed.

Lemma inWindow_checkRateLimit w :
  (inWindow w <= 60)%nat -> (inWindow (checkRateLimit w) <= 60)%nat.
Proof.
  intros Inv. unfold inWindow in Inv.
  pose proof (checkRateLimit_free w) as Free.
  pose proof (checkRateLimit_full w) as Full.
  cbv zeta in Free, Full.
  set (recent := filter (fun ts => now w - ts <? RATE_LIMIT_WINDOW_MS)
                        (requestQueue w)) in *.
  destruct (Nat.lt_ge_cases (List.length recent) 60) as [Hlt | Hge].
  - destruct (Free Hlt) as (N & _ & Q). unfold inWindow. rewrite N, Q.
    etransitivity; [apply filter_length_le|]. rewrite length_app. simpl. lia.
  - destruct recent as [|oldest rest] eqn:E; [simpl in Hge; lia|].
    destruct (Full oldest rest eq_refl Hge) as (_ & N & _ & Q).
    unfold inWindow. rewrite N, Q. simpl.
    destruct (Z.ltb_spec (oldest + RATE_LIMIT_WINDOW_MS - oldest)
                         RATE_LIMIT_WINDOW_MS); [lia|].
    rewrite filter_app, length_app.
    pose proof (filter_length_le
                  (fun ts => oldest + RATE_LIMIT_WINDOW_MS - ts
                             <? RATE_LIMIT_WINDOW_MS) rest).
    pose proof (filter_length_le
                  (fun ts => oldest + RATE_LIMIT_WINDOW_MS - ts
                             <? RATE_LIMIT_WINDOW_MS)
                  [oldest + RATE_LIMIT_WINDOW_MS]).
    simpl in *. lia.
Qed.

Lemma inWindow_later w w' :
  requestQueue w' = requestQueue w -> now w <= now w' ->
  (inWindow w' <= inWindow w)%nat.
Proof.
  intros Q N. unfold inWindow. rewrite Q. now apply recent_filter_le.
Qed.

Lemma getAccessToken_keeps_queue config authNet w c w' :
  getAccessToken config authNet w = (c, w') ->
  requestQueue w' = requestQueue w /\ now w' = now w.
Proof.
  unfold getAccessToken. intros H.
  destruct (cachedToken w); [inversion H; auto|].
  destruct (negb _ || negb _)%bool; [inversion H; auto|].
  destruct (authNet _); inversion H; auto.
Qed.

Lemma inWindow_sendAttempt config authNet apiNet method endpoint body attempt w o w1 :
  sendAttempt config authNet apiNet method endpoint body attempt w = (o, w1) ->
  (inWindow w <= 60)%nat -> (inWindow w1 <= 60)%nat.
Proof.
  unfold sendAttempt. intros H Inv.
  apply inWindow_checkRateLimit in Inv.
  destruct (getAccessToken config authNet (checkRateLimit w)) as [c w2] eqn:G.
  destruct (getAccessToken_keeps_queue _ _ _ _ _ G) as (Q & N).
  assert (I2 : (inWindow w2 <= 60)%nat).
  { etransitivity; [apply (inWindow_later (checkRateLimit w) w2)|]; auto. lia. }
  destruct c; inversion H; subst; exact I2.
Qed.

Lemma inWindow_requestLoop config authNet apiNet timeout maxRetries base
      method endpoint body n :
  forall attempt lastError w c w',
    requestLoop config authNet apiNet timeout maxRetries base
                method endpoint body n attempt lastError w = (c, w') ->
    (inWindow w <= 60)%nat -> (inWindow w' <= 60)%nat.
Proof.
  induction n as [|n IH]; intros attempt lastError w c w' H Inv; simpl in H.
  - inversion H; subst. exact Inv.
  - destruct (sendAttempt _ _ _ _ _ _ _ w) as [o w1] eqn:SA.
    pose proof (inWindow_sendAttempt _ _ _ _ _ _ _ _ _ _ SA Inv) as I1.
    destruct (afterAttempt _ _ _ _ _ o) as [c0 | wait le].
    + inversion H; subst. exact I1.
    + eapply IH; [exact H|].
      destruct wait as [[site ms]|]; [|exact I1].
      etransitivity; [apply (inWindow_later w1)|exact I1]; cbn; auto. lia.
Qed.

(** X1: the rate limiter keeps the number of recorded requests that are less
    than 60 s old at 60 or below: [checkRateLimit] preserves the bound, and
    so does a whole [request], whatever the vendor answers. *)
Theorem rate_limit_window_is_kept config authNet
        (apiNet : nat -> HttpRequest -> ApiOutcome T)
        method endpoint body options w :
  (inWindow w <= 60)%nat ->
  (inWindow (checkRateLimit w) <= 60)%nat
  /\ (inWindow (snd (request config authNet apiNet method endpoint body options w))
      <= 60)%nat.
Proof.
  intros Inv. split; [now apply inWindow_checkRateLimit|].
  unfold request.
  destruct (requestLoop _ _ _ _ _ _ _ _ _ _ _ _ w) as [c w'] eqn:E.
  eapply inWindow_requestLoop; eauto.
Qed.

End RateLimit.

(** A fresh client sending one request. *)
Lemma rate_limit_window_is_kept_witness :
  (inWindow (checkRateLimit (@newClient string 0)) <= 60)%nat
  /\ (inWindow (snd (request Samples.sampleConfig Samples.authAlwaysOk
                             (Samples.apiAlways Samples.internalError)
                             "GET" "/api/test" None noOptions (newClient 0)))
      <= 60)%nat.
Proof.
  apply rate_limit_window_is_kept. unfold inWindow. simpl. lia.
Defined.

(** The full window of the busy client: the next request waits until the
    request of 1 ms is 60 s old. *)
Lemma checkRateLimit_waits_for_the_oldest_witness :
  now (checkRateLimit Samples.busyClient) = 60001
  /\ trace (checkRateLimit Samples.busyClient) = [EvSleep RateLimitWait 59901].
Proof.
  destruct (proj2 (checkRateLimit_waits_for_the_oldest Samples.busyClient)
                  1 (map Z.of_nat (seq 2 59)) eq_refl)
    as (_ & N & Tr & _).
  - cbn. lia.
  - split; [exact N | exact Tr].
Defined.



Section Runs.
Context {T : Type}.
Variable config : Config.
Variable authNet : nat -> AuthOutcome.
Variable apiNet : nat -> HttpRequest -> ApiOutcome T.
Variables (timeout maxRetries baseRetryDelay : Z).
Variables (method endpoint : string) (body : option (list (string * string))).
Implicit Types (w : World T) (evs : list (Event T)).

Lemma retryWaits_app evs1 evs2 :
  retryWaits (evs1 ++ evs2) = retryWaits evs1 ++ retryWaits evs2.
Proof. unfold retryWaits. apply flat_map_app. Qed.

Lemma retryWaits_length evs : List.length (retryWaits evs) = retrySleeps evs.
Proof.
  unfold retrySleeps. induction evs as [|e evs IH]; [reflexivity|].
  destruct e as [| a o | [] ms]; simpl; auto.
Qed.

Lemma retryWaits_none evs : retrySleeps evs = 0%nat -> retryWaits evs = [].
Proof.
  intros H. rewrite <- retryWaits_length in H.
  now destruct (retryWaits evs).
Qed.

Lemma apiCalls_le_attempts evs : (apiCalls evs <= attempts evs)%nat.
Proof.
  unfold apiCalls, attempts. induction evs as [|e evs IH]; simpl; [lia|].
  destruct e as [| a [r | x | x] | site ms]; simpl; lia.
Qed.

(** One pass of the loop, with the events it adds. *)
Lemma requestLoop_pass n attempt lastError w c w' evs :
  requestLoop config authNet apiNet timeout maxRetries baseRetryDelay
              method endpoint body (S n) attempt lastError w = (c, w') ->
  trace w' = trace w ++ evs ->
  exists o w1 before,
    sendAttempt config authNet apiNet method endpoint body attempt w = (o, w1)
    /\ attempts before = 0%nat /\ apiCalls before = 0%nat
    /\ retrySleeps before = 0%nat
    /\ ((afterAttempt timeout maxRetries baseRetryDelay attempt lastError o
         = Finish c
         /\ w' = w1 /\ evs = before ++ [EvAttempt attempt o])
        \/ exists wait lastError' evs',
            afterAttempt timeout maxRetries baseRetryDelay attempt lastError o
            = NextAttempt wait lastError'
            /\ requestLoop config authNet apiNet timeout maxRetries
                           baseRetryDelay method endpoint body n (attempt + 1)
                           lastError' (afterWait wait w1) = (c, w')
            /\ trace w' = trace (afterWait wait w1) ++ evs'
            /\ evs = before ++ [EvAttempt attempt o] ++ waitEvents wait ++ evs').
Proof.
  intros H E. simpl in H.
  destruct (sendAttempt _ _ _ _ _ _ _ w) as [o w1] eqn:SA.
  destruct (sendAttempt_trace _ _ _ _ _ _ _ _ _ _ SA)
    as (before & E0 & A0 & C0 & S0).
  exists o, w1, before. repeat (split; [assumption || reflexivity|]).
  destruct (afterAttempt _ _ _ _ _ o) as [c0 | wait le].
  - left. inversion H; subst. split; [reflexivity|]. split; [reflexivity|].
    rewrite E0 in E. now apply app_inv_head in E.
  - right.
    assert (H' : requestLoop config authNet apiNet timeout maxRetries
                             baseRetryDelay method endpoint body n (attempt + 1)
                             le (afterWait wait w1) = (c, w'))
      by (destruct wait as [[site ms]|]; exact H).
    destruct (requestLoop_trace _ _ _ _ _ _ _ _ _ _ _ _ _ _ _ H') as (evs' & E').
    exists wait, le, evs'. repeat (split; [assumption || reflexivity|]).
    assert (Tw : trace (afterWait wait w1) = trace w1 ++ waitEvents wait).
    { destruct wait as [[site ms]|]; simpl; [reflexivity|].
      now rewrite app_nil_r. }
    rewrite Tw, E0, <- !app_assoc in E'. rewrite E in E'.
    now apply app_inv_head in E'.
Qed.

(** A wait decided by a pass is a backoff delay, and there is a pass left. *)
Lemma afterAttempt_wait attempt lastError (o : AttemptOutcome T) site ms le :
  afterAttempt timeout maxRetries baseRetryDelay attempt lastError o
  = NextAttempt (Some (site, ms)) le ->
  attempt < maxRetries /\ site <> RateLimitWait
  /\ ms = getBackoffDelay attempt baseRetryDelay.
Proof.
  assert (C : forall e, @onCatch T timeout maxRetries baseRetryDelay attempt e
                        = NextAttempt (Some (site, ms)) le ->
                        attempt < maxRetries /\ site <> RateLimitWait
                        /\ ms = getBackoffDelay attempt baseRetryDelay).
  { intros e. unfold onCatch.
    destruct (isTypeError e); cbn [andb].
    - destruct (Z.ltb_spec attempt maxRetries) as [L | L]; intros E.
      + injection E as <- <- _. repeat split; auto. discriminate.
      + destruct e; try discriminate E. destruct (negb _); discriminate E.
    - intros E. destruct e; try discriminate E.
      destruct (negb _); discriminate E. }
  intros H. destruct o as [r | e | e]; try (now apply (C e)).
  destruct site.
  - unfold afterAttempt in H.
    destruct (negb (ok r)); [|discriminate H].
    destruct (_ && _)%bool; [discriminate H|].
    destruct (_ && _)%bool; [discriminate H|].
    now apply (C (apiErrorOf r)).
  - unfold afterAttempt in H.
    destruct (negb (ok r)); [|discriminate H].
    destruct (isRetryableError (status r) None && (attempt <? maxRetries))%bool
      eqn:B.
    + apply andb_prop in B as [_ B]. apply Z.ltb_lt in B.
      injection H as <- _. repeat split; auto. discriminate.
    + destruct (_ && _ && _)%bool; [discriminate H|].
      now apply (C (apiErrorOf r)).
  - now apply retry_after_branch_unreachable in H.
  - unfold afterAttempt in H.
    destruct (negb (ok r)); [|discriminate H].
    destruct (_ && _)%bool; [discriminate H|].
    destruct (_ && _)%bool; [discriminate H|].
    now apply (C (apiErrorOf r)).
Qed.


Lemma no_attempt_before evs attempt (o : AttemptOutcome T) :
  attempts evs = 0%nat -> ~ In (EvAttempt attempt o) evs.
Proof.
  unfold attempts. induction evs as [|e evs IH]; simpl; [tauto|].
  destruct e as [| a o' | site ms]; simpl; try discriminate;
    intros H [E | I]; try discriminate E; now apply IH.
Qed.

Lemma no_attempt_in_wait wait attempt (o : AttemptOutcome T) :
  ~ In (EvAttempt attempt o) (waitEvents wait).
Proof. destruct wait as [[site ms]|]; simpl; intuition discriminate. Qed.

Lemma retryWaits_wait site ms :
  site <> RateLimitWait -> retryWaits (T := T) [EvSleep site ms] = [ms].
Proof. destruct site; simpl; congruence. Qed.

Lemma nothing_added w evs : trace w = trace w ++ evs -> evs = [].
Proof.
  intros E. rewrite <- (app_nil_r (trace w)) in E at 1.
  apply app_inv_head in E. now symmetry.
Qed.

(** However the passes end, there are at most [remaining] of them, and the
    waits between them are backoff delays of passes that are not the last. *)
Lemma requestLoop_bounded n :
  forall attempt lastError w c w' evs,
    requestLoop config authNet apiNet timeout maxRetries baseRetryDelay
                method endpoint body n attempt lastError w = (c, w') ->
    trace w' = trace w ++ evs ->
    (attempts evs <= n)%nat
    /\ (List.length (retryWaits evs) <= Z.to_nat (maxRetries - attempt))%nat
    /\ Forall (fun ms => exists a, attempt <= a < maxRetries
                                   /\ ms = getBackoffDelay a baseRetryDelay)
              (retryWaits evs).
Proof.
  induction n as [|n IH]; intros attempt lastError w c w' evs H E.
  - simpl in H. inversion H; subst. apply nothing_added in E. subst evs.
    split; [cbn; lia|]. split; [cbn; lia | constructor].
  - destruct (requestLoop_pass _ _ _ _ _ _ _ H E)
      as (o & w1 & before & SA & A0 & C0 & S0
          & [(F & -> & ->) | (wait & le' & evs' & F & L & E' & ->)]).
    + rewrite attempts_app, retryWaits_app, (retryWaits_none _ S0), A0.
      cbn. split; [lia|]. split; [lia | constructor].
    + destruct (IH _ _ _ _ _ _ L E') as (A & W & Fa).
      rewrite !attempts_app, !retryWaits_app, (retryWaits_none _ S0), A0.
      assert (Fa' : Forall (fun ms => exists a, attempt <= a < maxRetries
                                      /\ ms = getBackoffDelay a baseRetryDelay)
                           (retryWaits evs')).
      { eapply Forall_impl; [|exact Fa]. cbn. intros ms (a & Ha & ->).
        exists a. split; [lia | reflexivity]. }
      destruct wait as [[site ms]|]; cbn [waitEvents].
      * destruct (afterAttempt_wait _ _ _ _ _ _ F) as (Lt & Ns & ->).
        rewrite (retryWaits_wait _ _ Ns). cbn.
        split; [lia|]. split; [lia|].
        constructor; [|exact Fa']. exists attempt. split; [lia | reflexivity].
      * cbn. split; [lia|]. split; [lia | exact Fa'].
Qed.

(** A pass ends [request] with a value only on a response that is [ok]. *)
Lemma afterAttempt_returns attempt lastError (o : AttemptOutcome T) d :
  afterAttempt timeout maxRetries baseRetryDelay attempt lastError o
  = Finish (Return d) ->
  exists r, o = Responded r /\ ok r = true /\ responseData r = d.
Proof.
  assert (C : forall e, @onCatch T timeout maxRetries baseRetryDelay attempt e
                        <> Finish (Return d)).
  { intros e. unfold onCatch. destruct (_ && _)%bool; [discriminate|].
    destruct e; try discriminate. destruct (negb _); discriminate. }
  intros H. destruct o as [r | e | e]; try (now apply C in H).
  unfold afterAttempt in H. destruct (ok r) eqn:Ok; cbn [negb] in H.
  - injection H as <-. now exists r.
  - destruct (_ && (attempt <? maxRetries))%bool; [discriminate H|].
    destruct (_ && _ && _)%bool; [discriminate H|]. now apply C in H.
Qed.

Lemma afterAttempt_goes_on attempt lastError (o : AttemptOutcome T) wait le :
  afterAttempt timeout maxRetries baseRetryDelay attempt lastError o
  = NextAttempt wait le ->
  match o with Responded r => ok r = false | _ => True end.
Proof.
  destruct o as [r | e | e]; auto. unfold afterAttempt.
  destruct (ok r); [discriminate | reflexivity].
Qed.

Lemma requestLoop_returns n :
  forall attempt lastError w d w' evs,
    requestLoop config authNet apiNet timeout maxRetries baseRetryDelay
                method endpoint body n attempt lastError w = (Return d, w') ->
    trace w' = trace w ++ evs ->
    exists earlier a r,
      evs = earlier ++ [EvAttempt a (Responded r)]
      /\ ok r = true /\ responseData r = d
      /\ forall a' r', In (EvAttempt a' (Responded r')) earlier -> ok r' = false.
Proof.
  induction n as [|n IH]; intros attempt lastError w d w' evs H E.
  - simpl in H. discriminate H.
  - destruct (requestLoop_pass _ _ _ _ _ _ _ H E)
      as (o & w1 & before & SA & A0 & C0 & S0
          & [(F & -> & ->) | (wait & le' & evs' & F & L & E' & ->)]).
    + destruct (afterAttempt_returns _ _ _ _ F) as (r & -> & Ok & D).
      exists before, attempt, r. repeat split; auto.
      intros a' r' I. now apply no_attempt_before in I.
    + destruct (IH _ _ _ _ _ _ L E') as (earlier & a & r & -> & Ok & D & All).
      exists (before ++ [EvAttempt attempt o] ++ waitEvents wait ++ earlier), a, r.
      split; [now rewrite <- !app_assoc|]. repeat split; auto.
      intros a' r' I. apply in_app_or in I as [I | I];
        [now apply no_attempt_before in I|].
      apply in_app_or in I as [[I | []] | I].
      * injection I as _ ->. exact (afterAttempt_goes_on _ _ _ _ _ F).
      * apply in_app_or in I as [I | I];
          [now apply no_attempt_in_wait in I | eauto].
Qed.


Lemma afterAttempt_skipped attempt lastError (o : AttemptOutcome T) :
  skipped o = true ->
  afterAttempt timeout maxRetries baseRetryDelay attempt lastError o
  = NextAttempt None (Some (thrownFor timeout o)).
Proof.
  destruct o as [r | e | e]; cbn [skipped]; try discriminate;
    destruct e; cbn; try discriminate; reflexivity.
Qed.

Lemma afterAttempt_retryable_last attempt lastError (o : AttemptOutcome T) :
  retryable o = true -> maxRetries <= attempt ->
  afterAttempt timeout maxRetries baseRetryDelay attempt lastError o
  = NextAttempt None (Some (thrownFor timeout o)).
Proof.
  intros R L. apply Z.ltb_ge in L.
  destruct o as [r | e | e]; cbn [retryable] in R.
  - apply andb_prop in R as [Ok Re]. unfold afterAttempt.
    rewrite Ok, Re, L, !andb_false_r. unfold onCatch, apiErrorOf.
    cbn [isAbortError isTypeError andb]. now rewrite Re.
  - destruct e; try discriminate R. cbn. unfold onCatch.
    cbn [isAbortError isTypeError andb]. now rewrite L.
  - destruct e; try discriminate R. cbn. unfold onCatch.
    cbn [isAbortError isTypeError andb]. now rewrite L.
Qed.

Lemma afterAttempt_retryable_more attempt lastError (o : AttemptOutcome T) :
  retryable o = true -> attempt < maxRetries ->
  exists site le,
    site <> RateLimitWait
    /\ afterAttempt timeout maxRetries baseRetryDelay attempt lastError o
       = NextAttempt (Some (site, getBackoffDelay attempt baseRetryDelay)) le.
Proof.
  intros R L. apply Z.ltb_lt in L.
  destruct o as [r | e | e]; cbn [retryable] in R.
  - apply andb_prop in R as [Ok Re]. unfold afterAttempt.
    rewrite Ok, Re, L. cbn [andb].
    exists HttpRetryBackoff, lastError. split; [discriminate | reflexivity].
  - destruct e; try discriminate R. cbn. unfold onCatch.
    cbn [isAbortError isTypeError andb]. rewrite L.
    do 2 eexists. split; [|reflexivity]. discriminate.
  - destruct e; try discriminate R. cbn. unfold onCatch.
    cbn [isAbortError isTypeError andb]. rewrite L.
    do 2 eexists. split; [|reflexivity]. discriminate.
Qed.

Lemma in_this_pass (x : Event T) before wait evs' :
  In x (before ++ [x] ++ waitEvents wait ++ evs').
Proof. apply in_or_app. right. now left. Qed.

Lemma in_later_pass (e x : Event T) before wait evs' :
  In e evs' -> In e (before ++ [x] ++ waitEvents wait ++ evs').
Proof.
  intros I. apply in_or_app. right. simpl. right. apply in_or_app. now right.
Qed.

Lemma exhausted_next n attempt lastError (o : AttemptOutcome T) before wait evs' c :
  attempt + Z.of_nat (S n) = maxRetries + 1 ->
  exhausted timeout maxRetries n (Some (thrownFor timeout o)) evs' c ->
  exhausted timeout maxRetries (S n) lastError
            (before ++ [EvAttempt attempt o] ++ waitEvents wait ++ evs') c.
Proof.
  intros N [(-> & ->) | (o' & I & ->)]; right.
  - exists o. split; [|reflexivity].
    replace maxRetries with attempt by lia. apply in_this_pass.
  - exists o'. split; [|reflexivity]. now apply in_later_pass.
Qed.

Lemma requestLoop_skipped n :
  forall attempt lastError w c w' evs,
    attempt + Z.of_nat n = maxRetries + 1 ->
    requestLoop config authNet apiNet timeout maxRetries baseRetryDelay
                method endpoint body n attempt lastError w = (c, w') ->
    trace w' = trace w ++ evs ->
    (forall a o, In (EvAttempt a o) evs -> skipped o = true) ->
    attempts evs = n /\ retryWaits evs = []
    /\ exhausted timeout maxRetries n lastError evs c.
Proof.
  induction n as [|n IH]; intros attempt lastError w c w' evs N H E All.
  - simpl in H. inversion H; subst. apply nothing_added in E. subst evs.
    repeat split. left. now split.
  - destruct (requestLoop_pass _ _ _ _ _ _ _ H E)
      as (o & w1 & before & SA & A0 & C0 & S0
          & [(F & -> & ->) | (wait & le' & evs' & F & L & E' & ->)]).
    + rewrite afterAttempt_skipped in F; [discriminate F|].
      apply (All attempt). apply in_or_app. right. now left.
    + rewrite afterAttempt_skipped in F
        by (apply (All attempt); apply in_this_pass).
      injection F as <- <-.
      destruct (IH (attempt + 1) _ _ _ _ _ ltac:(lia) L E') as (A & W & X).
      { intros a o' I. apply (All a). now apply in_later_pass. }
      rewrite !attempts_app, !retryWaits_app, (retryWaits_none _ S0), A0, A, W.
      repeat split. now apply exhausted_next.
Qed.

Lemma requestLoop_retryable n :
  forall attempt lastError w c w' evs,
    attempt + Z.of_nat n = maxRetries + 1 ->
    requestLoop config authNet apiNet timeout maxRetries baseRetryDelay
                method endpoint body n attempt lastError w = (c, w') ->
    trace w' = trace w ++ evs ->
    (forall a o, In (EvAttempt a o) evs -> retryable o = true) ->
    attempts evs = n
    /\ retryWaits evs = backoffFrom baseRetryDelay attempt (Nat.pred n)
    /\ exhausted timeout maxRetries n lastError evs c.
Proof.
  induction n as [|n IH]; intros attempt lastError w c w' evs N H E All.
  - simpl in H. inversion H; subst. apply nothing_added in E. subst evs.
    repeat split. left. now split.
  - destruct (requestLoop_pass _ _ _ _ _ _ _ H E)
      as (o & w1 & before & SA & A0 & C0 & S0
          & [(F & -> & ->) | (wait & le' & evs' & F & L & E' & ->)]).
    + assert (R : retryable o = true)
        by (apply (All attempt); apply in_or_app; right; now left).
      destruct (Z.lt_ge_cases attempt maxRetries) as [Lt | Ge].
      * destruct (afterAttempt_retryable_more attempt lastError o R Lt)
          as (site & le & _ & F').
        rewrite F' in F. discriminate F.
      * rewrite (afterAttempt_retryable_last attempt lastError o R Ge) in F.
        discriminate F.
    + assert (R : retryable o = true)
        by (apply (All attempt); apply in_this_pass).
      assert (All' : forall a o', In (EvAttempt a o') evs' -> retryable o' = true).
      { intros a o' I. apply (All a). now apply in_later_pass. }
      rewrite !attempts_app, !retryWaits_app, (retryWaits_none _ S0), A0.
      destruct n as [|n].
      * rewrite (afterAttempt_retryable_last attempt lastError o R) in F by lia.
        injection F as <- <-.
        destruct (IH (attempt + 1) _ _ _ _ _ ltac:(lia) L E' All')
          as (A & W & X).
        rewrite A, W. repeat split. now apply exhausted_next.
      * destruct (afterAttempt_retryable_more attempt lastError o R)
          as (site & le & Ns & F'); [lia|].
        rewrite F' in F. injection F as <- <-.
        destruct (IH (attempt + 1) _ _ _ _ _ ltac:(lia) L E' All')
          as (A & W & X).
        cbn [waitEvents]. rewrite (retryWaits_wait _ _ Ns), A, W.
        split; [reflexivity|]. split; [reflexivity|].
        destruct X as [(Z0 & _) | (o' & I & ->)]; [discriminate Z0|].
        right. exists o'. split; [|reflexivity].
        now apply (in_later_pass _ _ _ (Some (site, _))).
Qed.

End Runs.


(** X4: whatever the vendor and the credential exchange do, one call of
    [request] makes at most [maxRetries + 1] passes, sends at most one API
    call per pass, waits between passes at most [maxRetries] times, and
    every such wait is the backoff delay of a pass that is not the last,
    so never longer than 30 s. *)
Theorem request_effort_is_bounded {T} config authNet
        (apiNet : nat -> HttpRequest -> ApiOutcome T)
        method endpoint body options (w : World T) :
  let evs :=
    eventsSince w (snd (request config authNet apiNet method endpoint body
                                options w)) in
  (attempts evs <= Z.to_nat (maxRetriesOf options + 1))%nat
  /\ (apiCalls evs <= attempts evs)%nat
  /\ (List.length (retryWaits evs) <= Z.to_nat (maxRetriesOf options))%nat
  /\ Forall (fun ms =>
               ms <= 30000
               /\ exists attempt,
                   0 <= attempt < maxRetriesOf options
                   /\ ms = getBackoffDelay attempt (baseRetryDelayOf options))
            (retryWaits evs).
Proof.
  destruct (request config authNet apiNet method endpoint body options w)
    as [c w'] eqn:H.
  cbn [snd]. unfold request in H.
  destruct (requestLoop_trace _ _ _ _ _ _ _ _ _ _ _ _ _ _ _ H) as (evs & E).
  rewrite (eventsSince_app _ _ _ E).
  destruct (requestLoop_bounded _ _ _ _ _ _ _ _ _ _ _ _ _ _ _ _ H E)
    as (A & W & F).
  split; [exact A|]. split; [apply apiCalls_le_attempts|].
  split; [now rewrite Z.sub_0_r in W|].
  eapply Forall_impl; [|exact F]. cbn. intros ms (a & Ha & ->).
  split; [apply Z.le_min_r|]. now exists a.
Qed.

(** X5: [request] returns a value only when the last pass received a
    response with a 2xx status; the value is the parsed body of that
    response, and every response received by an earlier pass of the call
    was not [ok]. *)
Theorem request_returns_the_ok_response {T} config authNet
        (apiNet : nat -> HttpRequest -> ApiOutcome T)
        method endpoint body options (w : World T) d w' :
  request config authNet apiNet method endpoint body options w = (Return d, w') ->
  exists earlier attempt r,
    eventsSince w w' = earlier ++ [EvAttempt attempt (Responded r)]
    /\ 200 <= status r <= 299 /\ responseData r = d
    /\ forall attempt' r',
        In (EvAttempt attempt' (Responded r')) earlier -> ok r' = false.
Proof.
  intros H. unfold request in H.
  destruct (requestLoop_trace _ _ _ _ _ _ _ _ _ _ _ _ _ _ _ H) as (evs & E).
  rewrite (eventsSince_app _ _ _ E).
  destruct (requestLoop_returns _ _ _ _ _ _ _ _ _ _ _ _ _ _ _ _ H E)
    as (earlier & a & r & -> & Ok & D & All).
  exists earlier, a, r. repeat split; auto;
    unfold ok in Ok; apply andb_prop in Ok as [Lo Hi]; lia.
Qed.

(** A vendor that fails once with a 500 and then answers. *)
Lemma request_returns_the_ok_response_witness :
  let w := newClient 0 in
  let run := request Samples.sampleConfig Samples.authAlwaysOk
                     (Samples.apiOnceThenOk Samples.internalError "pong")
                     "GET" "/api/test" None noOptions w in
  fst run = Return "pong"
  /\ exists earlier attempt r,
      eventsSince w (snd run) = earlier ++ [EvAttempt attempt (Responded r)]
      /\ 200 <= status r <= 299.
Proof.
  intros w run. split; [reflexivity|].
  destruct (request_returns_the_ok_response
              Samples.sampleConfig Samples.authAlwaysOk
              (Samples.apiOnceThenOk Samples.internalError "pong")
              "GET" "/api/test" None noOptions w "pong" (snd run))
    as (earlier & a & r & E & S & _).
  - vm_compute. reflexivity.
  - exists earlier, a, r. split; [exact E | exact S].
Defined.

(** X6: when every pass of a call ends in an exception that is neither a
    [TypeError] nor a [SkyTabApiError] (the timeout's abort, a body that
    does not parse, a failed credential exchange), [request] makes all
    [1 + maxRetries] passes one after the other without any wait between
    them, and then throws the error of the last pass, a timeout as
    [SkyTabApiError] with code [TIMEOUT] and status 408. *)
Theorem passed_over_errors_use_every_pass {T} config authNet
        (apiNet : nat -> HttpRequest -> ApiOutcome T)
        method endpoint body options (w : World T) c w' :
  0 <= maxRetriesOf options ->
  request config authNet apiNet method endpoint body options w = (c, w') ->
  (forall attempt o,
      In (EvAttempt attempt o) (eventsSince w w') -> skipped o = true) ->
  attempts (eventsSince w w') = Z.to_nat (1 + maxRetriesOf options)
  /\ retryWaits (eventsSince w w') = []
  /\ exists o,
      In (EvAttempt (maxRetriesOf options) o) (eventsSince w w')
      /\ c = Throw (thrownFor (timeoutOf options) o).
Proof.
  intros Hm H All. unfold request in H.
  destruct (requestLoop_trace _ _ _ _ _ _ _ _ _ _ _ _ _ _ _ H) as (evs & E).
  rewrite (eventsSince_app _ _ _ E) in *.
  assert (N : 0 + Z.of_nat (Z.to_nat (maxRetriesOf options + 1))
               = maxRetriesOf options + 1) by lia.
  destruct (requestLoop_skipped _ _ _ _ _ _ _ _ _ _ _ _ _ _ _ _ N H E All)
    as (A & W & [(Z0 & _) | X]); [lia|].
  replace (1 + maxRetriesOf options) with (maxRetriesOf options + 1) by lia.
  auto.
Qed.

(** Every call times out, default options: four passes, no wait, and the
    timeout error of 30 s. *)
Lemma passed_over_errors_use_every_pass_witness :
  let w := newClient 0 in
  let run := request Samples.sampleConfig Samples.authAlwaysOk
                     (@Samples.apiTimesOut string)
                     "GET" "/api/test" None noOptions w in
  attempts (eventsSince w (snd run)) = 4%nat
  /\ retryWaits (eventsSince w (snd run)) = []
  /\ fst run = Throw (SkyTabApiError "Request timeout after 30000ms"
                                     "TIMEOUT" 408 None).
Proof.
  intros w run.
  destruct (passed_over_errors_use_every_pass
              Samples.sampleConfig Samples.authAlwaysOk
              (@Samples.apiTimesOut string)
              "GET" "/api/test" None noOptions w (fst run) (snd run))
    as (A & W & o & Hin & Hc).
  - vm_compute. discriminate.
  - vm_compute. reflexivity.
  - intros attempt o Hin. vm_compute in Hin.
    repeat (destruct Hin as [Hin | Hin];
            [ try discriminate Hin; injection Hin as <- <-; reflexivity | ]).
    destruct Hin.
  - split; [exact A|]. split; [exact W|].
    vm_compute in Hin.
    repeat (destruct Hin as [Hin | Hin];
            [ try discriminate Hin; try (injection Hin as <-; exact Hc) | ]).
    destruct Hin.
Defined.

(** X7: when every pass of a call fails in a way the loop retries (a 5xx
    or 429 response, or a [TypeError] from [fetch]), [request] makes all
    [1 + maxRetries] passes, waits after each pass but the last for that
    pass's backoff delay (1 s, 2 s and 4 s with the default options), and
    then throws the error of the last pass. *)
Theorem retried_failures_follow_the_backoff {T} config authNet
        (apiNet : nat -> HttpRequest -> ApiOutcome T)
        method endpoint body options (w : World T) c w' :
  0 <= maxRetriesOf options ->
  request config authNet apiNet method endpoint body options w = (c, w') ->
  (forall attempt o,
      In (EvAttempt attempt o) (eventsSince w w') -> retryable o = true) ->
  attempts (eventsSince w w') = Z.to_nat (1 + maxRetriesOf options)
  /\ retryWaits (eventsSince w w')
     = backoffFrom (baseRetryDelayOf options) 0 (Z.to_nat (maxRetriesOf options))
  /\ (options = noOptions ->
      retryWaits (eventsSince w w') = [1000; 2000; 4000])
  /\ exists o,
      In (EvAttempt (maxRetriesOf options) o) (eventsSince w w')
      /\ c = Throw (thrownFor (timeoutOf options) o).
Proof.
  intros Hm H All. unfold request in H.
  destruct (requestLoop_trace _ _ _ _ _ _ _ _ _ _ _ _ _ _ _ H) as (evs & E).
  rewrite (eventsSince_app _ _ _ E) in *.
  assert (N : 0 + Z.of_nat (Z.to_nat (maxRetriesOf options + 1))
               = maxRetriesOf options + 1) by lia.
  destruct (requestLoop_retryable _ _ _ _ _ _ _ _ _ _ _ _ _ _ _ _ N H E All)
    as (A & W & [(Z0 & _) | X]); [lia|].
  replace (Nat.pred (Z.to_nat (maxRetriesOf options + 1)))
    with (Z.to_nat (maxRetriesOf options)) in W by lia.
  replace (1 + maxRetriesOf options) with (maxRetriesOf options + 1) by lia.
  split; [exact A|]. split; [exact W|]. split; [|exact X].
  intros ->. exact W.
Qed.

(** The vendor that always answers 500, with the test suite's base delay
    of 10 ms: four passes and waits of 10, 20 and 40 ms. *)
Lemma retried_failures_follow_the_backoff_witness :
  let w := newClient 0 in
  let options := {| timeout := None; retries := None; retryDelay := Some 10 |} in
  let run := request Samples.sampleConfig Samples.authAlwaysOk
                     (Samples.apiAlways Samples.internalError)
                     "GET" "/api/test" None options w in
  attempts (eventsSince w (snd run)) = 4%nat
  /\ retryWaits (eventsSince w (snd run)) = [10; 20; 40].
Proof.
  intros w options run.
  destruct (retried_failures_follow_the_backoff
              Samples.sampleConfig Samples.authAlwaysOk
              (Samples.apiAlways Samples.internalError)
              "GET" "/api/test" None options w (fst run) (snd run))
    as (A & W & _).
  - vm_compute. discriminate.
  - vm_compute. reflexivity.
  - intros attempt o Hin. vm_compute in Hin.
    repeat (destruct Hin as [Hin | Hin];
            [ try discriminate Hin; injection Hin as <- <-; reflexivity | ]).
    destruct Hin.
  - split; [exact A | exact W].
Defined.

End ClientExtras.

Module WebhookExtras.
Import Js Prisma SkyTabWebhook PosRoutes DbObservations.
Local Open Scope prisma_scope.

(** *** Signature check *)

(** X8: [verifySignature] accepts every signature when no webhook secret
    is configured (or the configured one is empty); with a secret, and
    Node's [timingSafeEqual], it accepts a signature exactly when the bytes
    it decodes to as hexadecimal are the bytes the expected HMAC decodes
    to. *)
Theorem signature_check_compares_bytes crypto payload signature :
  (truthyOpt (SKYTAB_WEBHOOK_SECRET crypto) = false ->
   verifySignature crypto payload signature = true)
  /\ (forall secret,
        SKYTAB_WEBHOOK_SECRET crypto = Some secret -> truthy secret = true ->
        timingSafeEqual crypto = nodeTimingSafeEqual ->
        (verifySignature crypto payload signature = true
         <-> bufferFromHex signature
             = bufferFromHex (hmacSha256Hex crypto secret payload))).
Proof.
  split.
  - intros S. unfold verifySignature. now rewrite S.
  - intros secret Hs Ht Hc. unfold verifySignature.
    rewrite Hs, Hc. cbn [truthyOpt]. rewrite Ht. cbn [negb].
    unfold nodeTimingSafeEqual.
    destruct (Nat.eqb _ _) eqn:L; cbn [negb].
    + apply WebhookRouteSpec.bytesEqb_eq.
    + split; [discriminate|]. intros E. rewrite E, Nat.eqb_refl in L.
      discriminate L.
Qed.

(** *** What a delivery leaves alone *)

Section Steps.
Variable Rd : Db -> Db -> Prop.
Hypothesis Rd_refl : forall d, Rd d d.
Hypothesis Rd_trans : forall d1 d2 d3, Rd d1 d2 -> Rd d2 d3 -> Rd d1 d3.

Lemma stepW_refl w : stepW Rd w w.
Proof using Rd_refl. unfold stepW. auto. Qed.

Lemma stepW_trans w1 w2 w3 : stepW Rd w1 w2 -> stepW Rd w2 w3 -> stepW Rd w1 w3.
Proof using Rd_trans.
  unfold stepW. intros (C1 & P1 & D1) (C2 & P2 & D2).
  rewrite C2, P2. eauto.
Qed.

Lemma prisma_step {A} (call : Db -> Completion A * Db) :
  (forall d c d', call d = (c, d') -> Rd d d') ->
  forall w c w', prisma call w = (c, w') -> stepW Rd w w'.
Proof using Rd_refl.
  intros Hc w c w' H. unfold prisma in H. unfold stepW.
  destruct (faults w) as [|[|] rest]; try destruct (call (db w)) eqn:E;
    inversion H; subst; cbn; eauto.
Qed.

End Steps.

Lemma extended_refl {R} (rows : list R) : extended rows rows.
Proof. exists []. now rewrite app_nil_r. Qed.

Lemma extended_trans {R} (a b c : list R) :
  extended a b -> extended b c -> extended a c.
Proof. intros (x & ->) (y & ->). exists (x ++ y). now rewrite app_assoc. Qed.

Lemma extended_by {R} (rows added : list R) : extended rows (rows ++ added).
Proof. now exists added. Qed.

Lemma webhookFrame_refl d : webhookFrame d d.
Proof. unfold webhookFrame. repeat split; auto using extended_refl. Qed.

Lemma webhookFrame_trans d1 d2 d3 :
  webhookFrame d1 d2 -> webhookFrame d2 d3 -> webhookFrame d1 d3.
Proof.
  unfold webhookFrame.
  intros (A1 & B1 & C1 & D1 & E1 & F1 & G1 & H1)
         (A2 & B2 & C2 & D2 & E2 & F2 & G2 & H2).
  rewrite A2, B2, C2, D2, E2, F2. repeat split; eauto using extended_trans.
Qed.

Lemma keepsWellFormed_refl d : keepsWellFormed d d.
Proof. unfold keepsWellFormed. auto. Qed.

Lemma keepsWellFormed_trans d1 d2 d3 :
  keepsWellFormed d1 d2 -> keepsWellFormed d2 d3 -> keepsWellFormed d1 d3.
Proof. unfold keepsWellFormed. auto. Qed.

Lemma delivered_refl d : delivered d d.
Proof. split; [apply webhookFrame_refl | apply keepsWellFormed_refl]. Qed.

Lemma delivered_trans d1 d2 d3 :
  delivered d1 d2 -> delivered d2 d3 -> delivered d1 d3.
Proof.
  intros [F1 K1] [F2 K2].
  split; [eapply webhookFrame_trans | eapply keepsWellFormed_trans]; eauto.
Qed.

Lemma updateMany_keeps_key {R K} (key : R -> K) where_ data (rows : list R) :
  (forall r, key (data r) = key r) ->
  map key (updateMany where_ data rows) = map key rows.
Proof.
  intros Hk. unfold updateMany. rewrite map_map. apply map_ext.
  intros r. destruct (where_ r); auto.
Qed.

Lemma updateMany_keeps_all {R} (P : R -> Prop) where_ data (rows : list R) :
  (forall r, P r -> P (data r)) ->
  Forall P rows -> Forall P (updateMany where_ data rows).
Proof.
  intros Hd F. unfold updateMany. apply Forall_map.
  eapply Forall_impl; [|exact F]. cbn. intros r Hr.
  destruct (where_ r); auto.
Qed.

Lemma update_cases {R} (where_ : R -> bool) data rows c rows' :
  update where_ data rows = (c, rows') ->
  rows' = rows \/ rows' = updateMany where_ data rows.
Proof.
  unfold update. destruct (existsb where_ rows); intros H; inversion H; auto.
Qed.

Lemma setOrders_delivered rows d :
  map orderId rows = map orderId (orders d) ->
  (Forall (fun o => In (orderStatus o) localOrderStatuses) (orders d) ->
   Forall (fun o => In (orderStatus o) localOrderStatuses) rows) ->
  delivered d (setOrders (fun _ => rows) d).
Proof.
  intros K P. split.
  - unfold webhookFrame. cbn. repeat split; auto using extended_refl.
  - intros [O I]. split; cbn; auto.
Qed.

Lemma setMenuItems_delivered rows d :
  map (fun i => (menuItemId i, posItemId i)) rows
  = map (fun i => (menuItemId i, posItemId i)) (menuItems d) ->
  (Forall (fun i => is86ed i = negb (isAvailable i)) (menuItems d) ->
   Forall (fun i => is86ed i = negb (isAvailable i)) rows) ->
  delivered d (setMenuItems (fun _ => rows) d).
Proof.
  intros K P. split.
  - unfold webhookFrame. cbn. repeat split; auto using extended_refl.
  - intros [O I]. split; cbn; auto.
Qed.

Lemma setMenus_delivered rows d :
  map menuLocationId rows = map menuLocationId (menus d) ->
  delivered d (setMenus (fun _ => rows) d).
Proof.
  intros K. split.
  - unfold webhookFrame. cbn. repeat split; auto using extended_refl.
  - intros [O I]. split; cbn; auto.
Qed.

Lemma setAuditLogs_delivered added d :
  delivered d (setAuditLogs (fun a => a ++ added) d).
Proof.
  split.
  - unfold webhookFrame. cbn.
    repeat split; auto using extended_refl, extended_by.
  - intros [O I]. split; cbn; auto.
Qed.

Lemma setOrderStatusHistories_delivered added d :
  delivered d (setOrderStatusHistories (fun h => h ++ added) d).
Proof.
  split.
  - unfold webhookFrame. cbn.
    repeat split; auto using extended_refl, extended_by.
  - intros [O I]. split; cbn; auto.
Qed.

Lemma mapped_status_is_local s :
  In (mapSkyTabStatusToOrderStatus s) localOrderStatuses.
Proof.
  unfold mapSkyTabStatusToOrderStatus, localOrderStatuses.
  repeat match goal with
         | |- context [if ?b then _ else _] => destruct b
         end; cbn; tauto.
Qed.

Lemma read_step {A} (read : Db -> A) w c w' :
  prisma (fun t => (Return (read t), t)) w = (c, w') -> stepW delivered w w'.
Proof.
  apply (prisma_step _ delivered_refl). intros d c0 d' E.
  injection E as _ <-. apply delivered_refl.
Qed.

Lemma orders_update_step key data :
  (forall o, orderId (data o) = orderId o) ->
  (forall o, In (orderStatus o) localOrderStatuses ->
             In (orderStatus (data o)) localOrderStatuses) ->
  forall w (c : Completion unit) w',
    prisma (fun t => let (c0, rows) := update key data (orders t) in
                     (c0, setOrders (fun _ => rows) t)) w = (c, w') ->
    stepW delivered w w'.
Proof.
  intros K P. apply (prisma_step _ delivered_refl). intros d c d' E.
  destruct (update key data (orders d)) as [c0 rows] eqn:U.
  injection E as _ <-. apply update_cases in U as [-> | ->];
    apply setOrders_delivered; auto.
  - now apply updateMany_keeps_key.
  - now apply updateMany_keeps_all.
Qed.

Lemma menuItems_update_step key data :
  (forall i, menuItemId (data i) = menuItemId i /\ posItemId (data i) = posItemId i) ->
  (forall i, is86ed i = negb (isAvailable i) ->
             is86ed (data i) = negb (isAvailable (data i))) ->
  forall w (c : Completion unit) w',
    prisma (fun t => let (c0, rows) := update key data (menuItems t) in
                     (c0, setMenuItems (fun _ => rows) t)) w = (c, w') ->
    stepW delivered w w'.
Proof.
  intros K P. apply (prisma_step _ delivered_refl). intros d c d' E.
  destruct (update key data (menuItems d)) as [c0 rows] eqn:U.
  injection E as _ <-. apply update_cases in U as [-> | ->];
    apply setMenuItems_delivered; auto.
  - apply updateMany_keeps_key. intros i. destruct (K i) as [-> ->]. reflexivity.
  - now apply updateMany_keeps_all.
Qed.

Lemma menuItems_updateMany_step key data :
  (forall i, menuItemId (data i) = menuItemId i /\ posItemId (data i) = posItemId i) ->
  (forall i, is86ed i = negb (isAvailable i) ->
             is86ed (data i) = negb (isAvailable (data i))) ->
  forall w (c : Completion unit) w',
    prisma (fun t => (Return tt, setMenuItems (updateMany key data) t)) w
    = (c, w') ->
    stepW delivered w w'.
Proof.
  intros K P. apply (prisma_step _ delivered_refl). intros d c d' E.
  injection E as _ <-.
  change (setMenuItems (updateMany key data) d)
    with (setMenuItems (fun _ => updateMany key data (menuItems d)) d).
  apply setMenuItems_delivered.
  - apply updateMany_keeps_key. intros i. destruct (K i) as [-> ->]. reflexivity.
  - now apply updateMany_keeps_all.
Qed.

Lemma menus_updateMany_step key data :
  (forall m, menuLocationId (data m) = menuLocationId m) ->
  forall w (c : Completion unit) w',
    prisma (fun t => (Return tt, setMenus (updateMany key data) t)) w = (c, w') ->
    stepW delivered w w'.
Proof.
  intros K. apply (prisma_step _ delivered_refl). intros d c d' E.
  injection E as _ <-.
  change (setMenus (updateMany key data) d)
    with (setMenus (fun _ => updateMany key data (menus d)) d).
  apply setMenus_delivered. now apply updateMany_keeps_key.
Qed.

Lemma audit_append_step added w (c : Completion unit) w' :
  prisma (fun t => (Return tt, setAuditLogs (fun a => a ++ added) t)) w = (c, w') ->
  stepW delivered w w'.
Proof.
  apply (prisma_step _ delivered_refl). intros d c0 d' E.
  injection E as _ <-. apply setAuditLogs_delivered.
Qed.

Lemma history_append_step added w (c : Completion unit) w' :
  prisma (fun t => (Return tt, setOrderStatusHistories (fun h => h ++ added) t)) w
  = (c, w') ->
  stepW delivered w w'.
Proof.
  apply (prisma_step _ delivered_refl). intros d c0 d' E.
  injection E as _ <-. apply setOrderStatusHistories_delivered.
Qed.

Ltac steps :=
  repeat first
    [ apply (RetryQueueSpec.bind_respects _ (stepW_refl _ delivered_refl)
                                           (stepW_trans _ delivered_trans))
    | apply (RetryQueueSpec.tryCatch_respects _ (stepW_refl _ delivered_refl)
                                               (stepW_trans _ delivered_trans))
    | apply (RetryQueueSpec.ret_respects _ (stepW_refl _ delivered_refl)
                                          (stepW_trans _ delivered_trans))
    | apply (RetryQueueSpec.throw_respects _ (stepW_refl _ delivered_refl)
                                            (stepW_trans _ delivered_trans))
    | apply (RetryQueueSpec.getClock_respects _ (stepW_refl _ delivered_refl)
                                               (stepW_trans _ delivered_trans))
    | apply read_step
    | apply audit_append_step
    | apply history_append_step
    | apply orders_update_step;
      [ reflexivity
      | intros ? ?; cbn [orderStatus];
        first [apply mapped_status_is_local | cbn; tauto] ]
    | apply menuItems_update_step; [intros ?; split; reflexivity | cbn; auto]
    | apply menuItems_updateMany_step; [intros ?; split; reflexivity | cbn; auto]
    | apply menus_updateMany_step; reflexivity
    | match goal with
      | |- forall (a : _) (w : World), _ => intro a
      | |- _ -> forall (w : World), _ => intro
      | |- forall (w : World) c w', (match ?x with _ => _ end) w = _ -> _ =>
          destruct x
      end ].

Lemma handleStockItems_step items :
  forall w c w', handleStockItems items w = (c, w') -> stepW delivered w w'.
Proof.
  induction items as [|item rest IH]; simpl.
  - steps.
  - apply (RetryQueueSpec.bind_respects _ (stepW_refl _ delivered_refl)
                                         (stepW_trans _ delivered_trans));
      [|intros _; exact IH].
    unfold handleStockItem. steps.
Qed.

Lemma routeEvent_step p w c w' :
  routeEvent p w = (c, w') -> stepW delivered w w'.
Proof.
  revert w c w'. unfold routeEvent.
  repeat match goal with
         | |- context [if ?b then _ else _] => destruct b
         end.
  - unfold handleTicketEvent. steps.
  - unfold handleTicketCancelled. steps.
  - unfold handleMenuEvent. steps.
  - unfold handleStockEvent. apply handleStockItems_step.
  - unfold handleLocationEvent. steps.
  - steps.
Qed.

Lemma recordWebhookEvent_step id ty loc st msg w c w' :
  recordWebhookEvent id ty loc st msg w = (c, w') -> stepW delivered w w'.
Proof. revert w c w'. unfold recordWebhookEvent. steps. Qed.

Lemma processWebhook_step p w c w' :
  processWebhook p w = (c, w') -> stepW delivered w w'.
Proof.
  revert w c w'. unfold processWebhook, checkDuplicateEvent.
  apply (RetryQueueSpec.tryCatch_respects _ (stepW_refl _ delivered_refl)
                                           (stepW_trans _ delivered_trans)).
  - apply (RetryQueueSpec.bind_respects _ (stepW_refl _ delivered_refl)
                                         (stepW_trans _ delivered_trans));
      [steps|].
    intros [|]; [steps|].
    apply (RetryQueueSpec.bind_respects _ (stepW_refl _ delivered_refl)
                                         (stepW_trans _ delivered_trans));
      [apply routeEvent_step|].
    intros _.
    apply (RetryQueueSpec.bind_respects _ (stepW_refl _ delivered_refl)
                                         (stepW_trans _ delivered_trans));
      [apply recordWebhookEvent_step|].
    steps.
  - intros e.
    apply (RetryQueueSpec.bind_respects _ (stepW_refl _ delivered_refl)
                                         (stepW_trans _ delivered_trans));
      [apply recordWebhookEvent_step|].
    steps.
Qed.

(** X9: whatever the event and however the database fails, one run of
    [processWebhook] leaves the failed-request queue, the webhook-event
    table and the locations as they were, creates and deletes no order,
    menu or menu item (their keys stay the same, in the same order), only
    adds to the audit log and to the status history, and calls no POS
    provider. *)
Theorem delivery_leaves_the_rest_alone (p : SkyTabWebhookPayload) (w : World) :
  let w' := snd (processWebhook p w) in
  posFailedRequests (db w') = posFailedRequests (db w)
  /\ posWebhookEvents (db w') = posWebhookEvents (db w)
  /\ locations (db w') = locations (db w)
  /\ map orderId (orders (db w')) = map orderId (orders (db w))
  /\ map menuLocationId (menus (db w')) = map menuLocationId (menus (db w))
  /\ map (fun i => (menuItemId i, posItemId i)) (menuItems (db w'))
     = map (fun i => (menuItemId i, posItemId i)) (menuItems (db w))
  /\ (exists added, auditLogs (db w') = auditLogs (db w) ++ added)
  /\ (exists added,
        orderStatusHistories (db w') = orderStatusHistories (db w) ++ added)
  /\ posCalls w' = posCalls w /\ clock w' = clock w.
Proof.
  destruct (processWebhook p w) as [c w'] eqn:H. cbn [snd].
  destruct (processWebhook_step _ _ _ _ H)
    as (C & P & (A1 & A2 & A3 & A4 & A5 & A6 & A7 & A8) & _).
  repeat split; assumption.
Qed.

(** X10: [processWebhook] keeps the tables well formed, whatever the event
    and however the database fails: if every order carries one of the
    seven statuses of the local enum and every menu item is 86ed exactly
    when it is not available, the same holds afterwards. *)
Theorem delivery_keeps_tables_well_formed (p : SkyTabWebhookPayload) (w : World) :
  wellFormed (db w) -> wellFormed (db (snd (processWebhook p w))).
Proof.
  destruct (processWebhook p w) as [c w'] eqn:H. cbn [snd].
  destruct (processWebhook_step _ _ _ _ H) as (_ & _ & _ & K). exact K.
Qed.

(** The status update of the test suite, on the sample database. *)
Lemma delivery_keeps_tables_well_formed_witness :
  wellFormed (db (snd (processWebhook Samples.statusChanged
                                      (Samples.sampleWorld [])))).
Proof.
  apply delivery_keeps_tables_well_formed.
  split; repeat constructor.
Defined.

Lemma recordWebhookEvent_returns id ty loc st msg w :
  exists w', recordWebhookEvent id ty loc st msg w = (Return tt, w').
Proof.
  unfold recordWebhookEvent, tryCatch.
  match goal with
  | |- context [match ?body w with _ => _ end] =>
      destruct (body w) as [[[] | e] w1]
  end; unfold ret; eauto.
Qed.

(** X11: a stock event cannot fail.  [handleStockEvent] returns whatever
    the database does, since every item is handled inside its own [try];
    so once the duplicate lookup has answered, [processWebhook] reports a
    [stock.updated] event as processed successfully however the database
    fails afterwards, also when no item could be updated and no audit
    entry could be written. *)
Theorem stock_event_is_always_reported_processed
        (p : SkyTabWebhookPayload) (w : World) :
  eventType p = "stock.updated" ->
  hd false (faults w) = false ->
  (forall w0, exists w1,
        handleStockEvent (data p) (locationGuid p) w0 = (Return tt, w1))
  /\ exists r w', processWebhook p w = (Return r, w') /\ success r = true.
Proof.
  intros Ty F. split.
  { intros w0. apply WebhookSpec.handleStockItems_returns. }
  destruct (WebhookSpec.checkDuplicateEvent_answers (eventId p) w F)
    as (w0 & E & D0 & _ & F0).
  unfold processWebhook, tryCatch. unfold bind at 1. rewrite E.
  destruct (recorded (eventId p) (db w)).
  { unfold ret. exists alreadyProcessed, w0. repeat split; auto. }
  unfold bind at 1. unfold routeEvent. rewrite Ty.
  cbn [String.eqb Ascii.eqb Bool.eqb orb andb]. unfold handleStockEvent.
  destruct (WebhookSpec.handleStockItems_returns (items (data p)) w0)
    as (w1 & RE).
  rewrite RE. unfold bind.
  destruct (recordWebhookEvent_returns (eventId p) "stock.updated"
              (locationGuid p) "processed" None w1) as (w2 & RW).
  rewrite RW. unfold ret. do 2 eexists. split; reflexivity.
Qed.

(** The event that 86es [item-1], with a database that answers the
    duplicate lookup and fails from then on: success is reported, and
    the item is still available and no audit entry exists. *)
Lemma stock_event_is_always_reported_processed_witness :
  let run := processWebhook Samples.stockUpdated
                            (Samples.sampleWorld [false; true; true]) in
  (exists r, fst run = Return r /\ success r = true)
  /\ db (snd run) = Samples.sampleDb.
Proof.
  intros run.
  destruct (stock_event_is_always_reported_processed
              Samples.stockUpdated (Samples.sampleWorld [false; true; true])
              eq_refl eq_refl) as (_ & r & w' & E & S).
  split; [|reflexivity].
  exists r. unfold run. rewrite E. auto.
Defined.

Lemma recorded_findFirst id d :
  recorded id d = false -> findFirst (isWebhookRecord id) (auditLogs d) = None.
Proof. apply WebhookSpec.existsb_of_find. Qed.

(** X12: on a database that does not fail, a [ticket.created],
    [ticket.updated] or [ticket.status_changed] event that was not recorded
    yet is reported as processed and recorded so in the audit log.  When
    an order matches the ticket (by [posOrderId] or by [id]), the rows with
    the id of the first match get the mapped status, the ticket's guid,
    [posSyncStatus = synced], the current time as [posSyncedAt] and the
    estimated ready time if the event carries one, every other order is
    left as it was, and one row is added to the status history; menus and
    menu items are not touched.  When no order matches, the domain state
    is left as it was. *)
Theorem status_event_moves_the_order (p : SkyTabWebhookPayload) (w : World) :
  In (eventType p) ["ticket.created"; "ticket.updated"; "ticket.status_changed"] ->
  faults w = [] ->
  recorded (eventId p) (db w) = false ->
  exists w',
    processWebhook p w
    = (Return {| success := true;
                 message := "Event " ++ eventType p ++ " processed successfully" |},
       w')
    /\ recordedAs "processed" (eventId p) (db w') = true
    /\ match findFirst (orderOfTicket (data p)) (orders (db w)) with
       | None => domainState (db w') = domainState (db w)
       | Some order =>
           orders (db w')
           = map (fun o =>
                    if (orderId o =? orderId order)%string
                    then {| orderId := orderId o;
                            orderLocationId := orderLocationId o;
                            orderStatus :=
                              mapSkyTabStatusToOrderStatus (status (data p));
                            posOrderId := Some (ticketGuid (data p));
                            posSyncStatus := "synced";
                            posSyncedAt := Some (clock w);
                            posErrorMessage := posErrorMessage o;
                            estimatedReadyAt :=
                              if truthyOpt (estimatedReadyTime (data p))
                              then estimatedReadyTime (data p)
                              else estimatedReadyAt o;
                            cancelledAt := cancelledAt o |}
                    else o)
                 (orders (db w))
           /\ orderStatusHistories (db w')
              = orderStatusHistories (db w)
                ++ [{| historyOrderId := orderId order;
                       historyStatus :=
                         mapSkyTabStatusToOrderStatus (status (data p));
                       historyNote :=
                         "Status updated from SkyTab POS: " ++ status (data p);
                       historyChangedBy := "system" |}]
           /\ menus (db w') = menus (db w)
           /\ menuItems (db w') = menuItems (db w)
       end.
Proof.
  intros Ty F R.
  assert (RE : routeEvent p = handleTicketEvent (eventType p) (data p)).
  { unfold routeEvent. cbn [In] in Ty.
    destruct Ty as [<- | [<- | [<- | []]]]; reflexivity. }
  unfold processWebhook, tryCatch, checkDuplicateEvent.
  unfold bind at 1. unfold bind at 1.
  rewrite (WebhookSpec.prisma_no_faults_read _ _ F).
  rewrite (recorded_findFirst _ _ R). unfold ret at 1.
  unfold bind at 1. rewrite RE. unfold handleTicketEvent.
  unfold bind at 1.
  rewrite WebhookSpec.prisma_no_faults_read by exact F.
  cbn [db setDb].
  destruct (findFirst (orderOfTicket (data p)) (orders (db w)))
    as [order|] eqn:Fi.
  - unfold bind at 1. unfold getClock at 1. unfold bind at 1.
    rewrite WebhookSpec.prisma_no_faults by exact F.
    cbn [db setDb clock].
    rewrite (WebhookSpec.update_found _ _ _ _ order Fi)
      by apply String.eqb_refl.
    cbn [fst snd]. rewrite WebhookSpec.prisma_no_faults by exact F.
    cbn [fst snd db setDb].
    match goal with
    | |- context [bind _ _ ?w3] => set (w3' := w3)
    end.
    destruct (WebhookSpec.recordWebhookEvent_answers
                (eventId p) (eventType p) (locationGuid p) "processed" None w3')
      as (w' & E & _ & RA & Dom & _).
    { subst w3'. cbn. now rewrite F. }
    unfold bind. rewrite E. unfold ret. exists w'.
    split; [reflexivity|]. split; [exact RA|].
    unfold domainState in Dom. injection Dom as -> -> _ -> ->.
    subst w3'. cbn. auto.
  - unfold ret at 1.
    match goal with
    | |- context [bind _ _ ?w3] => set (w3' := w3)
    end.
    destruct (WebhookSpec.recordWebhookEvent_answers
                (eventId p) (eventType p) (locationGuid p) "processed" None w3')
      as (w' & E & _ & RA & Dom & _).
    { subst w3'. cbn. now rewrite F. }
    unfold bind. rewrite E. unfold ret. exists w'.
    split; [reflexivity|]. split; [exact RA|].
    rewrite Dom. reflexivity.
Qed.

(** The status update of the test suite moves [order-123] to
    [preparing]. *)
Lemma status_event_moves_the_order_witness :
  exists r w',
    processWebhook Samples.statusChanged (Samples.sampleWorld []) = (Return r, w')
    /\ map orderStatus (orders (db w')) = ["preparing"]
    /\ map posSyncStatus (orders (db w')) = ["synced"]
    /\ List.length (orderStatusHistories (db w')) = 1%nat.
Proof.
  destruct (status_event_moves_the_order
              Samples.statusChanged (Samples.sampleWorld [])
              (or_intror (or_intror (or_introl eq_refl))) eq_refl eq_refl)
    as (w' & E & _ & O & H & _).
  do 2 eexists. split; [exact E|]. rewrite O, H. repeat split.
Defined.

(** *** The work done after the reply *)

(** X13: the callback the webhook route schedules with [setImmediate]
    marks the stored event with the outcome of [processWebhook]: when the
    event has a row in the webhook-event table and the database answers the
    update, the callback returns, the rows of the event are [processed]
    with the current time as [processedAt] if [processWebhook] returned,
    [failed] with the error's message and [retryCount] increased by one if
    it threw, and the rows of other events are left as they were. *)
Theorem background_marks_the_event (p : SkyTabWebhookPayload)
        (w : World) c w1 :
  processWebhook p w = (c, w1) ->
  hd false (faults w1) = false ->
  existsb (fun e => (Prisma.eventId e =? eventId p)%string)
          (posWebhookEvents (db w)) = true ->
  exists w',
    webhookBackground p w = (Return tt, w')
    /\ posWebhookEvents (db w')
       = map (fun e =>
                if (Prisma.eventId e =? eventId p)%string
                then match c with
                     | Return _ =>
                         {| Prisma.eventId := Prisma.eventId e;
                            Prisma.eventType := Prisma.eventType e;
                            eventLocationGuid := eventLocationGuid e;
                            eventStatus := "processed";
                            eventErrorMessage := eventErrorMessage e;
                            eventRetryCount := eventRetryCount e;
                            processedAt := Some (clock w) |}
                     | Throw error =>
                         {| Prisma.eventId := Prisma.eventId e;
                            Prisma.eventType := Prisma.eventType e;
                            eventLocationGuid := eventLocationGuid e;
                            eventStatus := "failed";
                            eventErrorMessage := Some (errorMessage error);
                            eventRetryCount := eventRetryCount e + 1;
                            processedAt := processedAt e |}
                     end
                else e)
             (posWebhookEvents (db w)).
Proof.
  intros H F X.
  destruct (processWebhook_step _ _ _ _ H) as (C & _ & (_ & Ev & _) & _).
  rewrite <- Ev in X.
  unfold webhookBackground, tryCatch. unfold bind at 1. rewrite H.
  destruct c as [r | error].
  - unfold bind, getClock, updateWebhookEvent.
    match goal with
    | |- context [prisma ?call w1] =>
        destruct (WebhookSpec.prisma_next_ok call w1 F) as (w' & E & D & _)
    end.
    rewrite E. unfold update in *. rewrite X in *. cbn [fst snd] in *.
    exists w'. split; [reflexivity|]. rewrite D. cbn. rewrite C, Ev.
    reflexivity.
  - unfold updateWebhookEvent.
    match goal with
    | |- context [prisma ?call w1] =>
        destruct (WebhookSpec.prisma_next_ok call w1 F) as (w' & E & D & _)
    end.
    rewrite E. unfold update in *. rewrite X in *. cbn [fst snd] in *.
    exists w'. split; [reflexivity|]. rewrite D. cbn. rewrite Ev.
    reflexivity.
Qed.

(** The stored status update, processed on a database that works, and on
    one whose order lookup fails. *)
Lemma background_marks_the_event_witness :
  map eventStatus
      (posWebhookEvents
         (db (snd (webhookBackground Samples.statusChanged
                                     (Samples.storedEventWorld [])))))
  = ["processed"]
  /\ map (fun e => (eventStatus e, eventRetryCount e))
         (posWebhookEvents
            (db (snd (webhookBackground Samples.statusChanged
                                        (Samples.storedEventWorld [false; true])))))
     = [("failed", 1)].
Proof.
  split.
  - destruct (background_marks_the_event
                Samples.statusChanged (Samples.storedEventWorld [])
                (fst (processWebhook Samples.statusChanged (Samples.storedEventWorld [])))
                (snd (processWebhook Samples.statusChanged (Samples.storedEventWorld [])))
                eq_refl eq_refl eq_refl) as (w' & E & T).
    rewrite E. cbn [snd]. rewrite T. reflexivity.
  - destruct (background_marks_the_event
                Samples.statusChanged (Samples.storedEventWorld [false; true])
                (fst (processWebhook Samples.statusChanged
                                     (Samples.storedEventWorld [false; true])))
                (snd (processWebhook Samples.statusChanged
                                     (Samples.storedEventWorld [false; true])))
                eq_refl eq_refl eq_refl) as (w' & E & T).
    rewrite E. cbn [snd]. rewrite T. reflexivity.
Defined.

End WebhookExtras.

Module ServiceExtras.
Import Js Prisma PosService DbObservations ServiceObservations.
Local Open Scope prisma_scope.

(** X14: on a database that does not fail, for an order whose location
    names a registered POS system, [sendOrderToPOS] calls the provider's
    [sendOrder] exactly once and ends as that call ended: it returns the
    provider's result or rethrows the provider's error unchanged.  In the
    first case the orders with that id get the POS order id, the sync
    status [synced] or [failed] after the result's [success] flag, and the
    current time as [posSyncedAt]; in the second they get the sync status
    [failed] and the error's message; every other order is left as it
    was. *)
Theorem send_order_records_the_outcome providerSendOrder id (w : World) order location systemType :
  faults w = [] ->
  findFirst (fun o => (orderId o =? id)%string) (orders (db w)) = Some order ->
  findFirst (fun l => (locationId l =? orderLocationId order)%string)
            (locations (db w)) = Some location ->
  posSystemType location = Some systemType ->
  systemType = "mock" \/ systemType = "skytab" ->
  exists w',
    sendOrderToPOS providerSendOrder id w
    = (providerSendOrder systemType (posCalls w) (orderId order), w')
    /\ posCalls w' = S (posCalls w)
    /\ orders (db w')
       = map (fun o =>
                if (orderId o =? id)%string
                then match providerSendOrder systemType (posCalls w)
                                             (orderId order) with
                     | Return result =>
                         {| orderId := orderId o;
                            orderLocationId := orderLocationId o;
                            orderStatus := orderStatus o;
                            posOrderId := Some (sentPosOrderId result);
                            posSyncStatus :=
                              if sentSuccess result then "synced" else "failed";
                            posSyncedAt := Some (clock w);
                            posErrorMessage := posErrorMessage o;
                            estimatedReadyAt := estimatedReadyAt o;
                            cancelledAt := cancelledAt o |}
                     | Throw error =>
                         {| orderId := orderId o;
                            orderLocationId := orderLocationId o;
                            orderStatus := orderStatus o;
                            posOrderId := posOrderId o;
                            posSyncStatus := "failed";
                            posSyncedAt := posSyncedAt o;
                            posErrorMessage := Some (errorMessage error);
                            estimatedReadyAt := estimatedReadyAt o;
                            cancelledAt := cancelledAt o |}
                     end
                else o)
             (orders (db w)).
Proof.
  intros F Fo Fl Ty Known.
  assert (X : existsb (fun o => (orderId o =? id)%string) (orders (db w)) = true).
  { apply existsb_exists. exists order. apply find_some in Fo. exact Fo. }
  assert (G : getProvider systemType = ret systemType).
  { unfold getProvider. destruct Known as [-> | ->]; reflexivity. }
  unfold sendOrderToPOS. unfold bind at 1.
  rewrite (WebhookSpec.prisma_no_faults _ _ F). cbn [fst snd].
  rewrite Fo, Fl, Ty.
  assert (T : truthyOpt (Some systemType) = true)
    by (destruct Known as [-> | ->]; reflexivity).
  rewrite T. cbn [negb]. rewrite G. unfold bind at 1, ret at 1.
  unfold tryCatch. unfold bind at 1. unfold callSendOrder at 1.
  cbn [posCalls setDb].
  destruct (providerSendOrder systemType (posCalls w) (orderId order))
    as [result | error].
  - unfold bind at 1, getClock at 1. unfold bind at 1. unfold updateOrder.
    rewrite WebhookSpec.prisma_no_faults by exact F.
    cbn [db setDb clock]. unfold update. rewrite X. cbn [fst snd].
    unfold ret. eexists. split; [reflexivity|]. split; reflexivity.
  - unfold bind at 1. unfold updateOrder.
    rewrite WebhookSpec.prisma_no_faults by exact F.
    cbn [db setDb clock]. unfold update. rewrite X. cbn [fst snd].
    unfold throw. eexists. split; [reflexivity|]. split; reflexivity.
Qed.

(** The sample order is sent while the provider is down. *)
Lemma send_order_records_the_outcome_witness :
  exists w',
    sendOrderToPOS Samples.providerDown "order-123" (Samples.sampleWorld [])
    = (Throw (SkyTabApiError "Server error" "INTERNAL_ERROR" 500 None), w')
    /\ map (fun o => (posSyncStatus o, posErrorMessage o)) (orders (db w'))
       = [("failed", Some "Server error")].
Proof.
  destruct (send_order_records_the_outcome
              Samples.providerDown "order-123" (Samples.sampleWorld [])
              _ _ "skytab" eq_refl eq_refl eq_refl eq_refl
              (or_intror eq_refl)) as (w' & E & _ & O).
  exists w'. split; [exact E|]. rewrite O. reflexivity.
Defined.

(** X15: [sendOrderToPOS] gives up before any provider is called, and
    without writing anything, when the order does not exist, when its
    location does not exist, or when the location names no POS system or
    one that is not registered ([mock] and [skytab] are); this holds
    however the database fails. *)
Theorem send_order_refuses_before_calling providerSendOrder id (w : World) :
  findFirst (fun o => (orderId o =? id)%string) (orders (db w)) = None
  \/ (exists order,
        findFirst (fun o => (orderId o =? id)%string) (orders (db w)) = Some order
        /\ match findFirst (fun l => (locationId l =? orderLocationId order)%string)
                           (locations (db w)) with
           | None => True
           | Some location =>
               forall systemType,
                 posSystemType location = Some systemType ->
                 systemType <> "mock" /\ systemType <> "skytab"
           end) ->
  exists e w',
    sendOrderToPOS providerSendOrder id w = (Throw e, w')
    /\ db w' = db w /\ posCalls w' = posCalls w
    /\ (e = Error "Database error"
        \/ e = Error "Order or POS system not found"
        \/ e = TypeError "Cannot read properties of null (reading 'posSystemType')"
        \/ exists systemType, e = Error ("POS provider not found: " ++ systemType)).
Proof.
  intros H. unfold sendOrderToPOS. unfold bind at 1. unfold prisma.
  destruct (faults w) as [|[|] rest].
  2: { do 2 eexists. split; [reflexivity|]. auto. }
  all: cbv beta iota zeta.
  all: destruct H as [-> | (order & -> & L)];
    [unfold throw; do 2 eexists; split; [reflexivity|]; auto|].
  all: destruct (findFirst _ (locations (db w))) as [location|];
    [|unfold throw; do 2 eexists; split; [reflexivity|]; auto 6].
  all: destruct (posSystemType location) as [ty|] eqn:Ty;
    [|cbn [truthyOpt negb]; unfold throw;
      do 2 eexists; split; [reflexivity|]; auto].
  all: destruct (L ty eq_refl) as [N1 N2];
    destruct (truthyOpt (Some ty)); cbn [negb];
    [|unfold throw; do 2 eexists; split; [reflexivity|]; auto].
  all: unfold bind, getProvider;
    apply String.eqb_neq in N1, N2; rewrite N1, N2; cbn [orb];
    unfold throw; do 2 eexists; split; [reflexivity|];
    repeat split; auto; right; right; right; now exists ty.
Qed.

(** An order id that is not in the sample database. *)
Lemma send_order_refuses_before_calling_witness :
  exists w',
    sendOrderToPOS Samples.providerDown "order-999" (Samples.sampleWorld [])
    = (Throw (Error "Order or POS system not found"), w')
    /\ db w' = Samples.sampleDb /\ posCalls w' = 0%nat.
Proof.
  destruct (send_order_refuses_before_calling
              Samples.providerDown "order-999" (Samples.sampleWorld [])
              (or_introl eq_refl)) as (e & w' & E & D & P & _).
  exists w'. split; [|split; [exact D | exact P]].
  rewrite E. f_equal.
  change (fst (Throw (A := SendOrderResult) e, w')
          = fst (Throw (A := SendOrderResult)
                       (Error "Order or POS system not found"), w')).
  rewrite <- E. reflexivity.
Defined.

(** *** What sending an order may write *)

Lemma rewritesOrder_refl id d : rewritesOrder id d d.
Proof.
  unfold rewritesOrder. repeat split; auto.
  exists (fun o => o). split; [now rewrite map_id | auto 10].
Qed.

Lemma rewritesOrder_trans id d1 d2 d3 :
  rewritesOrder id d1 d2 -> rewritesOrder id d2 d3 -> rewritesOrder id d1 d3.
Proof.
  unfold rewritesOrder.
  intros (A1 & B1 & C1 & D1 & E1 & F1 & G1 & f & Hf & Pf)
         (A2 & B2 & C2 & D2 & E2 & F2 & G2 & g & Hg & Pg).
  rewrite A2, B2, C2, D2, E2, F2, G2. repeat split; auto.
  exists (fun o => g (f o)). split; [now rewrite Hg, Hf, map_map|].
  intros o. destruct (Pf o) as (I & L & S & R & Ca & N).
  destruct (Pg (f o)) as (I' & L' & S' & R' & Ca' & N').
  repeat split; try congruence.
  intros X. rewrite N' by congruence. auto.
Qed.

Section Calls.
Variable Rd : Db -> Db -> Prop.
Hypothesis Rd_refl : forall d, Rd d d.
Hypothesis Rd_trans : forall d1 d2 d3, Rd d1 d2 -> Rd d2 d3 -> Rd d1 d3.

Lemma callsW_refl w : callsW Rd w w.
Proof using Rd_refl. unfold callsW. auto. Qed.

Lemma callsW_trans w1 w2 w3 : callsW Rd w1 w2 -> callsW Rd w2 w3 -> callsW Rd w1 w3.
Proof using Rd_trans.
  unfold callsW. intros (C1 & P1 & D1) (C2 & P2 & D2).
  rewrite C2. split; [auto|]. split; [lia | eauto].
Qed.

Lemma stepW_callsW w w' : stepW Rd w w' -> callsW Rd w w'.
Proof using Type. unfold stepW, callsW. intros (C & P & D). rewrite P. auto. Qed.

Lemma callSendOrder_callsW providerSendOrder provider x w c w' :
  callSendOrder providerSendOrder provider x w = (c, w') -> callsW Rd w w'.
Proof using Rd_refl.
  unfold callSendOrder, callsW. intros H. inversion H; subst. cbn. auto.
Qed.

End Calls.

Lemma updateOrder_step id data :
  (forall o,
      orderId (data o) = orderId o
      /\ orderLocationId (data o) = orderLocationId o
      /\ orderStatus (data o) = orderStatus o
      /\ estimatedReadyAt (data o) = estimatedReadyAt o
      /\ cancelledAt (data o) = cancelledAt o) ->
  forall w c w',
    updateOrder id data w = (c, w') -> stepW (rewritesOrder id) w w'.
Proof.
  intros Hd. unfold updateOrder.
  apply (WebhookExtras.prisma_step _ (rewritesOrder_refl id)).
  intros d c d' E.
  destruct (update _ data (orders d)) as [c0 rows] eqn:U.
  injection E as _ <-.
  apply WebhookExtras.update_cases in U as [-> | ->].
  - unfold rewritesOrder. cbn. repeat split; auto.
    exists (fun o => o). split; [now rewrite map_id | auto 10].
  - unfold rewritesOrder. cbn. repeat split; auto.
    eexists. split; [apply RetryQueueSpec.updateMany_as_map|].
    intros o. destruct (Hd o) as (I & L & S & R & Ca).
    destruct (orderId o =? id)%string; repeat split; auto; discriminate.
Qed.

Lemma sendOrderToPOS_callsW providerSendOrder id w c w' :
  sendOrderToPOS providerSendOrder id w = (c, w') ->
  callsW (rewritesOrder id) w w'.
Proof.
  revert w c w'. unfold sendOrderToPOS.
  pose proof (callsW_refl _ (rewritesOrder_refl id)) as Rr.
  pose proof (callsW_trans _ (rewritesOrder_trans id)) as Rt.
  apply (RetryQueueSpec.bind_respects _ Rr Rt).
  - intros w c w' H. apply stepW_callsW. revert H.
    apply (WebhookExtras.prisma_step _ (rewritesOrder_refl id)).
    intros d c0 d' E. injection E as _ <-. apply rewritesOrder_refl.
  - intros [[order [location|]]|];
      try apply (RetryQueueSpec.throw_respects _ Rr Rt).
    destruct (negb _); [apply (RetryQueueSpec.throw_respects _ Rr Rt)|].
    apply (RetryQueueSpec.bind_respects _ Rr Rt).
    + unfold getProvider. destruct (_ || _)%bool;
        [apply (RetryQueueSpec.ret_respects _ Rr Rt)
        |apply (RetryQueueSpec.throw_respects _ Rr Rt)].
    + intros provider. apply (RetryQueueSpec.tryCatch_respects _ Rr Rt).
      * apply (RetryQueueSpec.bind_respects _ Rr Rt);
          [apply (callSendOrder_callsW _ (rewritesOrder_refl id))|].
        intros result. apply (RetryQueueSpec.bind_respects _ Rr Rt);
          [apply (RetryQueueSpec.getClock_respects _ Rr Rt)|].
        intros now. apply (RetryQueueSpec.bind_respects _ Rr Rt).
        { intros w c w' H. apply stepW_callsW. revert H.
          apply updateOrder_step. intros o. cbn. auto. }
        intros _. apply (RetryQueueSpec.ret_respects _ Rr Rt).
      * intros e. apply (RetryQueueSpec.bind_respects _ Rr Rt).
        { intros w c w' H. apply stepW_callsW. revert H.
          apply updateOrder_step. intros o. cbn. auto. }
        intros _. apply (RetryQueueSpec.throw_respects _ Rr Rt).
Qed.

(** At most one provider call. *)
Lemma sendOrderToPOS_posCalls providerSendOrder id w c w' :
  sendOrderToPOS providerSendOrder id w = (c, w') ->
  (posCalls w' <= S (posCalls w))%nat
  /\ (forall result, c = Return result -> posCalls w' = S (posCalls w)).
Proof.
  intros H. unfold sendOrderToPOS in H. unfold bind at 1 in H.
  match type of H with
  | (match prisma ?call w with _ => _ end) = _ =>
      destruct (prisma call w) as [[found | e0] w1] eqn:P;
      destruct (WebhookExtras.prisma_step (fun _ _ => True) (fun _ => I) call
                  (fun _ _ _ _ => I) _ _ _ P) as (_ & P1 & _)
  end.
  2: { injection H as <- <-. split; [lia | discriminate]. }
  assert (Stop : forall e, (c, w') = (Throw e, w1) ->
                 (posCalls w' <= S (posCalls w))%nat
                 /\ (forall result, c = Return result ->
                                    posCalls w' = S (posCalls w))).
  { intros e E. injection E as -> ->. split; [lia | discriminate]. }
  destruct found as [[order [location|]]|];
    try (unfold throw in H; symmetry in H; now apply Stop in H).
  destruct (negb _);
    [unfold throw in H; symmetry in H; now apply Stop in H|].
  unfold bind at 1, getProvider in H.
  destruct (_ || _)%bool;
    [|unfold throw in H; symmetry in H; now apply Stop in H].
  unfold ret at 1 in H. unfold tryCatch in H. unfold bind at 1 in H.
  unfold callSendOrder at 1 in H.
  set (w2 := {| db := db w1; clock := clock w1; posCalls := S (posCalls w1);
                faults := faults w1 |}) in H.
  assert (U : forall data w0 c0 w0',
             updateOrder id data w0 = (c0, w0') -> posCalls w0' = posCalls w0).
  { intros data w0 c0 w0' E. unfold updateOrder in E.
    now destruct (WebhookExtras.prisma_step (fun _ _ => True) (fun _ => I) _
                    (fun _ _ _ _ => I) _ _ _ E) as (_ & P2 & _). }
  destruct (providerSendOrder _ (posCalls w1) (orderId order))
    as [result | error].
  - unfold bind at 1, getClock at 1 in H. unfold bind at 1 in H.
    destruct (updateOrder id _ w2) as [[[] | e1] w3] eqn:U1;
      pose proof (U _ _ _ _ U1) as P3.
    + unfold ret in H. injection H as <- <-. subst w2. cbn in P3.
      split; [lia|]. intros _ _. lia.
    + unfold bind in H.
      destruct (updateOrder id _ w3) as [[[] | e2] w4] eqn:U2;
        pose proof (U _ _ _ _ U2) as P4; unfold throw in H;
        injection H as <- <-; subst w2; cbn in P3;
        (split; [lia | discriminate]).
  - unfold bind in H.
    destruct (updateOrder id _ w2) as [[[] | e2] w4] eqn:U2;
      pose proof (U _ _ _ _ U2) as P4; unfold throw in H;
      injection H as <- <-; subst w2; cbn in P4;
      (split; [lia | discriminate]).
Qed.

(** X16: whatever the provider answers and however the database fails,
    [sendOrderToPOS] calls the provider at most once and writes nothing
    but POS columns of the orders with the given id: every other table is
    left as it was, no order is created or deleted, orders with another id
    are unchanged, and the order's own status, location, estimated ready
    time and cancellation time are not touched. *)
Theorem send_order_touches_one_order providerSendOrder id (w : World) :
  let w' := snd (sendOrderToPOS providerSendOrder id w) in
  rewritesOrder id (db w) (db w')
  /\ clock w' = clock w
  /\ (posCalls w <= posCalls w' <= S (posCalls w))%nat.
Proof.
  destruct (sendOrderToPOS providerSendOrder id w) as [c w'] eqn:H. cbn [snd].
  destruct (sendOrderToPOS_callsW _ _ _ _ _ H) as (C & P & R).
  destruct (sendOrderToPOS_posCalls _ _ _ _ _ H) as (B & _).
  auto.
Qed.

End ServiceExtras.

Module QueueExtras.
Import Js Prisma PosService PosRoutes DbObservations ServiceObservations.
Import QueueObservations.
Local Open Scope prisma_scope.

(** *** Clock and provider calls during a pass *)

Lemma anyTables_refl d : anyTables d d.
Proof. exact I. Qed.

Lemma anyTables_trans d1 d2 d3 : anyTables d1 d2 -> anyTables d2 d3 -> anyTables d1 d3.
Proof. intros _ _. exact I. Qed.

Lemma updateFailedRequest_quiet id data w c w' :
  updateFailedRequest id data w = (c, w') ->
  clock w' = clock w /\ posCalls w' = posCalls w.
Proof.
  unfold updateFailedRequest. intros H.
  destruct (WebhookExtras.prisma_step anyTables anyTables_refl _
              (fun _ _ _ _ => I) _ _ _ H) as (C & P & _).
  auto.
Qed.

(** The statement between the two updates of the [try] block. *)
Lemma retried_call providerSendOrder request w c w' :
  (if (requestType request =? "order_submit")%string
   then sendOrderToPOS providerSendOrder (requestPayloadOrderId request) ;;; ret tt
   else ret tt) w = (c, w') ->
  clock w' = clock w
  /\ (posCalls w <= posCalls w' <= S (posCalls w))%nat
  /\ (c = Return tt ->
      posCalls w'
      = if (requestType request =? "order_submit")%string
        then S (posCalls w) else posCalls w).
Proof.
  destruct (_ =? _)%string.
  - unfold bind. intros H.
    destruct (sendOrderToPOS _ _ w) as [[r | e] w1] eqn:S;
      destruct (ServiceExtras.sendOrderToPOS_callsW _ _ _ _ _ S) as (C & P & _);
      destruct (ServiceExtras.sendOrderToPOS_posCalls _ _ _ _ _ S) as (B & X);
      inversion H; subst; repeat split; auto; try discriminate.
    intros _. now apply (X r).
  - intros H. inversion H; subst. repeat split; auto.
Qed.

(** The rows of a request after an update that went through. *)
Lemma updated_rows id data w w' r' :
  updateFailedRequest id data w = (Return tt, w') ->
  In r' (posFailedRequests (db w')) -> requestId r' = id ->
  (forall r, requestId (data r) = requestId r) ->
  exists r, In r (posFailedRequests (db w)) /\ requestId r = id /\ r' = data r.
Proof.
  intros H Hin Hid K.
  destruct (RetryQueueSpec.updateFailedRequest_cases _ _ _ _ _ H)
    as (_ & [[_ N] | [_ E]]); [congruence|].
  rewrite E in Hin. unfold updateMany in Hin.
  apply in_map_iff in Hin as (r & Er & Hr). exists r.
  destruct (String.eqb_spec (requestId r) id) as [Ek | Ek].
  - auto.
  - exfalso. apply Ek. now rewrite <- Hid, <- Er.
Qed.

(** X17: when a pass of the sweep succeeds, every row of the request is
    [completed] with the current time as [completedAt], and no later sweep
    selects it, at whatever time it runs.  The provider was called exactly
    once if the request is an [order_submit]; a request of any other type
    is completed without any call being made. *)
Theorem successful_retry_completes_the_row providerSendOrder request
        (w : World) res w' :
  retryOne providerSendOrder request w = (Return res, w') ->
  resultSuccess res = true ->
  (forall r',
      In r' (posFailedRequests (db w')) -> requestId r' = requestId request ->
      requestStatus r' = "completed" /\ completedAt r' = Some (clock w)
      /\ forall now, selectable now r' = false)
  /\ posCalls w'
     = (if (requestType request =? "order_submit")%string
        then S (posCalls w) else posCalls w)
  /\ resultId res = requestId request.
Proof.
  intros H Ok. unfold retryOne, tryCatch in H.
  match type of H with
  | (match ?body w with _ => _ end) = _ =>
      destruct (body w) as [[res0 | e] w1] eqn:B
  end.
  2: { unfold bind at 1, getClock at 1 in H. unfold bind in H.
       destruct (updateFailedRequest _ _ w1) as [[[] | e1] w2];
         [|discriminate H].
       unfold ret in H. injection H as <- _. discriminate Ok. }
  injection H as -> ->.
  apply RetryQueueSpec.bind_return_inv in B as ([] & w1 & U1 & B).
  apply RetryQueueSpec.bind_return_inv in B as ([] & w2 & S & B).
  apply RetryQueueSpec.bind_return_inv in B as (now & w3 & G & B).
  apply RetryQueueSpec.bind_return_inv in B as ([] & w4 & U2 & B).
  unfold ret in B. injection B as <- <-.
  unfold getClock in G. injection G as <- <-.
  destruct (updateFailedRequest_quiet _ _ _ _ _ U1) as (C1 & P1).
  destruct (retried_call _ _ _ _ _ S) as (C2 & _ & P2).
  destruct (updateFailedRequest_quiet _ _ _ _ _ U2) as (C4 & P4).
  split; [|split; [|reflexivity]].
  - intros r' Hin Hid.
    destruct (updated_rows _ _ _ _ _ U2 Hin Hid (fun _ => eq_refl))
      as (r & _ & _ & ->).
    cbn. rewrite C2, C1. repeat split.
  - rewrite P4, (P2 eq_refl), P1. reflexivity.
Qed.

(** The row that has failed twice, retried while the provider is up. *)
Lemma successful_retry_completes_the_row_witness :
  let run := retryOne Samples.providerUp Samples.dueRequest
                      Samples.sampleQueueWorld in
  map (fun r => (requestStatus r, completedAt r))
      (posFailedRequests (db (snd run)))
  = [("completed", Some 5000)]
  /\ posCalls (snd run) = 1%nat.
Proof.
  intros run.
  destruct (successful_retry_completes_the_row
              Samples.providerUp Samples.dueRequest
              Samples.sampleQueueWorld
              {| resultId := "failed-request-1"; resultSuccess := true;
                 resultError := None |}
              (snd run) eq_refl eq_refl) as (_ & P & _).
  split; [reflexivity | exact P].
Defined.

(** The [try] block of a pass: the clock stands still and at most one
    provider call is made. *)
Lemma retry_body_calls providerSendOrder request w c w' :
  (updateFailedRequest (requestId request) (setStatus "retrying" None) ;;;
   (if (requestType request =? "order_submit")%string
    then sendOrderToPOS providerSendOrder (requestPayloadOrderId request) ;;; ret tt
    else ret tt) ;;;
   now <- getClock ;;
   updateFailedRequest (requestId request) (setStatus "completed" (Some now)) ;;;
   ret {| resultId := requestId request; resultSuccess := true;
          resultError := None |}) w = (c, w') ->
  clock w' = clock w /\ (posCalls w <= posCalls w' <= S (posCalls w))%nat.
Proof.
  unfold bind at 1.
  destruct (updateFailedRequest _ _ w) as [[[] | e1] w1] eqn:U1;
    destruct (updateFailedRequest_quiet _ _ _ _ _ U1) as (C1 & P1).
  2: { intros H. injection H as _ <-. rewrite C1, P1. split; [auto | lia]. }
  unfold bind at 1.
  match goal with
  | |- (match ?call w1 with _ => _ end) = _ -> _ =>
      destruct (call w1) as [[[] | e2] w2] eqn:S;
      destruct (retried_call _ _ _ _ _ S) as (C2 & P2 & _)
  end.
  2: { intros H. injection H as _ <-. rewrite C2, C1. split; [auto | lia]. }
  unfold bind at 1, getClock at 1. unfold bind.
  destruct (updateFailedRequest _ _ w2) as [[[] | e3] w3] eqn:U3;
    destruct (updateFailedRequest_quiet _ _ _ _ _ U3) as (C3 & P3);
    intros H; injection H as _ <-; rewrite C3, C2, C1; split; auto; lia.
Qed.

Lemma nextRetryDelay_bounds retryCount :
  0 <= retryCount -> 2000 <= nextRetryDelay retryCount <= 30 * 60 * 1000.
Proof.
  intros H. unfold nextRetryDelay. split; [|apply Z.le_min_r].
  apply Z.min_glb; [|lia].
  assert (2 ^ 1 <= 2 ^ (retryCount + 1)) by (apply Z.pow_le_mono_r; lia).
  change (2 ^ 1) with 2 in *. lia.
Qed.

(** X18: when a pass of the sweep fails and its bookkeeping update goes
    through, every row of the request carries the error's message and is
    scheduled for [now + min(1000 * 2^(retryCount + 1), 1800000)] ms, with
    [retryCount] as the sweep read it: a delay between 2 s and 30 min.  No
    sweep that runs before that time selects the row.  At most one provider
    call was made. *)
Theorem failed_retry_waits_for_its_backoff providerSendOrder request
        (w : World) res w' :
  retryOne providerSendOrder request w = (Return res, w') ->
  resultSuccess res = false ->
  (forall r',
      In r' (posFailedRequests (db w')) -> requestId r' = requestId request ->
      nextRetryAt r' = Some (clock w + nextRetryDelay (retryCount request))
      /\ requestErrorMessage r' = resultError res
      /\ forall now,
          now < clock w + nextRetryDelay (retryCount request) ->
          selectable now r' = false)
  /\ (0 <= retryCount request ->
      2000 <= nextRetryDelay (retryCount request) <= 1800000)
  /\ (posCalls w <= posCalls w' <= S (posCalls w))%nat
  /\ resultId res = requestId request.
Proof.
  intros H Failed. unfold retryOne, tryCatch in H.
  match type of H with
  | (match ?body w with _ => _ end) = _ =>
      destruct (body w) as [[res0 | e] w1] eqn:B;
      destruct (RetryQueueSpec.retryOne_try _ _ _ _ _ B) as (_ & S);
      destruct (retry_body_calls _ _ _ _ _ B) as (C1 & P1)
  end.
  { injection H as <- _. rewrite (S res0 eq_refl) in Failed. discriminate. }
  cbv zeta in H. unfold bind at 1, getClock at 1 in H. unfold bind in H.
  destruct (updateFailedRequest _ _ w1) as [[[] | e1] w2] eqn:U;
    [|discriminate H].
  destruct (updateFailedRequest_quiet _ _ _ _ _ U) as (C2 & P2).
  unfold ret in H. injection H as <- <-.
  split; [|split; [apply nextRetryDelay_bounds|split; [lia | reflexivity]]].
  intros r' Hin Hid.
  destruct (updated_rows _ _ _ _ _ U Hin Hid (fun _ => eq_refl))
    as (r & _ & _ & ->).
  cbn [nextRetryAt requestErrorMessage recordFailure resultError].
  rewrite C1. split; [reflexivity|]. split; [reflexivity|].
  intros now Early. unfold selectable.
  cbn [nextRetryAt recordFailure]. fold (nextRetryDelay (retryCount request)).
  replace (clock w + nextRetryDelay (retryCount request) <=? now) with false
    by (symmetry; apply Z.leb_gt; exact Early).
  apply andb_false_r.
Qed.

(** The row that has failed twice, retried at 5000 ms while the provider
    is down: the next retry is due 8 s later. *)
Lemma failed_retry_waits_for_its_backoff_witness :
  let run := retryOne Samples.providerDown Samples.dueRequest
                      Samples.sampleQueueWorld in
  let row := hd Samples.dueRequest (posFailedRequests (db (snd run))) in
  nextRetryAt row = Some 13000 /\ selectable 12999 row = false.
Proof.
  intros run row.
  destruct (failed_retry_waits_for_its_backoff
              Samples.providerDown Samples.dueRequest
              Samples.sampleQueueWorld
              {| resultId := "failed-request-1"; resultSuccess := false;
                 resultError := Some "Server error" |}
              (snd run) eq_refl eq_refl) as (R & _).
  destruct (R row (or_introl eq_refl) eq_refl) as (N & _ & S).
  split; [exact N|]. apply S. reflexivity.
Defined.

(** *** The sweep as a whole *)

Lemma retryOne_calls providerSendOrder request w c w' :
  retryOne providerSendOrder request w = (c, w') ->
  clock w' = clock w /\ (posCalls w <= posCalls w' <= S (posCalls w))%nat
  /\ forall res, c = Return res -> resultId res = requestId request.
Proof.
  unfold retryOne, tryCatch.
  match goal with
  | |- (match ?body w with _ => _ end) = _ -> _ =>
      destruct (body w) as [[res0 | e] w1] eqn:B;
      destruct (retry_body_calls _ _ _ _ _ B) as (C1 & P1)
  end.
  - intros H. injection H as <- <-. repeat split; auto; try lia.
    intros res E. injection E as <-.
    apply RetryQueueSpec.bind_return_inv in B as (_ & w2 & _ & B).
    apply RetryQueueSpec.bind_return_inv in B as (_ & w3 & _ & B).
    apply RetryQueueSpec.bind_return_inv in B as (now & w4 & _ & B).
    apply RetryQueueSpec.bind_return_inv in B as (_ & w5 & _ & B).
    unfold ret in B. injection B as <- _. reflexivity.
  - cbv zeta. unfold bind at 1, getClock at 1. unfold bind.
    destruct (updateFailedRequest _ _ w1) as [[[] | e1] w2] eqn:U;
      destruct (updateFailedRequest_quiet _ _ _ _ _ U) as (C2 & P2);
      intros H; injection H as <- <-; rewrite C2, C1;
      repeat split; auto; try lia; try discriminate.
    intros res E. injection E as <-. reflexivity.
Qed.

Lemma retryAll_calls providerSendOrder failedRequests :
  forall w c w',
    retryAll providerSendOrder failedRequests w = (c, w') ->
    clock w' = clock w
    /\ (posCalls w <= posCalls w' <= posCalls w + List.length failedRequests)%nat
    /\ forall results,
        c = Return results ->
        map resultId results = map requestId failedRequests.
Proof.
  induction failedRequests as [|request rest IH]; intros w c w' H.
  - inversion H; subst. cbn. repeat split; auto; try lia.
    intros results E. injection E as <-. reflexivity.
  - simpl in H. unfold bind at 1 in H.
    destruct (retryOne providerSendOrder request w) as [[res | e] w1] eqn:RO;
      destruct (retryOne_calls _ _ _ _ _ RO) as (C1 & P1 & I1).
    + unfold bind in H.
      destruct (retryAll providerSendOrder rest w1) as [[results | e] w2] eqn:RA;
        destruct (IH _ _ _ RA) as (C2 & P2 & I2);
        inversion H; subst; cbn [List.length]; rewrite C2, C1;
        repeat split; auto; try lia; try discriminate.
      intros results' E. injection E as <-. cbn.
      now rewrite (I1 res eq_refl), (I2 results eq_refl).
    + inversion H; subst. cbn [List.length].
      repeat split; auto; try lia; discriminate.
Qed.

(** X19: the retry endpoint always replies, whatever the provider and the
    database do: either 200 with the message [Processed n failed requests]
    and one result per selected row, in the order of selection and at most
    10 of them, or 500 with the code [POS_RETRY_ERROR].  One sweep makes at
    most 10 provider calls. *)
Theorem retry_route_always_replies providerSendOrder (w : World) :
  exists reply w',
    retryFailedRoute providerSendOrder w = (Return reply, w')
    /\ (posCalls w <= posCalls w' <= posCalls w + 10)%nat
    /\ ((statusCode reply = 200
         /\ exists results,
             replyBody reply
             = RetryReport ("Processed "
                            ++ numberToString (Z.of_nat (List.length results))
                            ++ " failed requests") results
             /\ (List.length results <= 10)%nat
             /\ map resultId results
                = map requestId
                      (findFailedRequests (clock w) (posFailedRequests (db w))))
        \/ (statusCode reply = 500
            /\ exists message,
                replyBody reply = ErrorBody "POS_RETRY_ERROR" message)).
Proof.
  assert (L : forall now rows,
             (List.length (findFailedRequests now rows) <= 10)%nat).
  { intros now rows. unfold findFailedRequests. apply firstn_le_length. }
  unfold retryFailedRoute, tryCatch.
  unfold bind at 1, getClock at 1. unfold bind at 1.
  match goal with
  | |- context [prisma ?call w] =>
      destruct (prisma call w) as [[selected | e] w1] eqn:P;
      destruct (WebhookExtras.prisma_step anyTables anyTables_refl call
                  (fun _ _ _ _ => I) _ _ _ P) as (C1 & P1 & _);
      destruct (RetryQueueSpec.prisma_cases _ _ _ _ P) as (_ & [[Ec D] | E])
  end; try discriminate Ec.
  - injection E as <- _. unfold bind.
    destruct (retryAll providerSendOrder _ w1) as [[results | e] w2] eqn:RA;
      destruct (retryAll_calls _ _ _ _ _ RA) as (C2 & P2 & I2);
      pose proof (L (clock w) (posFailedRequests (db w))) as L10;
      unfold ret; do 2 eexists; (split; [reflexivity|]); (split; [lia|]).
    + left. split; [reflexivity|]. exists results.
      split; [reflexivity|]. split; [|now apply I2].
      rewrite <- (length_map resultId), (I2 results eq_refl), length_map.
      exact L10.
    + right. split; [reflexivity|]. eexists. reflexivity.
  - unfold ret. do 2 eexists. split; [reflexivity|]. split; [lia|].
    right. split; [reflexivity|]. eexists. reflexivity.
  - injection E as Es _. discriminate Es.
Qed.

End QueueExtras.

Module ProviderExtras.
Import Js SkyTabClient SkyTabProvider SkyTabProviderOps ClientObservations.

Lemma handleApiError_cases e code :
  (isApiError e = true /\ handleApiError e code = e)
  \/ (isApiError e = false
      /\ handleApiError e code = SkyTabApiError (errorMessage e) code 500 None).
Proof. destruct e; cbn; auto. Qed.

(** X20: the errors [getOrderStatus], [updateItemAvailability] and
    [getUnavailableItems] throw once the location is known are the errors
    of the client's call, passed through [handleApiError]: a
    [SkyTabApiError] of the client is rethrown as it is, any other error is
    replaced by a [SkyTabApiError] with its message, the operation's own
    code ([ORDER_STATUS_FAILED], [STOCK_UPDATE_FAILED],
    [STOCK_STATUS_FAILED]) and the status 500. *)
Theorem provider_calls_throw_api_errors config authNet locationGuid :
  (forall apiNet posOrderId w e w',
      getOrderStatus config authNet apiNet posOrderId w = (Throw e, w') ->
      exists thrown,
        get config authNet apiNet
            ("/api/rest/v1/pos/tickets/" ++ posOrderId ++ "/status") noOptions w
        = (Throw thrown, w')
        /\ ((isApiError thrown = true /\ e = thrown)
            \/ (isApiError thrown = false
                /\ e = SkyTabApiError (errorMessage thrown)
                                      "ORDER_STATUS_FAILED" 500 None)))
  /\ (forall apiNet itemId available guid w e w',
        getLocationGuid locationGuid None = Return guid ->
        updateItemAvailability config authNet locationGuid apiNet
                               itemId available w = (Throw e, w') ->
        exists thrown body,
          put config authNet apiNet
              ("/api/rest/v1/pos/locations/" ++ guid ++ "/stock") body noOptions w
          = (Throw thrown, w')
          /\ ((isApiError thrown = true /\ e = thrown)
              \/ (isApiError thrown = false
                  /\ e = SkyTabApiError (errorMessage thrown)
                                        "STOCK_UPDATE_FAILED" 500 None)))
  /\ (forall apiNet locationId guid w e w',
        getLocationGuid locationGuid (Some locationId) = Return guid ->
        getUnavailableItems config authNet locationGuid apiNet locationId w
        = (Throw e, w') ->
        exists thrown,
          get config authNet apiNet
              ("/api/rest/v1/pos/locations/" ++ guid ++ "/stock") noOptions w
          = (Throw thrown, w')
          /\ ((isApiError thrown = true /\ e = thrown)
              \/ (isApiError thrown = false
                  /\ e = SkyTabApiError (errorMessage thrown)
                                        "STOCK_STATUS_FAILED" 500 None))).
Proof.
  split; [|split].
  - intros apiNet posOrderId w e w' H. unfold getOrderStatus in H.
    destruct (get _ _ _ _ _ w) as [[ticket | thrown] w1]; [discriminate H|].
    injection H as <- <-. exists thrown. split; [reflexivity|].
    destruct (handleApiError_cases thrown "ORDER_STATUS_FAILED")
      as [[A ->] | [A ->]]; auto.
  - intros apiNet itemId available guid w e w' G H.
    unfold updateItemAvailability in H. rewrite G in H.
    destruct (put _ _ _ _ _ _ w) as [[response | thrown] w1] eqn:P;
      [discriminate H|].
    injection H as <- <-. exists thrown. eexists. split; [exact P|].
    destruct (handleApiError_cases thrown "STOCK_UPDATE_FAILED")
      as [[A ->] | [A ->]]; auto.
  - intros apiNet locationId guid w e w' G H.
    unfold getUnavailableItems in H. rewrite G in H.
    destruct (get _ _ _ _ _ w) as [[response | thrown] w1];
      [discriminate H|].
    injection H as <- <-. exists thrown. split; [reflexivity|].
    destruct (handleApiError_cases thrown "STOCK_STATUS_FAILED")
      as [[A ->] | [A ->]]; auto.
Qed.

(** X21: when neither the argument nor the configuration gives a location
    GUID, [updateItemAvailability], [getUnavailableItems] and
    [syncFullMenu] throw the plain [Error] "SkyTab location GUID not
    configured" (not a [SkyTabApiError]: the check is outside the [try])
    and leave the client and the database exactly as they were: no rate
    limit slot is taken, no token is fetched, no request is sent. *)
Theorem missing_location_stops_before_the_network {Num} config authNet
        locationGuid stockNet statusNet
        (menuNet : nat -> HttpRequest -> ApiOutcome (SkyTabMenuResponse Num))
        itemId available w1 w2 w3 pw :
  truthyOpt locationGuid = false ->
  updateItemAvailability config authNet locationGuid stockNet itemId available w1
  = (Throw (Error "SkyTab location GUID not configured"), w1)
  /\ getUnavailableItems config authNet locationGuid statusNet "" w2
     = (Throw (Error "SkyTab location GUID not configured"), w2)
  /\ syncFullMenu config authNet locationGuid menuNet "" w3 pw
     = (Throw (Error "SkyTab location GUID not configured"), w3, pw).
Proof.
  intros F.
  assert (G : forall given, truthyOpt given = false ->
                            getLocationGuid locationGuid given
                            = Throw (Error "SkyTab location GUID not configured")).
  { intros given Fg. unfold getLocationGuid, orElse. rewrite Fg.
    destruct locationGuid as [guid|]; [|reflexivity].
    cbn in F. now rewrite F. }
  unfold updateItemAvailability, getUnavailableItems, syncFullMenu.
  rewrite !G by reflexivity. auto.
Qed.

(** No location configured, the vendor ready to answer. *)
Lemma missing_location_stops_before_the_network_witness :
  getUnavailableItems Samples.sampleConfig Samples.authAlwaysOk None
                      (Samples.apiAlways Samples.stockReport) "" (newClient 0)
  = (Throw (Error "SkyTab location GUID not configured"), newClient 0).
Proof.
  apply (missing_location_stops_before_the_network
           (Num := Z) Samples.sampleConfig Samples.authAlwaysOk None
           (Samples.apiAlways (Samples.okResponse {| stockUpdated := true |}))
           (Samples.apiAlways Samples.stockReport)
           (Samples.apiAlways Samples.menuReport)
           "item-1" false (newClient 0) (newClient 0) (newClient 0)
           (Samples.sampleWorld []) eq_refl).
Defined.

(** X22: the list [getUnavailableItems] returns is read from the body of
    the 2xx response that ended the client's call: it holds exactly the
    GUIDs of the items that response reports with [isAvailable = false], so
    never more entries than the response has items. *)
Theorem unavailable_items_come_from_the_response config authNet locationGuid
        apiNet locationId w guids w' :
  getUnavailableItems config authNet locationGuid apiNet locationId w
  = (Return guids, w') ->
  exists earlier attempt r,
    eventsSince w w' = earlier ++ [EvAttempt attempt (Responded r)]
    /\ 200 <= SkyTabClient.status r <= 299
    /\ (forall guid,
          In guid guids
          <-> exists item,
              In item (items (responseData r))
              /\ itemGuid item = guid /\ isAvailable item = false)
    /\ (List.length guids <= List.length (items (responseData r)))%nat.
Proof.
  intros H. unfold getUnavailableItems in H.
  destruct (getLocationGuid locationGuid (Some locationId)) as [location | e];
    [|discriminate H].
  destruct (get _ _ _ _ _ w) as [[response | thrown] w1] eqn:G;
    [|discriminate H].
  injection H as <- <-. unfold get, request in G.
  destruct (ClientSpec.requestLoop_trace _ _ _ _ _ _ _ _ _ _ _ _ _ _ _ G)
    as (evs & E).
  rewrite (ClientSpec.eventsSince_app _ _ _ E).
  destruct (ClientExtras.requestLoop_returns _ _ _ _ _ _ _ _ _ _ _ _ _ _ _ _ G E)
    as (earlier & a & r & -> & Ok & <- & _).
  exists earlier, a, r. split; [reflexivity|]. split.
  { unfold ok in Ok. apply andb_prop in Ok as [Lo Hi]. lia. }
  split.
  - intros g. rewrite in_map_iff. split.
    + intros (item & <- & I). apply filter_In in I as [I A].
      exists item. repeat split; auto. now apply negb_true_iff.
    + intros (item & I & <- & A). exists item. split; [reflexivity|].
      apply filter_In. split; [exact I|]. now rewrite A.
  - rewrite length_map. apply ClientExtras.filter_length_le.
Qed.

(** The vendor reporting [item-1] as 86ed and [item-2] as available. *)
Lemma unavailable_items_come_from_the_response_witness :
  let run := getUnavailableItems Samples.sampleConfig Samples.authAlwaysOk
                                 (Some "location-123")
                                 (Samples.apiAlways Samples.stockReport)
                                 "" (newClient 0) in
  fst run = Return ["item-1"]
  /\ exists earlier attempt r,
      eventsSince (newClient 0) (snd run)
      = earlier ++ [EvAttempt attempt (Responded r)]
      /\ 200 <= SkyTabClient.status r <= 299.
Proof.
  intros run. split; [reflexivity|].
  destruct (unavailable_items_come_from_the_response
              Samples.sampleConfig Samples.authAlwaysOk (Some "location-123")
              (Samples.apiAlways Samples.stockReport) "" (newClient 0)
              ["item-1"] (snd run) eq_refl)
    as (earlier & attempt & r & E & S & _).
  exists earlier, attempt, r. split; [exact E | exact S].
Defined.

(** *** Menu synchronisation *)

(** The audit entry of a menu synchronisation is written if the database
    allows, and the failure to write it is swallowed. *)
Lemma logMenuSync_cases guid syncType itemCount modifierCount pw :
  exists pw',
    logMenuSync guid syncType itemCount modifierCount pw = (Return tt, pw')
    /\ Prisma.domainState (Prisma.db pw') = Prisma.domainState (Prisma.db pw)
    /\ Prisma.posWebhookEvents (Prisma.db pw')
       = Prisma.posWebhookEvents (Prisma.db pw)
    /\ Prisma.posFailedRequests (Prisma.db pw')
       = Prisma.posFailedRequests (Prisma.db pw)
    /\ (Prisma.auditLogs (Prisma.db pw') = Prisma.auditLogs (Prisma.db pw)
        \/ hd false (Prisma.faults pw) = false)
    /\ (hd false (Prisma.faults pw) = false ->
        Prisma.auditLogs (Prisma.db pw')
        = Prisma.auditLogs (Prisma.db pw)
          ++ [{| Prisma.action := "SKYTAB_MENU_SYNC";
                 Prisma.entityType := "menu";
                 Prisma.entityId := guid;
                 Prisma.changes :=
                   [("syncType", syncType);
                    ("itemCount", numberToString (Z.of_nat itemCount));
                    ("modifierCount", numberToString (Z.of_nat modifierCount));
                    ("timestamp", numberToString (Prisma.clock pw))] |}]).
Proof.
  unfold logMenuSync, Prisma.tryCatch, Prisma.bind, Prisma.getClock,
    Prisma.prisma, Prisma.ret.
  destruct (Prisma.faults pw) as [|[|] rest]; cbn;
    eexists; (split; [reflexivity|]); cbn; repeat split; auto; discriminate.
Qed.

(** X23: what [syncFullMenu] returns or throws, and the state it leaves
    the client in, do not depend on the database: the audit entry is
    written inside its own [try].  The synchronisation writes nothing but
    that entry (the domain tables, the webhook events and the failed-request
    queue are left as they were); when it throws, the database state is
    exactly as before; when it returns and the database answers, exactly
    one [SKYTAB_MENU_SYNC] entry is added for the location, carrying the
    numbers of items and modifiers returned. *)
Theorem menu_sync_survives_a_failing_audit_log {Num} config authNet
        locationGuid
        (apiNet : nat -> HttpRequest -> ApiOutcome (SkyTabMenuResponse Num))
        locationId w pw :
  let run := syncFullMenu config authNet locationGuid apiNet locationId w pw in
  (forall pw2,
      fst (syncFullMenu config authNet locationGuid apiNet locationId w pw2)
      = fst run)
  /\ Prisma.domainState (Prisma.db (snd run)) = Prisma.domainState (Prisma.db pw)
  /\ Prisma.posWebhookEvents (Prisma.db (snd run))
     = Prisma.posWebhookEvents (Prisma.db pw)
  /\ Prisma.posFailedRequests (Prisma.db (snd run))
     = Prisma.posFailedRequests (Prisma.db pw)
  /\ (forall e, fst (fst run) = Throw e -> snd run = pw)
  /\ (forall posItems posModifiers,
        fst (fst run) = Return (posItems, posModifiers) ->
        hd false (Prisma.faults pw) = false ->
        exists guid,
          getLocationGuid locationGuid (Some locationId) = Return guid
          /\ Prisma.auditLogs (Prisma.db (snd run))
             = Prisma.auditLogs (Prisma.db pw)
               ++ [{| Prisma.action := "SKYTAB_MENU_SYNC";
                      Prisma.entityType := "menu";
                      Prisma.entityId := guid;
                      Prisma.changes :=
                        [("syncType", "full");
                         ("itemCount",
                          numberToString (Z.of_nat (List.length posItems)));
                         ("modifierCount",
                          numberToString (Z.of_nat (List.length posModifiers)));
                         ("timestamp", numberToString (Prisma.clock pw))] |}]).
Proof.
  intros run. subst run. unfold syncFullMenu.
  destruct (getLocationGuid locationGuid (Some locationId)) as [guid | e0].
  2: { cbn. repeat split; auto. intros ? ? X. discriminate X. }
  destruct (get _ _ _ _ _ w) as [[menu | thrown] w1].
  2: { cbn. repeat split; auto. intros ? ? X. discriminate X. }
  cbv zeta.
  set (itemCount := List.length (map mapSkyTabItemToPOSMenuItem (menuItems menu))).
  set (modifierCount :=
         List.length
           (flat_map (fun group =>
                        map mapSkyTabModifierToPOSModifier (modifiers group))
                     (modifierGroups menu))).
  destruct (logMenuSync_cases guid "full" itemCount modifierCount pw)
    as (pw' & E & D & Ev & Q & _ & A).
  rewrite E. cbn [fst snd]. split.
  { intros pw2.
    destruct (logMenuSync_cases guid "full" itemCount modifierCount pw2)
      as (p2 & -> & _).
    reflexivity. }
  repeat split; auto; try discriminate.
  intros posItems posModifiers X F. injection X as <- <-.
  exists guid. split; [reflexivity|]. now apply A.
Qed.

End ProviderExtras.

Module SendOrderExtras.
Import Js Prisma PosService PosRoutes SendOrderRoute.
Import DbObservations ServiceObservations QueueObservations.
Local Open Scope prisma_scope.

Section Route.
Variable providerSendOrder :
  string -> nat -> string -> Completion SendOrderResult.
Variable zodMessage : string.
Variable newRequestId : list POSFailedRequest -> string.
Variable defaultStatus : string.
Variables defaultRetryCount defaultMaxRetries : Z.

(** What [queueFailedRequest] does: it never throws, and adds one row
    unless the database fails. *)
Lemma queueFailedRequest_cases requestType locationId payloadOrderId message w :
  exists w',
    queueFailedRequest newRequestId defaultStatus defaultRetryCount
                       defaultMaxRetries requestType locationId payloadOrderId
                       message w = (Return tt, w')
    /\ clock w' = clock w /\ posCalls w' = posCalls w
    /\ domainState (db w') = domainState (db w)
    /\ auditLogs (db w') = auditLogs (db w)
    /\ posWebhookEvents (db w') = posWebhookEvents (db w)
    /\ posFailedRequests (db w')
       = if hd false (faults w)
         then posFailedRequests (db w)
         else posFailedRequests (db w)
              ++ [queuedRequest newRequestId defaultStatus defaultRetryCount
                                defaultMaxRetries (posFailedRequests (db w))
                                requestType locationId payloadOrderId message
                                (clock w)].
Proof.
  unfold queueFailedRequest, tryCatch, bind, getClock, prisma, ret.
  destruct (faults w) as [|[|] rest]; cbn; eexists;
    (split; [reflexivity|]); cbn; repeat split; auto.
Qed.

(** X24: the send-order endpoint always replies.  A body without a
    non-empty [orderId] is answered 500 [POS_ORDER_ERROR] and nothing is
    read or written.  Otherwise the reply is 200 with the provider's result
    when [sendOrderToPOS] returns, and 500 [POS_ORDER_ERROR] with the
    error's message when it throws; in that case one row is added to the
    failed-request queue exactly when the error carries the code
    [SERVICE_UNAVAILABLE] or a status of 500 or more and the database
    accepts the row (a failure to queue is swallowed), nothing else is
    written, and the new row (type [order_submit], the order id both as
    payload and in the [locationId] column) is not selected by any sweep
    that runs less than 60 s later. *)
Theorem send_order_route_queues_server_errors orderId (w : World) :
  exists reply w',
    sendOrderRoute providerSendOrder zodMessage newRequestId defaultStatus
                   defaultRetryCount defaultMaxRetries orderId w
    = (Return reply, w')
    /\ match orderId with
       | Some (String c rest as id) =>
           match sendOrderToPOS providerSendOrder id w with
           | (Return result, w1) =>
               reply = {| sendStatusCode := 200;
                          sendBody := OrderSent "Order sent to POS successfully"
                                                (sentPosOrderId result)
                                                (sentSuccess result) |}
               /\ w' = w1
           | (Throw e, w1) =>
               reply = {| sendStatusCode := 500;
                          sendBody :=
                            OrderError "POS_ORDER_ERROR"
                                       (orDefault (errorMessage e)
                                                  "Failed to send order to POS") |}
               /\ domainState (db w') = domainState (db w1)
               /\ posCalls w' = posCalls w1
               /\ posFailedRequests (db w')
                  = (if shouldQueue e && negb (hd false (faults w1))
                     then posFailedRequests (db w1)
                          ++ [queuedRequest newRequestId defaultStatus
                                defaultRetryCount defaultMaxRetries
                                (posFailedRequests (db w1))
                                "order_submit" (Some id) id (errorMessage e)
                                (clock w)]
                     else posFailedRequests (db w1))
               /\ forall now r,
                   In r (posFailedRequests (db w')) ->
                   ~ In r (posFailedRequests (db w1)) ->
                   now < clock w + 60000 -> selectable now r = false
           end
       | _ =>
           reply = {| sendStatusCode := 500;
                      sendBody :=
                        OrderError "POS_ORDER_ERROR"
                                   (orDefault zodMessage
                                              "Failed to send order to POS") |}
           /\ w' = w
       end.
Proof.
  unfold sendOrderRoute, tryCatch.
  destruct orderId as [[|c rest]|]; cbn [truthy];
    try (unfold throw, bind, ret; cbn; do 2 eexists; split; [reflexivity|];
         split; reflexivity).
  unfold bind at 1.
  destruct (sendOrderToPOS providerSendOrder (String c rest) w)
    as [[result | e] w1] eqn:S.
  - unfold ret. do 2 eexists. split; [reflexivity|]. split; reflexivity.
  - destruct (ServiceExtras.sendOrderToPOS_callsW _ _ _ _ _ S) as (C & _ & _).
    destruct (shouldQueue e) eqn:Q.
    + destruct (queueFailedRequest_cases "order_submit" (Some (String c rest))
                  (String c rest) (errorMessage e) w1)
        as (w' & E & C' & P' & D' & _ & _ & F').
      unfold bind. rewrite E. unfold ret. eexists. exists w'.
      split; [reflexivity|]. split; [reflexivity|].
      split; [exact D'|]. split; [exact P'|]. rewrite F', C. cbn [andb].
      destruct (hd false (faults w1)); cbn [negb]; split; try reflexivity.
      * intros now r I N. contradiction.
      * intros now r I N Early. apply in_app_or in I as [I | [<- | []]];
          [contradiction|].
        unfold selectable, queuedRequest. cbn [nextRetryAt].
        replace (clock w + 60000 <=? now) with false
          by (symmetry; apply Z.leb_gt; exact Early).
        apply andb_false_r.
    + unfold bind, ret. eexists. exists w1.
      split; [reflexivity|]. split; [reflexivity|]. cbn [andb].
      repeat split; auto. intros now r I N. contradiction.
Qed.

End Route.

(** The sample order, sent while the provider is down with a 500: the
    reply is 500 and one row is queued for a retry in a minute. *)
Lemma send_order_route_queues_server_errors_witness :
  let run := sendOrderRoute Samples.providerDown "Required"
                            Samples.sampleRequestId "pending" 0 3
                            (Some "order-123") (Samples.sampleWorld []) in
  map (fun r => (requestId r, requestPayloadOrderId r, nextRetryAt r))
      (posFailedRequests (db (snd run)))
  = [("failed-request-1", "order-123", Some 65000)].
Proof.
  intros run.
  destruct (send_order_route_queues_server_errors
              Samples.providerDown "Required" Samples.sampleRequestId
              "pending" 0 3 (Some "order-123") (Samples.sampleWorld []))
    as (reply & w' & E & R).
  unfold run. rewrite E. cbn [snd].
  cbv beta iota in R.
  change (sendOrderToPOS Samples.providerDown "order-123" (Samples.sampleWorld []))
    with (Throw (A := SendOrderResult)
                (SkyTabApiError "Server error" "INTERNAL_ERROR" 500 None),
          snd (sendOrderToPOS Samples.providerDown "order-123"
                              (Samples.sampleWorld []))) in R.
  cbv beta iota in R. destruct R as (_ & _ & _ & Q & _).
  rewrite Q. reflexivity.
Defined.

(** X25: which errors pass the endpoint's test for queueing once they have
    gone through [handleApiError] with the code [ORDER_SUBMIT_FAILED], as
    in the [catch] block of the SkyTab provider's [sendOrder].  Every error
    that is not a [SkyTabApiError] (a network [TypeError], a body that does
    not parse, a failed credential exchange) comes out with the status 500
    and passes; the error the client builds from a vendor response passes
    exactly when its status is 500 or more or its code is
    [SERVICE_UNAVAILABLE]; the client's own timeout error (408, [TIMEOUT])
    does not pass.  An error that is not a [SkyTabApiError] when it reaches
    the endpoint, such as [sendOrderToPOS]'s "Order or POS system not
    found", never passes. *)
Theorem queued_provider_failures (timeout : Z) :
  (forall e,
      SkyTabProviderOps.isApiError e = false ->
      shouldQueue (SkyTabProvider.handleApiError e "ORDER_SUBMIT_FAILED") = true
      /\ shouldQueue e = false)
  /\ (forall T (r : SkyTabClient.Response T),
        shouldQueue (SkyTabProvider.handleApiError (SkyTabClient.apiErrorOf r)
                                                   "ORDER_SUBMIT_FAILED")
        = (orDefault (match SkyTabClient.errorData r with
                      | Some body => SkyTabClient.code body
                      | None => ""
                      end) "UNKNOWN_ERROR" =? "SERVICE_UNAVAILABLE")%string
          || (500 <=? SkyTabClient.status r))
  /\ shouldQueue (SkyTabProvider.handleApiError
                    (ClientObservations.reported timeout AbortError)
                    "ORDER_SUBMIT_FAILED") = false.
Proof.
  split; [|split].
  - intros e A. destruct e; try discriminate A; split; reflexivity.
  - intros T r. reflexivity.
  - reflexivity.
Qed.

End SendOrderExtras.

Module MenuSyncExtras.
Import Js Prisma PosService PosServiceMenu.
Local Open Scope prisma_scope.



End MenuSyncExtras.

Module MockExtras.
Import Js MockPOSProvider.

(** *** The set of 86ed items *)

Lemma setAdd_In x y s : In y (setAdd x s) <-> y = x \/ In y s.
Proof.
  unfold setAdd. destruct (existsb (String.eqb x) s) eqn:E.
  - split; [auto|]. intros [-> | H]; [|exact H].
    apply existsb_exists in E as (z & Hz & Ez). apply String.eqb_eq in Ez.
    now subst.
  - rewrite in_app_iff. cbn. intuition congruence.
Qed.

Lemma setDelete_In x y s : In y (setDelete x s) <-> y <> x /\ In y s.
Proof.
  unfold setDelete. rewrite filter_In.
  destruct (String.eqb_spec y x); cbn; intuition congruence.
Qed.

Lemma setAdd_NoDup x s : NoDup s -> NoDup (setAdd x s).
Proof.
  intros N. unfold setAdd. destruct (existsb (String.eqb x) s) eqn:E; [exact N|].
  apply NoDup_app; [exact N | repeat constructor; intros [] |].
  intros y Hy [Exy | []]. subst y.
  assert (existsb (String.eqb x) s = true)
    by (apply existsb_exists; exists x; split; [exact Hy | apply String.eqb_refl]).
  congruence.
Qed.

Lemma setDelete_twice x s : setDelete x (setDelete x s) = setDelete x s.
Proof.
  unfold setDelete. induction s as [|y s IH]; cbn; [reflexivity|].
  destruct (negb (y =? x)%string) eqn:E; cbn; [|exact IH].
  now rewrite E, IH.
Qed.

(** X27: the mock provider's set of 86ed items follows the last update of
    each item: after [updateItemAvailability(itemId, isAvailable)], which
    returns [true], the item is listed by [getUnavailableItems] exactly
    when [isAvailable] is false, every other item is listed exactly when it
    was before, the list has no duplicates if it had none, repeating the
    call changes nothing, and orders and timers are untouched. *)
Theorem availability_set_tracks_the_last_update itemId isAvailable locationId
        (m : Mock) :
  let m' := snd (updateItemAvailability itemId isAvailable m) in
  fst (updateItemAvailability itemId isAvailable m) = true
  /\ (forall x,
        In x (getUnavailableItems locationId m')
        <-> (x = itemId /\ isAvailable = false)
            \/ (x <> itemId /\ In x (getUnavailableItems locationId m)))
  /\ (NoDup (getUnavailableItems locationId m) ->
      NoDup (getUnavailableItems locationId m'))
  /\ snd (updateItemAvailability itemId isAvailable m') = m'
  /\ orders m' = orders m /\ timers m' = timers m /\ now m' = now m.
Proof.
  cbn. split; [reflexivity|]. split; [|split; [|split; [|auto]]].
  - intros x. destruct isAvailable.
    + rewrite setDelete_In. intuition congruence.
    + rewrite setAdd_In.
      destruct (string_dec x itemId); intuition congruence.
  - intros N. destruct isAvailable.
    + unfold setDelete. now apply NoDup_filter.
    + now apply setAdd_NoDup.
  - unfold updateItemAvailability. cbn. f_equal. destruct isAvailable.
    + apply setDelete_twice.
    + unfold setAdd at 1.
      replace (existsb (String.eqb itemId) (setAdd itemId (unavailableItems m)))
        with true; [reflexivity|].
      symmetry. apply existsb_exists. exists itemId.
      split; [apply setAdd_In; auto | apply String.eqb_refl].
Qed.

(** *** The simulated life of an order *)

Lemma mapGet_mapSet_same k v os : mapGet k (mapSet k v os) = Some v.
Proof.
  induction os as [|[k' v'] os IH]; cbn; [now rewrite String.eqb_refl|].
  destruct (k' =? k)%string eqn:E; cbn; [now rewrite String.eqb_refl|].
  now rewrite E.
Qed.

Lemma mapGet_mapSet_other k k' v os :
  k <> k' -> mapGet k' (mapSet k v os) = mapGet k' os.
Proof.
  intros N. induction os as [|[k0 v0] os IH]; cbn.
  - apply String.eqb_neq in N. now rewrite N.
  - destruct (String.eqb_spec k0 k) as [-> | N0]; cbn.
    + apply String.eqb_neq in N. now rewrite N.
    + now rewrite IH.
Qed.

Lemma run_others id callbacks :
  Forall (fun timer => orderId (entry timer) <> id) callbacks ->
  forall os, mapGet id (run callbacks os) = mapGet id os.
Proof.
  unfold run. induction 1 as [|timer rest N F IH]; intros os; cbn;
    [reflexivity|].
  rewrite IH. now apply mapGet_mapSet_other.
Qed.

Lemma run_app a b os : run (a ++ b) os = run b (run a os).
Proof. unfold run. apply fold_left_app. Qed.

Lemma schedule_splits t queue :
  exists before after,
    queue = before ++ after /\ schedule t queue = before ++ t :: after.
Proof.
  induction queue as [|t' rest (b & a & E & S)]; cbn.
  - exists [], []. auto.
  - destruct (due t' <=? due t).
    + exists (t' :: b), a. cbn. now rewrite <- E, S.
    + exists [], (t' :: rest). auto.
Qed.

Lemma schedule_later t t' rest :
  due t' <= due t -> schedule t (t' :: rest) = t' :: schedule t rest.
Proof. intros L. cbn. apply Z.leb_le in L. now rewrite L. Qed.

Lemma schedule_sooner t t' rest :
  due t < due t' -> schedule t (t' :: rest) = t :: t' :: rest.
Proof. intros L. cbn. apply Z.leb_gt in L. now rewrite L. Qed.

(** Two callbacks scheduled one after the other, the first one due no
    later than the second, run in that order. *)
Lemma schedule_twice t1 t2 queue :
  due t1 <= due t2 ->
  exists a b c,
    queue = a ++ b ++ c
    /\ schedule t2 (schedule t1 queue) = a ++ t1 :: b ++ t2 :: c.
Proof.
  intros L. induction queue as [|t' rest (a & b & c & E & S)].
  - exists [], [], []. split; [reflexivity|].
    change (schedule t1 []) with [t1]. now rewrite schedule_later.
  - destruct (Z.le_gt_cases (due t') (due t1)) as [D1 | D1].
    + rewrite !schedule_later by lia. exists (t' :: a), b, c. cbn.
      now rewrite <- E, S.
    + rewrite schedule_sooner by lia. rewrite schedule_later by lia.
      destruct (schedule_splits t2 (t' :: rest)) as (b' & c' & E' & S').
      rewrite S'. exists [], b', c'. auto.
Qed.

(** The entry of an order after some time, when two callbacks for it are
    waiting and no others. *)
Lemma entry_after id ms (m : Mock) a b c t1 t2 :
  timers m = a ++ t1 :: b ++ t2 :: c ->
  Forall (fun timer => orderId (entry timer) <> id) (a ++ b ++ c) ->
  orderId (entry t1) = id -> orderId (entry t2) = id ->
  mapGet id (orders (elapse ms m))
  = if due t2 <=? now m + ms then Some (entry t2)
    else if due t1 <=? now m + ms then Some (entry t1)
         else mapGet id (orders m).
Proof.
  intros T F I1 I2. apply Forall_app in F as [Fa F].
  apply Forall_app in F as [Fb Fc].
  assert (O : forall q, Forall (fun timer => orderId (entry timer) <> id) q ->
                        forall p os, mapGet id (run (filter p q) os) = mapGet id os).
  { intros q Fq p os. apply run_others.
    apply Forall_forall. intros x Hx. apply filter_In in Hx as [Hx _].
    now apply (proj1 (Forall_forall _ _) Fq). }
  unfold elapse. cbn [orders]. rewrite T.
  set (p := fun timer => due timer <=? now m + ms).
  change (due t2 <=? now m + ms) with (p t2).
  change (due t1 <=? now m + ms) with (p t1).
  assert (A : forall os, mapGet id (run (filter p (t2 :: c)) os)
                         = if p t2 then Some (entry t2) else mapGet id os).
  { intros os. cbn [filter]. destruct (p t2); [|now apply O].
    change (t2 :: filter p c) with ([t2] ++ filter p c).
    rewrite run_app, (O c Fc). unfold run. cbn [fold_left].
    rewrite I2. apply mapGet_mapSet_same. }
  assert (B : forall os, mapGet id (run (filter p (b ++ t2 :: c)) os)
                         = if p t2 then Some (entry t2) else mapGet id os).
  { intros os. rewrite filter_app, run_app, A, (O b Fb). reflexivity. }
  rewrite filter_app, run_app. cbn [filter]. destruct (p t1).
  - change (t1 :: filter p (b ++ t2 :: c)) with ([t1] ++ filter p (b ++ t2 :: c)).
    rewrite run_app, B. unfold run at 1. cbn [fold_left].
    rewrite I1, mapGet_mapSet_same. reflexivity.
  - rewrite B, (O a Fa). reflexivity.
Qed.

(** X28: the simulated life of an order in the mock provider.  [sendOrder]
    returns the id [POS-<now>] with [success = true]; if no callback for
    that id was waiting, the order is [confirmed] with an estimated ready
    time 20 min ahead, [preparing] from 2 s after the send and [ready] from
    10 s after it.  A cancellation within the first 2 s shows as
    [cancelled] at once but does not stop the callbacks: 2 s after the
    send the order is [preparing] again, and [ready] after 10 s. *)
Theorem sent_order_is_prepared_then_ready {POSOrder} (order : POSOrder)
        (m : Mock) :
  let id := ("POS-" ++ numberToString (now m))%string in
  let m1 := snd (sendOrder order m) in
  noTimerFor id m ->
  fst (sendOrder order m) = (id, true)
  /\ getOrderStatus id m1
     = {| orderId := id; status := "confirmed";
          estimatedReadyTime := Some (now m + 1200000) |}
  /\ (forall ms,
        status (getOrderStatus id (elapse ms m1))
        = if ms <? 2000 then "confirmed"
          else if ms <? 10000 then "preparing" else "ready")
  /\ (forall ms1 ms2,
        ms1 < 2000 -> 2000 <= ms1 + ms2 ->
        let m2 := snd (cancelOrder id (elapse ms1 m1)) in
        status (getOrderStatus id m2) = "cancelled"
        /\ status (getOrderStatus id (elapse ms2 m2))
           = if ms1 + ms2 <? 10000 then "preparing" else "ready").
Proof.
  intros id m1 N.
  set (t1 := {| due := now m + 2000;
                entry := {| orderId := id; status := "preparing";
                            estimatedReadyTime := None |} |}).
  set (t2 := {| due := now m + 10000;
                entry := {| orderId := id; status := "ready";
                            estimatedReadyTime := None |} |}).
  destruct (schedule_twice t1 t2 (timers m)) as (a & b & c & E & S);
    [cbn; lia|].
  assert (T : timers m1 = a ++ t1 :: b ++ t2 :: c) by exact S.
  assert (F : Forall (fun timer => orderId (entry timer) <> id) (a ++ b ++ c))
    by (rewrite <- E; exact N).
  assert (G : mapGet id (orders m1)
              = Some {| orderId := id; status := "confirmed";
                        estimatedReadyTime := Some (now m + 1200000) |})
    by apply mapGet_mapSet_same.
  split; [reflexivity|]. split; [unfold getOrderStatus; now rewrite G|]. split.
  - intros ms. unfold getOrderStatus.
    rewrite (entry_after id ms m1 a b c t1 t2 T F eq_refl eq_refl), G.
    change (now m1) with (now m). cbn [due t1 t2].
    destruct (Z.ltb_spec ms 2000), (Z.ltb_spec ms 10000),
      (Z.leb_spec (now m + 10000) (now m + ms)),
      (Z.leb_spec (now m + 2000) (now m + ms)); try lia; reflexivity.
  - intros ms1 ms2 L1 L2 m2. split.
    + unfold getOrderStatus. subst m2. cbn [snd cancelOrder orders].
      now rewrite mapGet_mapSet_same.
    + set (q := fun timer => negb (due timer <=? now m1 + ms1)).
      assert (T2 : timers m2 = filter q a ++ t1 :: filter q b ++ t2 :: filter q c).
      { subst m2. cbn [snd cancelOrder timers elapse]. rewrite T.
        fold q. rewrite filter_app. cbn [filter].
        assert (Q1 : q t1 = true).
        { subst q. cbn. apply negb_true_iff, Z.leb_gt.
          change (now m1) with (now m). lia. }
        assert (Q2 : q t2 = true).
        { subst q. cbn. apply negb_true_iff, Z.leb_gt.
          change (now m1) with (now m). lia. }
        rewrite Q1, filter_app. cbn [filter]. now rewrite Q2. }
      assert (F2 : Forall (fun timer => orderId (entry timer) <> id)
                          (filter q a ++ filter q b ++ filter q c)).
      { rewrite <- !filter_app. apply Forall_forall. intros x Hx.
        apply filter_In in Hx as [Hx _].
        now apply (proj1 (Forall_forall _ _) F). }
      unfold getOrderStatus.
      rewrite (entry_after id ms2 m2 _ _ _ t1 t2 T2 F2 eq_refl eq_refl).
      change (now m2) with (now m + ms1). cbn [due t1 t2].
      destruct (Z.ltb_spec (ms1 + ms2) 10000),
        (Z.leb_spec (now m + 10000) (now m + ms1 + ms2)),
        (Z.leb_spec (now m + 2000) (now m + ms1 + ms2)); try lia; reflexivity.
Qed.

(** An order sent to a new mock provider at time 0, cancelled one second
    later. *)
Lemma sent_order_is_prepared_then_ready_witness :
  let m1 := snd (sendOrder tt (newMock 0)) in
  let m2 := snd (cancelOrder "POS-0" (elapse 1000 m1)) in
  map (fun ms => status (getOrderStatus "POS-0" (elapse ms m1))) [0; 2000; 10000]
  = ["confirmed"; "preparing"; "ready"]
  /\ status (getOrderStatus "POS-0" m2) = "cancelled"
  /\ status (getOrderStatus "POS-0" (elapse 1000 m2)) = "preparing".
Proof.
  intros m1 m2.
  destruct (sent_order_is_prepared_then_ready tt (newMock 0) (Forall_nil _))
    as (_ & _ & L & C).
  split.
  - cbn [map]. fold m1. rewrite !L. reflexivity.
  - destruct (C 1000 1000) as (C1 & C2); [lia | lia |].
    split; [exact C1 | exact C2].
Defined.

End MockExtras.

Module WebhookEffects.
Import Js Prisma SkyTabWebhook.
Local Open Scope prisma_scope.

(** The part of [processWebhook] around the handler, on a database that
    does not fail and for an event that is not recorded yet. *)
Lemma processWebhook_around p w w1 :
  faults w = [] ->
  recorded (eventId p) (db w) = false ->
  routeEvent p (setDb (db w) w) = (Return tt, w1) ->
  faults w1 = [] ->
  exists w',
    processWebhook p w
    = (Return {| success := true;
                 message := "Event " ++ eventType p ++ " processed successfully" |},
       w')
    /\ recordedAs "processed" (eventId p) (db w') = true
    /\ domainState (db w') = domainState (db w1).
Proof.
  intros F R RE F1.
  unfold processWebhook, tryCatch, checkDuplicateEvent.
  unfold bind at 1. unfold bind at 1.
  rewrite (WebhookSpec.prisma_no_faults_read _ _ F).
  rewrite (WebhookExtras.recorded_findFirst _ _ R). unfold ret at 1.
  unfold bind at 1. rewrite RE.
  destruct (WebhookSpec.recordWebhookEvent_answers
              (eventId p) (eventType p) (locationGuid p) "processed" None w1)
    as (w' & E & _ & RA & Dom & _).
  { now rewrite F1. }
  unfold bind. rewrite E. unfold ret. exists w'. auto.
Qed.

(** X29: on a database that does not fail, a [ticket.cancelled] event that
    was not recorded yet is reported as processed and recorded so.  When an
    order matches the ticket, the orders with the id of the first match
    become [cancelled] with [posSyncStatus = synced] and the current time
    as [cancelledAt], their [posOrderId] and [posSyncedAt] being kept;
    every other order is left as it was, and one row is added to the
    status history, whose note ends with the reason when the event gives a
    non-empty one.  When no order matches, orders and history are left as
    they were.  Menus and menu items are not touched. *)
Theorem cancellation_event_cancels_the_order (p : SkyTabWebhookPayload)
        (w : World) :
  eventType p = "ticket.cancelled" ->
  faults w = [] ->
  recorded (eventId p) (db w) = false ->
  exists w',
    processWebhook p w
    = (Return {| success := true;
                 message := "Event ticket.cancelled processed successfully" |},
       w')
    /\ recordedAs "processed" (eventId p) (db w') = true
    /\ menus (db w') = menus (db w)
    /\ menuItems (db w') = menuItems (db w)
    /\ match findFirst (orderOfTicket (data p)) (orders (db w)) with
       | None =>
           orders (db w') = orders (db w)
           /\ orderStatusHistories (db w') = orderStatusHistories (db w)
       | Some order =>
           orders (db w')
           = map (fun o =>
                    if (orderId o =? orderId order)%string
                    then {| orderId := orderId o;
                            orderLocationId := orderLocationId o;
                            orderStatus := "cancelled";
                            posOrderId := posOrderId o;
                            posSyncStatus := "synced";
                            posSyncedAt := posSyncedAt o;
                            posErrorMessage := posErrorMessage o;
                            estimatedReadyAt := estimatedReadyAt o;
                            cancelledAt := Some (clock w) |}
                    else o)
                 (orders (db w))
           /\ orderStatusHistories (db w')
              = orderStatusHistories (db w)
                ++ [{| historyOrderId := orderId order;
                       historyStatus := "cancelled";
                       historyNote :=
                         match cancellationReason (data p) with
                         | Some (String c rest as reason) =>
                             "Cancelled from SkyTab POS: " ++ reason
                         | _ => "Cancelled from SkyTab POS"
                         end;
                       historyChangedBy := "system" |}]
       end.
Proof.
  intros Ty F R.
  assert (RE : exists w1,
             routeEvent p (setDb (db w) w) = (Return tt, w1) /\ faults w1 = []
             /\ locations (db w1) = locations (db w)
             /\ menus (db w1) = menus (db w)
             /\ menuItems (db w1) = menuItems (db w)
             /\ match findFirst (orderOfTicket (data p)) (orders (db w)) with
                | None =>
                    orders (db w1) = orders (db w)
                    /\ orderStatusHistories (db w1) = orderStatusHistories (db w)
                | Some order =>
                    orders (db w1)
                    = updateMany (fun o => (orderId o =? orderId order)%string)
                        (fun o =>
                           {| orderId := orderId o;
                              orderLocationId := orderLocationId o;
                              orderStatus := "cancelled";
                              posOrderId := posOrderId o;
                              posSyncStatus := "synced";
                              posSyncedAt := posSyncedAt o;
                              posErrorMessage := posErrorMessage o;
                              estimatedReadyAt := estimatedReadyAt o;
                              cancelledAt := Some (clock w) |})
                        (orders (db w))
                    /\ orderStatusHistories (db w1)
                       = orderStatusHistories (db w)
                         ++ [{| historyOrderId := orderId order;
                                historyStatus := "cancelled";
                                historyNote :=
                                  "Cancelled from SkyTab POS"
                                  ++ (if truthyOpt (cancellationReason (data p))
                                      then ": " ++ match cancellationReason (data p) with
                                                   | Some r => r | None => "" end
                                      else "");
                                historyChangedBy := "system" |}]
                end).
  { unfold routeEvent. rewrite Ty.
    cbn [String.eqb Ascii.eqb Bool.eqb orb andb].
    unfold handleTicketCancelled. unfold bind at 1.
    rewrite WebhookSpec.prisma_no_faults_read by exact F.
    cbn [db setDb].
    destruct (findFirst (orderOfTicket (data p)) (orders (db w)))
      as [order|] eqn:Fi.
    - unfold bind at 1, getClock at 1. unfold bind at 1.
      rewrite WebhookSpec.prisma_no_faults by exact F.
      cbn [db setDb clock].
      rewrite (WebhookSpec.update_found _ _ _ _ order Fi)
        by apply String.eqb_refl.
      cbn [fst snd]. rewrite WebhookSpec.prisma_no_faults by exact F.
      cbn [fst snd db setDb]. eexists. split; [reflexivity|].
      cbn. auto 10.
    - unfold ret. eexists. split; [reflexivity|]. cbn. auto 10. }
  destruct RE as (w1 & RE & F1 & L1 & M1 & I1 & O1).
  destruct (processWebhook_around p w w1 F R RE F1) as (w' & E & RA & Dom).
  rewrite Ty in E. exists w'. split; [exact E|]. split; [exact RA|].
  unfold domainState in Dom. injection Dom as -> -> _ -> ->.
  split; [exact M1|]. split; [exact I1|].
  destruct (findFirst (orderOfTicket (data p)) (orders (db w))) as [order|];
    [|exact O1].
  destruct O1 as (O & H). split; [exact O|]. rewrite H.
  destruct (cancellationReason (data p)) as [[|c rest]|]; reflexivity.
Qed.

(** The cancellation of the sample order at 5000 ms. *)
Lemma cancellation_event_cancels_the_order_witness :
  exists r w',
    processWebhook Samples.ticketCancelled (Samples.sampleWorld [])
    = (Return r, w')
    /\ map (fun o => (orderStatus o, cancelledAt o)) (orders (db w'))
       = [("cancelled", Some 5000)]
    /\ map historyNote (orderStatusHistories (db w'))
       = ["Cancelled from SkyTab POS: Customer request"].
Proof.
  destruct (cancellation_event_cancels_the_order
              Samples.ticketCancelled (Samples.sampleWorld [])
              eq_refl eq_refl eq_refl) as (w' & E & _ & _ & _ & O & H).
  do 2 eexists. split; [exact E|]. rewrite O, H. split; reflexivity.
Defined.

(** X30: on a database that does not fail, a [menu.updated] or
    [menu.item_availability_changed] event that was not recorded yet is
    reported as processed and recorded so.  When a location carries the
    event's location GUID, the menus of the first such location, and no
    others, lose their [lastSyncAt], and the menu items named in
    [changedItems], and no others, get the current time as [updatedAt]
    with their availability untouched; when no location matches, menus
    and menu items are left as they were.  Orders and status history are
    not touched. *)
Theorem menu_event_flags_the_menus (p : SkyTabWebhookPayload) (w : World) :
  In (eventType p) ["menu.updated"; "menu.item_availability_changed"] ->
  faults w = [] ->
  recorded (eventId p) (db w) = false ->
  exists w',
    processWebhook p w
    = (Return {| success := true;
                 message := "Event " ++ eventType p ++ " processed successfully" |},
       w')
    /\ recordedAs "processed" (eventId p) (db w') = true
    /\ orders (db w') = orders (db w)
    /\ orderStatusHistories (db w') = orderStatusHistories (db w)
    /\ match findFirst (fun l => optEqb (posLocationId l) (locationGuid p))
                       (locations (db w)) with
       | None => menus (db w') = menus (db w)
                 /\ menuItems (db w') = menuItems (db w)
       | Some location =>
           menus (db w')
           = map (fun m =>
                    if (menuLocationId m =? locationId location)%string
                    then {| menuLocationId := menuLocationId m;
                            lastSyncAt := None |}
                    else m)
                 (menus (db w))
           /\ menuItems (db w')
              = match changedItems (data p) with
                | Some (first :: others) =>
                    map (fun i =>
                           if existsb (optEqb (posItemId i)) (first :: others)
                           then {| menuItemId := menuItemId i;
                                   posItemId := posItemId i;
                                   isAvailable := isAvailable i;
                                   is86ed := is86ed i;
                                   updatedAt := clock w |}
                           else i)
                        (menuItems (db w))
                | _ => menuItems (db w)
                end
       end.
Proof.
  intros Ty F R.
  assert (RE : exists w1,
             routeEvent p (setDb (db w) w) = (Return tt, w1) /\ faults w1 = []
             /\ orders (db w1) = orders (db w)
             /\ orderStatusHistories (db w1) = orderStatusHistories (db w)
             /\ match findFirst (fun l => optEqb (posLocationId l) (locationGuid p))
                                (locations (db w)) with
                | None => menus (db w1) = menus (db w)
                          /\ menuItems (db w1) = menuItems (db w)
                | Some location =>
                    menus (db w1)
                    = updateMany
                        (fun m => (menuLocationId m =? locationId location)%string)
                        (fun m => {| menuLocationId := menuLocationId m;
                                     lastSyncAt := None |})
                        (menus (db w))
                    /\ menuItems (db w1)
                       = match changedItems (data p) with
                         | Some (first :: others) =>
                             updateMany
                               (fun i => existsb (optEqb (posItemId i))
                                                 (first :: others))
                               (fun i => {| menuItemId := menuItemId i;
                                            posItemId := posItemId i;
                                            isAvailable := isAvailable i;
                                            is86ed := is86ed i;
                                            updatedAt := clock w |})
                               (menuItems (db w))
                         | _ => menuItems (db w)
                         end
                end).
  { assert (RM : routeEvent p
                 = handleMenuEvent (eventType p) (data p) (locationGuid p)).
    { unfold routeEvent. cbn [In] in Ty.
      destruct Ty as [<- | [<- | []]]; reflexivity. }
    rewrite RM. unfold handleMenuEvent. unfold bind at 1.
    rewrite WebhookSpec.prisma_no_faults_read by exact F.
    cbn [db setDb].
    destruct (findFirst _ (locations (db w))) as [location|].
    - unfold bind at 1. rewrite WebhookSpec.prisma_no_faults by exact F.
      cbn [fst snd db setDb].
      destruct (changedItems (data p)) as [[|first others]|].
      + unfold ret. eexists. split; [reflexivity|]. cbn. auto 10.
      + unfold bind, getClock.
        rewrite WebhookSpec.prisma_no_faults by exact F.
        cbn [fst snd db setDb clock]. eexists. split; [reflexivity|].
        cbn. auto 10.
      + unfold ret. eexists. split; [reflexivity|]. cbn. auto 10.
    - unfold ret. eexists. split; [reflexivity|]. cbn. auto 10. }
  destruct RE as (w1 & RE & F1 & O1 & H1 & M1).
  destruct (processWebhook_around p w w1 F R RE F1) as (w' & E & RA & Dom).
  exists w'. split; [exact E|]. split; [exact RA|].
  unfold domainState in Dom. injection Dom as -> -> _ -> ->.
  split; [exact O1|]. split; [exact H1|].
  destruct (findFirst _ (locations (db w))) as [location|]; [|exact M1].
  destruct M1 as (M & I). split; [exact M|]. rewrite I.
  destruct (changedItems (data p)) as [[|first others]|]; reflexivity.
Qed.

(** The menu update of the sample location at 5000 ms. *)
Lemma menu_event_flags_the_menus_witness :
  exists r w',
    processWebhook Samples.menuUpdated (Samples.sampleWorld []) = (Return r, w')
    /\ map lastSyncAt (menus (db w')) = [None]
    /\ map updatedAt (menuItems (db w')) = [5000].
Proof.
  destruct (menu_event_flags_the_menus
              Samples.menuUpdated (Samples.sampleWorld [])
              (or_introl eq_refl) eq_refl eq_refl)
    as (w' & E & _ & _ & _ & M & I).
  do 2 eexists. split; [exact E|]. rewrite M, I. split; reflexivity.
Defined.

End WebhookEffects.
